(** * claimbs: the sentence analyzer of [analyzer.py]

    A shallow embedding of the rule-driven scoring engine (phrase and pattern
    span matching, feature extraction, classification, penalty and bonus
    scoring, document aggregation) together with the properties of it that
    the specification states. *)

From Stdlib Require Import QArith.
From stdpp Require Import base numbers option list strings gmap.

Local Open Scope string_scope.
Local Open Scope list_scope.
Local Open Scope Z_scope.

(** ** Python values *)

(** A Python [str] is a sequence of Unicode code points; [len] and indexing
    count code points.  Dictionary keys, flag types and labels are kept as
    [string] (their UTF-8 bytes, an injective encoding, so key equality is
    that of the dictionary). *)
Definition codepoint := N.
Definition str := list codepoint.

(** Literal text: the code points of an ASCII literal. *)
Definition u (s : string) : str :=
  map (fun a : Ascii.ascii => N.of_nat (Ascii.nat_of_ascii a)) (String.list_ascii_of_string s).

(** Exceptions that the analyzer can end in.  [OutOfFuel] is not an exception:
    it marks a run of a [while True] loop that was cut off by the model. *)
Inductive error : Type :=
| KeyError (key : string)
| ReError (source : str)
| OutOfFuel.

Inductive result (A : Type) : Type :=
| Ok (a : A)
| Err (e : error).
Arguments Ok {A} a.
Arguments Err {A} e.

#[global] Instance result_ret : MRet result := fun A a => Ok a.
#[global] Instance result_bind : MBind result := fun A B f m =>
  match m with
  | Ok a => f a
  | Err e => Err e
  end.

(** [d[key]] on a dictionary. *)
Definition getitem {V} (d : gmap string V) (key : string) : result V :=
  match d !! key with
  | Some v => Ok v
  | None => Err (KeyError key)
  end.

(** [s[i:j]] for non-negative indices: both ends are clamped to [len(s)]. *)
Definition slice {A} (s : list A) (i j : nat) : list A :=
  firstn (j - i) (skipn i s).

(** [t.startswith(p)]. *)
Fixpoint starts_with (p t : str) : bool :=
  match p, t with
  | [], _ => true
  | _ :: _, [] => false
  | a :: p', b :: t' => N.eqb a b && starts_with p' t'
  end.

(** The scan of [str.find]: [t] is the text from position [pos] on. *)
Fixpoint find_in (p t : str) (pos : nat) : option nat :=
  if starts_with p t then Some pos
  else match t with
       | [] => None
       | _ :: t' => find_in p t' (S pos)
       end.

(** [t.find(p, start)] for [start >= 0]; [None] stands for the result [-1]. *)
Definition find (t p : str) (start : nat) : option nat :=
  if (start <=? length t)%nat then find_in p (skipn start t) start else None.

(** ** Spans and flags *)

Record Span : Type := mkSpan {
  sp_start : nat;
  sp_end : nat;
  sp_text : str
}.

Record Flag : Type := mkFlag {
  fl_type : string;
  fl_label : string;
  fl_spans : list Span
}.

Definition make_flag (flag_type label : string) (spans : list Span) : Flag :=
  mkFlag flag_type label spans.

(** A compiled [re.Pattern], seen through [finditer]: the [(m.start(), m.end())]
    of the matches on a text, in the order the iterator yields them. *)
Record Pattern : Type := mkPattern {
  finditer : str -> list (nat * nat)
}.

Definition find_spans_regex (pattern : Pattern) (text : str) : list Span :=
  map (fun m : nat * nat => mkSpan (fst m) (snd m) (slice text (fst m) (snd m)))
      (finditer pattern text).

Section PhraseSpans.
(** [str.lower] *)
Variable lower : str -> str.

(** The [while True] loop of [find_phrase_spans] for one phrase. *)
Fixpoint scan_phrase (fuel : nat) (text_l p_l original : str)
    (start : nat) (spans : list Span) : result (list Span) :=
  match fuel with
  | O => Err OutOfFuel
  | S fuel' =>
      match find text_l p_l start with
      | None => Ok spans
      | Some idx =>
          scan_phrase fuel' text_l p_l original (idx + length p_l)
            (spans ++ [mkSpan idx (idx + length p_l)
                              (slice original idx (idx + length p_l))])
      end
  end.

(** The [for p in phrases] loop, threading the [spans] list. *)
Fixpoint phrases_loop (fuel : nat) (text_l : str) (phrases : list str)
    (original : str) (spans : list Span) : result (list Span) :=
  match phrases with
  | [] => Ok spans
  | p :: phrases' =>
      spans' ← scan_phrase fuel text_l (lower p) original 0 spans;
      phrases_loop fuel text_l phrases' original spans'
  end.

Definition find_phrase_spans (fuel : nat) (text_l : str) (phrases : list str)
    (original : str) : result (list Span) :=
  phrases_loop fuel text_l phrases original [].
End PhraseSpans.


(** ** Feature map, analysis result and rule configuration *)

(** The [features] dictionary: its thirteen keys are fixed by the literal. *)
Record Features : Type := mkFeatures {
  outcome_present : bool;
  speed_present : bool;
  hedge_present : bool;
  superlative_present : bool;
  proof_implied : bool;
  buzzword_present : bool;
  mechanism_present : bool;
  values_present : bool;
  metric_present : bool;
  timeframe_present : bool;
  baseline_present : bool;
  scope_present : bool;
  passive_present : bool
}.

Definition features_items (f : Features) : list (string * bool) :=
  [ ("outcome_present", outcome_present f);
    ("speed_present", speed_present f);
    ("hedge_present", hedge_present f);
    ("superlative_present", superlative_present f);
    ("proof_implied", proof_implied f);
    ("buzzword_present", buzzword_present f);
    ("mechanism_present", mechanism_present f);
    ("values_present", values_present f);
    ("metric_present", metric_present f);
    ("timeframe_present", timeframe_present f);
    ("baseline_present", baseline_present f);
    ("scope_present", scope_present f);
    ("passive_present", passive_present f) ].

(** Lookup in an insertion-ordered dictionary (keys are unique). *)
Fixpoint assoc_get {V} (d : list (string * V)) (key : string) : option V :=
  match d with
  | [] => None
  | (k, v) :: d' => if String.eqb k key then Some v else assoc_get d' key
  end.

(** [features.get(k, default)]. *)
Definition features_get (f : Features) (k : string) (default : bool) : bool :=
  match assoc_get (features_items f) k with
  | Some b => b
  | None => default
  end.

Record ScoreBreakdown : Type := mkScoreBreakdown {
  penalties : Z;
  bonus : Z
}.

Record SentenceAnalysis : Type := mkSentenceAnalysis {
  sentence : str;
  semantic_class : string;
  features : Features;
  flags : list Flag;
  score_breakdown : ScoreBreakdown;
  total_score : Z
}.

(** One entry of [semantic_classes.json]: a dictionary with the keys
    ["requires"] and ["forbids"]. *)
Abbreviation ClassRule := (gmap string (list string)).

(** The state of an [Analyzer] after [__init__]. *)
Record Analyzer : Type := mkAnalyzer {
  lex : gmap string (list str);
  wt : gmap string (gmap string Z);
  sc : list (string * ClassRule);
  re_number_unit : Pattern;
  re_timeframe : Pattern;
  re_baseline : Pattern;
  re_scope : Pattern;
  re_passive : Pattern
}.

(** The four documents that [__init__] loads from [rules_dir]. *)
Record RulesDir : Type := mkRulesDir {
  lexicons_json : gmap string (list str);
  regex_json : gmap string str;
  weights_json : gmap string (gmap string Z);
  semantic_classes_json : list (string * ClassRule)
}.

(** The span lists that [analyze_sentence] computes before the features. *)
Record SpanSets : Type := mkSpanSets {
  outcome_spans : list Span;
  speed_spans : list Span;
  hedge_spans : list Span;
  super_spans : list Span;
  proof_spans : list Span;
  buzz_spans : list Span;
  mech_spans : list Span;
  values_spans : list Span;
  metric_spans : list Span;
  timeframe_spans : list Span;
  baseline_spans : list Span;
  scope_spans : list Span;
  passive_spans : list Span
}.

(** [bool(l)] on a list. *)
Definition truthy {A} (l : list A) : bool :=
  match l with
  | [] => false
  | _ :: _ => true
  end.

Definition features_of (sp : SpanSets) : Features :=
  {| outcome_present := truthy (outcome_spans sp);
     speed_present := truthy (speed_spans sp);
     hedge_present := truthy (hedge_spans sp);
     superlative_present := truthy (super_spans sp);
     proof_implied := truthy (proof_spans sp);
     buzzword_present := truthy (buzz_spans sp);
     mechanism_present := truthy (mech_spans sp);
     values_present := truthy (values_spans sp);
     metric_present := truthy (metric_spans sp);
     timeframe_present := truthy (timeframe_spans sp);
     baseline_present := truthy (baseline_spans sp);
     scope_present := truthy (scope_spans sp);
     passive_present := truthy (passive_spans sp) |}.

(** The semantic class block: only the entry [values_non_operational] is read. *)
Definition classify (sc : list (string * ClassRule)) (features : Features) : result string :=
  match assoc_get sc "values_non_operational" with
  | None => Ok "operational_or_mixed"
  | Some rule =>
      if bool_decide (rule = ∅) then Ok "operational_or_mixed"
      else
        requires ← getitem rule "requires";
        if forallb (fun k => features_get features k false) requires then
          forbids ← getitem rule "forbids";
          if forallb (fun k => negb (features_get features k false)) forbids
          then Ok "values_non_operational"
          else Ok "operational_or_mixed"
        else Ok "operational_or_mixed"
  end.

(** One [if trigger: penalties += P[type]; flags.append(make_flag(type, label, spans))]. *)
Record Rule : Type := mkRule {
  r_trigger : bool;
  r_type : string;
  r_label : string;
  r_spans : list Span
}.

Fixpoint apply_rules (P : gmap string Z) (rules : list Rule)
    (penalties : Z) (flags : list Flag) : result (Z * list Flag) :=
  match rules with
  | [] => Ok (penalties, flags)
  | r :: rules' =>
      if r_trigger r then
        w ← getitem P (r_type r);
        apply_rules P rules' (penalties + w)
          (flags ++ [make_flag (r_type r) (r_label r) (r_spans r)])
      else apply_rules P rules' penalties flags
  end.

(** One [if features[name]: bonus += B[name]] per entry. *)
Fixpoint apply_bonuses (B : gmap string Z) (rules : list (bool * string))
    (bonus : Z) : result Z :=
  match rules with
  | [] => Ok bonus
  | (present, name) :: rules' =>
      if present then
        w ← getitem B name;
        apply_bonuses B rules' (bonus + w)
      else apply_bonuses B rules' bonus
  end.

Definition bonus_rules (features : Features) : list (bool * string) :=
  [ (metric_present features, "metric_present");
    (timeframe_present features, "timeframe_present");
    (baseline_present features, "baseline_present");
    (mechanism_present features, "mechanism_present");
    (scope_present features, "scope_present") ].

Definition process_words : list str :=
  [ u "discovery"; u "strategy"; u "execution"; u "optimization";
    u "planning process"; u "customer journey" ].

Definition lexicon_keys : list string :=
  [ "outcome_verbs"; "speed_words"; "hedges"; "superlatives"; "proof_theater";
    "buzzwords"; "mechanism_tokens"; "values_language" ].

Definition regex_keys : list string :=
  [ "number_unit"; "timeframe"; "baseline"; "scope"; "passive" ].

Definition penalty_keys : list string :=
  [ "outcome_without_metric"; "speed_without_timeframe"; "outcome_without_baseline";
    "outcome_without_scope"; "proof_implied_no_evidence"; "buzzword_no_mechanism";
    "outcome_without_mechanism"; "process_no_levers"; "passive_voice";
    "superlative_unbounded" ].

Definition bonus_keys : list string :=
  [ "metric_present"; "timeframe_present"; "baseline_present";
    "mechanism_present"; "scope_present" ].

(** ** Document summary *)

Record Overall : Type := mkOverall {
  score_mean : Q;
  score_worst_sentence : option Z;
  pct_sentences_high_bs : option Q;
  overall_label : string;
  n_sentences : nat
}.

Record AnalysisResult : Type := mkAnalysisResult {
  overall : Overall;
  sentences : list SentenceAnalysis
}.

(** The local function [label] of [analyze_text]. *)
Definition label (x : Q) : string :=
  if Qle_bool x 25 then "Solid / operational"
  else if Qle_bool x 50 then "Soft marketing"
  else if Qle_bool x 75 then "High BS risk"
  else "Persuasion fog".

(** Nearest integer, ties to the even one. *)
Definition round_half_even (x : Q) : Z :=
  let n := Qnum x in
  let d := Z.pos (Qden x) in
  let q := n / d in
  match 2 * (n mod d) ?= d with
  | Lt => q
  | Gt => q + 1
  | Eq => if Z.even q then q else q + 1
  end.

(** [round(x, 1)] of a double [x]: the tenth nearest to [x], ties to the even
    tenth.  Python returns the double nearest to that tenth, which is written
    as the tenth. *)
Definition round1 (x : Q) : Q := Qmake (round_half_even (x * 10)) 10.

(** [sum(scores)] and [max(scores)]. *)
Definition sum (scores : list Z) : Z := foldr Z.add 0 scores.

Definition max_list (scores : list Z) : Z :=
  match scores with
  | [] => 0
  | x :: rest => foldl Z.max x rest
  end.

(** The exact quotient of two integers.  [a / b] (true division) is the
    double nearest to it, [binary64 (true_div a b)]. *)
Definition true_div (a b : Z) : Q := (inject_Z a / inject_Z b)%Q.

(** [x / 2^e]. *)
Definition scale2 (x : Q) (e : Z) : Q :=
  (if 0 <=? e then x / inject_Z (2 ^ e) else x * inject_Z (2 ^ (- e)))%Q.

(** The exponent of the last bit of the double nearest to [x]: the one that
    leaves a significand of 53 bits, and at least -1074. *)
Definition exponent64 (x : Q) : Z :=
  let e0 := Z.log2 (Z.abs (Qnum x)) - Z.log2 (Z.pos (Qden x)) - 52 in
  Z.max (if Qle_bool (inject_Z (2 ^ 52)) (scale2 (Z.abs (Qnum x) # Qden x) e0)
         then e0 else e0 - 1)
        (-1074).

(** The double nearest to [x], ties to the even significand, as the rational
    it stands for (the quotients of [analyze_text] lie between 0 and 100, far
    below the largest double). *)
Definition binary64 (x : Q) : Q :=
  if Qnum x =? 0 then 0%Q
  else
    let e := exponent64 x in
    scale2 (inject_Z (round_half_even (scale2 x e))) (- e).

(** The part of [analyze_text] after the sentences are analysed.  The two
    quotients are rounded as doubles; [label] is applied to the exact mean,
    which compares with 25, 50 and 75 as the double nearest to it does for
    fewer than [2^47] sentences (lemma [label_binary64]). *)
Definition aggregate (analyses : list SentenceAnalysis) : AnalysisResult :=
  match analyses with
  | [] =>
      {| overall := {| score_mean := 0; score_worst_sentence := None;
                       pct_sentences_high_bs := None; overall_label := "Empty";
                       n_sentences := 0 |};
         sentences := [] |}
  | _ :: _ =>
      let scores := map total_score analyses in
      let len := Z.of_nat (length scores) in
      let mean := true_div (sum scores) len in
      let worst := max_list scores in
      let pct_high :=
        true_div (100 * Z.of_nat (length (filter (fun x => 51 <= x) scores))) len in
      {| overall := {| score_mean := round1 (binary64 mean);
                       score_worst_sentence := Some worst;
                       pct_sentences_high_bs := Some (round1 (binary64 pct_high));
                       overall_label := label mean;
                       n_sentences := length analyses |};
         sentences := analyses |}
  end.

Section Analyzer.
(** [str.lower], the class [\w] and the class [\s] of Python on Unicode text,
    and [re.compile(source, re.IGNORECASE)] ([None]: the source is malformed). *)
Variable lower : str -> str.
Variable is_word : codepoint -> bool.
Variable is_space : codepoint -> bool.
Variable re_compile : str -> option Pattern.

(** *** [split_sentences] *)

Fixpoint lstrip (t : str) : str :=
  match t with
  | [] => []
  | c :: t' => if is_space c then lstrip t' else t
  end.

(** [t.strip()]. *)
Definition strip (t : str) : str := rev (lstrip (rev (lstrip t))).

(** [re.sub(r"\s+", " ", t)]; [in_run]: the previous character was whitespace. *)
Fixpoint collapse_whitespace (t : str) (in_run : bool) : str :=
  match t with
  | [] => []
  | c :: t' =>
      if is_space c then
        if in_run then collapse_whitespace t' true
        else 32%N :: collapse_whitespace t' true
      else c :: collapse_whitespace t' false
  end.

Definition sentence_end (c : codepoint) : bool :=
  N.eqb c 46 || N.eqb c 33 || N.eqb c 63.

(** [re.split(r"(?<=[.!?])\s+", t)]: [prev] is the character before the
    current one, [part] the piece being collected, [in_sep] tells that the
    previous character belonged to a separator. *)
Fixpoint split_loop (t : str) (prev : option codepoint) (part : str)
    (in_sep : bool) : list str :=
  match t with
  | [] => [part]
  | c :: t' =>
      if is_space c && in_sep then split_loop t' (Some c) part true
      else if is_space c && from_option sentence_end false prev
           then part :: split_loop t' (Some c) [] true
           else split_loop t' (Some c) (part ++ [c]) false
  end.

Definition split_sentences (text : str) : list str :=
  let text := collapse_whitespace (strip text) false in
  match text with
  | [] => []
  | _ :: _ =>
      let parts := split_loop text None [] false in
      map strip (filter (fun p => truthy (strip p) = true) parts)
  end.

(** *** [analyze_sentence] *)

(** [find_phrase_spans(s_l, self.lex[name], s)]. *)
Definition lexicon_spans (self : Analyzer) (fuel : nat) (s_l : str)
    (name : string) (s : str) : result (list Span) :=
  phrases ← getitem (lex self) name;
  find_phrase_spans lower fuel s_l phrases s.

Definition match_spans (self : Analyzer) (fuel : nat) (s_l s : str) : result SpanSets :=
  outcome ← lexicon_spans self fuel s_l "outcome_verbs" s;
  speed ← lexicon_spans self fuel s_l "speed_words" s;
  hedge ← lexicon_spans self fuel s_l "hedges" s;
  super ← lexicon_spans self fuel s_l "superlatives" s;
  proof ← lexicon_spans self fuel s_l "proof_theater" s;
  buzz ← lexicon_spans self fuel s_l "buzzwords" s;
  mech ← lexicon_spans self fuel s_l "mechanism_tokens" s;
  values ← lexicon_spans self fuel s_l "values_language" s;
  Ok {| outcome_spans := outcome; speed_spans := speed; hedge_spans := hedge;
        super_spans := super; proof_spans := proof; buzz_spans := buzz;
        mech_spans := mech; values_spans := values;
        metric_spans := find_spans_regex (re_number_unit self) s;
        timeframe_spans := find_spans_regex (re_timeframe self) s;
        baseline_spans := find_spans_regex (re_baseline self) s;
        scope_spans := find_spans_regex (re_scope self) s;
        passive_spans := find_spans_regex (re_passive self) s |}.

(** [\b] at position [i] of [t]. *)
Definition word_at (t : str) (i : nat) : bool :=
  from_option is_word false (t !! i).

Definition word_boundary (t : str) (i : nat) : bool :=
  xorb (match i with O => false | S j => word_at t j end) (word_at t i).

(** [re.search(r"\b(discovery|strategy|execution|optimization|planning process|customer journey)\b", t)]
    as a truth value. *)
Definition process_match_at (t : str) (i : nat) : bool :=
  word_boundary t i &&
  existsb (fun w => starts_with w (skipn i t) && word_boundary t (i + length w))
          process_words.

Definition search_process (t : str) : bool :=
  existsb (process_match_at t) (seq 0 (S (length t))).

(** The ten penalty blocks, in source order. *)
Definition penalty_rules (features : Features) (sp : SpanSets) (s s_l : str) : list Rule :=
  [ mkRule (outcome_present features && negb (metric_present features))
      "outcome_without_metric" "Outcome claim without metric" (outcome_spans sp);
    mkRule (speed_present features && negb (timeframe_present features))
      "speed_without_timeframe" "Speed claim without timeframe" (speed_spans sp);
    mkRule (outcome_present features && negb (baseline_present features))
      "outcome_without_baseline" "Outcome claim without baseline" (outcome_spans sp);
    mkRule (outcome_present features && negb (scope_present features))
      "outcome_without_scope" "Outcome claim without scope" (outcome_spans sp);
    mkRule (proof_implied features)
      "proof_implied_no_evidence" "Proof implied without evidence structure" (proof_spans sp);
    mkRule (buzzword_present features && negb (mechanism_present features))
      "buzzword_no_mechanism" "Buzzword used as mechanism substitute" (buzz_spans sp);
    mkRule (outcome_present features && negb (mechanism_present features))
      "outcome_without_mechanism" "Outcome claim without concrete mechanism" (outcome_spans sp);
    mkRule (search_process s_l && negb (mechanism_present features))
      "process_no_levers" "Process language without levers" [mkSpan 0 (length s) s];
    mkRule (passive_present features)
      "passive_voice" "Passive voice / agency evasion" (passive_spans sp);
    mkRule (superlative_present features && negb (metric_present features))
      "superlative_unbounded" "Superlative without constraint" (super_spans sp) ].

Definition analyze_sentence (self : Analyzer) (fuel : nat) (s : str)
    : result SentenceAnalysis :=
  let s_l := lower s in
  sp ← match_spans self fuel s_l s;
  let features := features_of sp in
  semantic_class ← classify (sc self) features;
  P ← getitem (wt self) "penalties";
  B ← getitem (wt self) "bonuses";
  scored ← apply_rules P (penalty_rules features sp s s_l) 0 [];
  bonus ← apply_bonuses B (bonus_rules features) 0;
  let total := Z.max 0 (Z.min 100 (fst scored - bonus)) in
  Ok {| sentence := s;
        semantic_class := semantic_class;
        features := features;
        flags := snd scored;
        score_breakdown := {| penalties := fst scored; bonus := bonus |};
        total_score := total |}.

(** *** [Analyzer.__init__] *)

(** [re.compile(rx[key], re.IGNORECASE)]. *)
Definition compile_key (rx : gmap string str) (key : string) : result Pattern :=
  source ← getitem rx key;
  match re_compile source with
  | Some p => Ok p
  | None => Err (ReError source)
  end.

Definition Analyzer_init (d : RulesDir) : result Analyzer :=
  number_unit ← compile_key (regex_json d) "number_unit";
  timeframe ← compile_key (regex_json d) "timeframe";
  baseline ← compile_key (regex_json d) "baseline";
  scope ← compile_key (regex_json d) "scope";
  passive ← compile_key (regex_json d) "passive";
  Ok {| lex := lexicons_json d;
        wt := weights_json d;
        sc := semantic_classes_json d;
        re_number_unit := number_unit;
        re_timeframe := timeframe;
        re_baseline := baseline;
        re_scope := scope;
        re_passive := passive |}.

(** *** [analyze_text] *)

(** [[self.analyze_sentence(s) for s in sents]]. *)
Fixpoint analyze_all (self : Analyzer) (fuel : nat) (sents : list str)
    : result (list SentenceAnalysis) :=
  match sents with
  | [] => Ok []
  | s :: sents' =>
      a ← analyze_sentence self fuel s;
      rest ← analyze_all self fuel sents';
      Ok (a :: rest)
  end.

Definition analyze_text (self : Analyzer) (fuel : nat) (text : str)
    : result AnalysisResult :=
  analyses ← analyze_all self fuel (split_sentences text);
  Ok (aggregate analyses).
End Analyzer.

(** ** Conditions on a rule configuration *)

Section Validity.
Variable lower : str -> str.

(** The eight lexicons are present and no phrase lowercases to the empty
    string. *)
Definition valid_lexicons (lex : gmap string (list str)) : bool :=
  forallb (fun k => match lex !! k with
                    | Some phrases => forallb (fun p => truthy (lower p)) phrases
                    | None => false
                    end) lexicon_keys.

(** No lexicon that is present has a phrase that lowercases to the empty
    string. *)
Definition wellformed_lexicons (lex : gmap string (list str)) : bool :=
  forallb (fun k => match lex !! k with
                    | Some phrases => forallb (fun p => truthy (lower p)) phrases
                    | None => true
                    end) lexicon_keys.

(** Both weight tables are present and define every name that is read. *)
Definition valid_weights (wt : gmap string (gmap string Z)) : bool :=
  match wt !! "penalties", wt !! "bonuses" with
  | Some P, Some B =>
      forallb (fun k => bool_decide (is_Some (P !! k))) penalty_keys
      && forallb (fun k => bool_decide (is_Some (B !! k))) bonus_keys
  | _, _ => false
  end.

(** The entry [values_non_operational], when present and not empty, has
    both of its keys. *)
Definition valid_classes (sc : list (string * ClassRule)) : bool :=
  match assoc_get sc "values_non_operational" with
  | None => true
  | Some rule =>
      bool_decide (rule = ∅)
      || (bool_decide (is_Some (rule !! "requires"))
          && bool_decide (is_Some (rule !! "forbids")))
  end.

Definition valid_config (self : Analyzer) : bool :=
  valid_lexicons (lex self) && valid_weights (wt self) && valid_classes (sc self).
End Validity.

(** ** What the specification says, in its own words *)

(** [clamp(x, lo, hi)]. *)
Definition clamp (x lo hi : Z) : Z :=
  if x <? lo then lo else if hi <? x then hi else x.

(** [p] occurs in [t] at position [i]. *)
Definition occurs_at (t p : str) (i : nat) : Prop :=
  (i + length p <= length t)%nat /\ firstn (length p) (skipn i t) = p.

(** The occurrences of [p] in [t] that a left-to-right scan from [start]
    keeps: the leftmost one, then the leftmost one that begins at or after
    its end, and so on until none is left. *)
Inductive scan_occurrences (t p : str) : nat -> list nat -> Prop :=
| scan_done start :
    (forall i, (start <= i)%nat -> ~ occurs_at t p i) ->
    scan_occurrences t p start []
| scan_next start i rest :
    (start <= i)%nat ->
    occurs_at t p i ->
    (forall j, (start <= j < i)%nat -> ~ occurs_at t p j) ->
    scan_occurrences t p (i + length p) rest ->
    scan_occurrences t p start (i :: rest).

(** The span of an occurrence of a phrase of length [n] at [i], with its text
    taken from the original sentence. *)
Definition span_at (original : str) (n i : nat) : Span :=
  mkSpan i (i + n) (slice original i (i + n)).

(** A class matches: every required feature is true and every forbidden one
    false. *)
Definition class_matches (features : Features) (rule : ClassRule) : bool :=
  forallb (fun k => features_get features k false) (default [] (rule !! "requires"))
  && forallb (fun k => negb (features_get features k false)) (default [] (rule !! "forbids")).

(** First full match in declaration order, default otherwise. *)
Fixpoint classify_first_match (sc : list (string * ClassRule)) (features : Features) : string :=
  match sc with
  | [] => "operational_or_mixed"
  | (name, rule) :: sc' =>
      if class_matches features rule then name else classify_first_match sc' features
  end.

(** The class [values_non_operational] applies: its entry is present and not
    empty, and it matches. *)
Definition values_class_applies (sc : list (string * ClassRule)) (features : Features) : bool :=
  match assoc_get sc "values_non_operational" with
  | None => false
  | Some rule => negb (bool_decide (rule = ∅)) && class_matches features rule
  end.

(** The four-way threshold on a mean given as [total / n]. *)
Definition threshold_label (total n : Z) : string :=
  if total <=? 25 * n then "Solid / operational"
  else if total <=? 50 * n then "Soft marketing"
  else if total <=? 75 * n then "High BS risk"
  else "Persuasion fog".

(** The span invariant of the data model. *)
Definition span_ok (sentence : str) (sp : Span) : Prop :=
  (sp_start sp <= sp_end sp)%nat /\ (sp_end sp <= length sentence)%nat
  /\ sp_text sp = slice sentence (sp_start sp) (sp_end sp).

(** ** Derived notions used in the statements *)

(** [table[k]] when present. *)
Definition weight (table : gmap string Z) (k : string) : Z := default 0 (table !! k).

(** The rules whose trigger holds, the flag a rule appends, and the bonus
    names whose feature holds. *)
Definition fired (rules : list Rule) : list Rule := filter (fun r => r_trigger r) rules.

Definition flag_of (r : Rule) : Flag := make_flag (r_type r) (r_label r) (r_spans r).

Definition granted (rules : list (bool * string)) : list string :=
  map snd (filter (fun r : bool * string => fst r) rules).

(** The analysis that results from given span sets, class and weight tables. *)
Definition analysis_of (is_word : codepoint -> bool) (s s_l : str) (sp : SpanSets)
    (cls : string) (P B : gmap string Z) : SentenceAnalysis :=
  let rules := fired (penalty_rules is_word (features_of sp) sp s s_l) in
  let pen := sum (map (fun r => weight P (r_type r)) rules) in
  let bon := sum (map (weight B) (granted (bonus_rules (features_of sp)))) in
  {| sentence := s;
     semantic_class := cls;
     features := features_of sp;
     flags := map flag_of rules;
     score_breakdown := {| penalties := pen; bonus := bon |};
     total_score := Z.max 0 (Z.min 100 (pen - bon)) |}.

(** The raw score, before clamping. *)
Definition raw_score (r : SentenceAnalysis) : Z :=
  penalties (score_breakdown r) - bonus (score_breakdown r).

(** The same analyzer with the weight of penalty rule [k] set to [w]. *)
Definition set_penalty (self : Analyzer) (k : string) (w : Z) : Analyzer :=
  {| lex := lex self;
     wt := match wt self !! "penalties" with
           | Some P => <["penalties" := <[k := w]> P]> (wt self)
           | None => wt self
           end;
     sc := sc self;
     re_number_unit := re_number_unit self;
     re_timeframe := re_timeframe self;
     re_baseline := re_baseline self;
     re_scope := re_scope self;
     re_passive := re_passive self |}.

(** The same rule documents with other lexicons and weights. *)
Definition with_lexicons_weights (d : RulesDir) (lexicons : gmap string (list str))
    (weights : gmap string (gmap string Z)) : RulesDir :=
  {| lexicons_json := lexicons;
     regex_json := regex_json d;
     weights_json := weights;
     semantic_classes_json := semantic_classes_json d |}.

Definition analyzer_with_lexicons_weights (self : Analyzer)
    (lexicons : gmap string (list str)) (weights : gmap string (gmap string Z)) : Analyzer :=
  {| lex := lexicons;
     wt := weights;
     sc := sc self;
     re_number_unit := re_number_unit self;
     re_timeframe := re_timeframe self;
     re_baseline := re_baseline self;
     re_scope := re_scope self;
     re_passive := re_passive self |}.

(** ** Python's character tables on the Latin ranges *)

(** The full lowercase mapping of a code point, for Basic Latin, Latin-1
    Supplement and U+0130 (LATIN CAPITAL LETTER I WITH DOT ABOVE, which
    lowercases to the two code points U+0069 U+0307); other code points are
    left as they are. *)
Definition py_lower_cp (c : codepoint) : str :=
  (if (65 <=? c) && (c <=? 90) then [c + 32]
   else if ((192 <=? c) && (c <=? 214)) || ((216 <=? c) && (c <=? 222)) then [c + 32]
   else if c =? 304 then [105; 775]
   else [c])%N.

Definition py_lower (s : str) : str := flat_map py_lower_cp s.

(** [\w] (alphanumeric or underscore) for the code points up to U+017F;
    those above are not classified. *)
Definition py_is_word (c : codepoint) : bool :=
  (((48 <=? c) && (c <=? 57)) || ((65 <=? c) && (c <=? 90)) || (c =? 95)
   || ((97 <=? c) && (c <=? 122))
   || (c =? 170) || (c =? 178) || (c =? 179) || (c =? 181) || (c =? 185) || (c =? 186)
   || ((188 <=? c) && (c <=? 190))
   || ((192 <=? c) && (c <=? 214)) || ((216 <=? c) && (c <=? 246))
   || ((248 <=? c) && (c <=? 383)))%N.

(** [str.isspace], which is also [\s]. *)
Definition py_is_space (c : codepoint) : bool :=
  (((9 <=? c) && (c <=? 13)) || ((28 <=? c) && (c <=? 32)) || (c =? 133) || (c =? 160)
   || (c =? 5760) || ((8192 <=? c) && (c <=? 8202)) || (c =? 8232) || (c =? 8233)
   || (c =? 8239) || (c =? 8287) || (c =? 12288))%N.

(** ** A regular-expression engine for literal patterns

    [re.compile(source, re.IGNORECASE)] for a source without metacharacters:
    the matches are the occurrences of the source, compared letter by letter
    without regard to case, scanned from left to right without overlap. *)

Definition re_fold (c : codepoint) : codepoint :=
  (if (65 <=? c) && (c <=? 90) then c + 32
   else if (c =? 304) || (c =? 305) then 105
   else if c =? 383 then 115
   else if c =? 8490 then 107
   else c)%N.

Fixpoint literal_scan (p t : str) (pos skip : nat) : list (nat * nat) :=
  match t with
  | [] => match skip, p with
          | O, [] => [(pos, pos)]
          | _, _ => []
          end
  | _ :: t' =>
      match skip with
      | S k => literal_scan p t' (S pos) k
      | O => if starts_with (map re_fold p) (map re_fold t)
             then (pos, (pos + length p)%nat) :: literal_scan p t' (S pos) (length p - 1)
             else literal_scan p t' (S pos) 0
      end
  end.

Definition literal_pattern (source : str) : Pattern :=
  mkPattern (fun text => literal_scan source text 0 0).

Definition literal_compile (source : str) : option Pattern :=
  Some (literal_pattern source).

(** ** A small rule set *)

Definition demo_lexicons : gmap string (list str) :=
  list_to_map
    [ ("outcome_verbs", [u "improve"; u "increase"; u "boost"]);
      ("speed_words", [u "fast"; u "quickly"]);
      ("hedges", [u "may"; u "might"]);
      ("superlatives", [u "best"; u "leading"]);
      ("proof_theater", [u "proven"; u "trusted by"]);
      ("buzzwords", [u "synergy"; u "innovative"]);
      ("mechanism_tokens", [u "by automating"; u "using"]);
      ("values_language", [u "we believe"; u "we value"]) ].

Definition demo_regex : gmap string str :=
  list_to_map
    [ ("number_unit", u "%"); ("timeframe", u "days"); ("baseline", u "compared to");
      ("scope", u "for all"); ("passive", u "was done") ].

Definition demo_penalties : gmap string Z :=
  list_to_map
    [ ("outcome_without_metric", 10); ("speed_without_timeframe", 10);
      ("outcome_without_baseline", 5); ("outcome_without_scope", 5);
      ("proof_implied_no_evidence", 26); ("buzzword_no_mechanism", 15);
      ("outcome_without_mechanism", 5); ("process_no_levers", 10);
      ("passive_voice", 8); ("superlative_unbounded", 12) ].

Definition demo_bonuses : gmap string Z :=
  list_to_map
    [ ("metric_present", 10); ("timeframe_present", 5); ("baseline_present", 10);
      ("mechanism_present", 10); ("scope_present", 5) ].

Definition demo_weights : gmap string (gmap string Z) :=
  list_to_map [ ("penalties", demo_penalties); ("bonuses", demo_bonuses) ].

Definition demo_values_rule : ClassRule :=
  list_to_map
    [ ("requires", ["values_present"]);
      ("forbids", ["metric_present"; "mechanism_present"]) ].

Definition demo_classes : list (string * ClassRule) :=
  [ ("values_non_operational", demo_values_rule) ].

Definition demo_rules : RulesDir :=
  {| lexicons_json := demo_lexicons;
     regex_json := demo_regex;
     weights_json := demo_weights;
     semantic_classes_json := demo_classes |}.

Definition demo_analyzer : Analyzer :=
  {| lex := demo_lexicons;
     wt := demo_weights;
     sc := demo_classes;
     re_number_unit := literal_pattern (u "%");
     re_timeframe := literal_pattern (u "days");
     re_baseline := literal_pattern (u "compared to");
     re_scope := literal_pattern (u "for all");
     re_passive := literal_pattern (u "was done") |}.

(** A class table with a second class declared before
    [values_non_operational]. *)
Definition hype_rule : ClassRule :=
  list_to_map [ ("requires", ["superlative_present"]); ("forbids", []) ].

Definition two_classes : list (string * ClassRule) :=
  [ ("hype", hype_rule); ("values_non_operational", demo_values_rule) ].

Definition two_class_analyzer : Analyzer :=
  {| lex := demo_lexicons;
     wt := demo_weights;
     sc := two_classes;
     re_number_unit := literal_pattern (u "%");
     re_timeframe := literal_pattern (u "days");
     re_baseline := literal_pattern (u "compared to");
     re_scope := literal_pattern (u "for all");
     re_passive := literal_pattern (u "was done") |}.

(** The four flags of an outcome claim with no metric, baseline, scope or
    mechanism. *)
Definition outcome_flag_types : list string :=
  [ "outcome_without_metric"; "outcome_without_baseline"; "outcome_without_scope";
    "outcome_without_mechanism" ].

(** Twenty sentences that score 25 and one that scores 26. *)
Definition demo_text : str :=
  concat (replicate 20 (u "We improve results. ")) ++ u "It is proven.".

(** The small rule set without the lexicon [speed_words], without the table
    [bonuses], and without the pattern [scope]. *)
Definition rules_without_lexicon : RulesDir :=
  with_lexicons_weights demo_rules (delete "speed_words" demo_lexicons) demo_weights.

Definition rules_without_table : RulesDir :=
  with_lexicons_weights demo_rules demo_lexicons (delete "bonuses" demo_weights).

Definition rules_without_pattern : RulesDir :=
  {| lexicons_json := demo_lexicons;
     regex_json := delete "scope" demo_regex;
     weights_json := demo_weights;
     semantic_classes_json := demo_classes |}.

(** What [re] guarantees of the matches of a compiled pattern. *)
Definition pattern_sound (p : Pattern) : Prop :=
  forall text m, m ∈ finditer p text -> (fst m <= snd m)%nat /\ (snd m <= length text)%nat.

(** What a phrase span satisfies in any case: its offsets lie in the
    lowercased text. *)
Definition span_in_lowered (text_l original : str) (sp : Span) : Prop :=
  (sp_start sp <= sp_end sp)%nat /\ (sp_end sp <= length text_l)%nat
  /\ sp_text sp = slice original (sp_start sp) (sp_end sp).

(** A sentence that begins with U+0130 and ends with an outcome verb. *)
Definition dotted_sentence : str := [304%N] ++ u "stanbul sales improve".

(** [analyze_sentence] and [analyze_text] with Python's tables. *)
Definition py_analyze_sentence := analyze_sentence py_lower py_is_word.
Definition py_analyze_text := analyze_text py_lower py_is_word py_is_space.


(** ** Notions for the further properties *)

(** [sep.join(parts)]. *)
Fixpoint join (sep : str) (parts : list str) : str :=
  match parts with
  | [] => []
  | [p] => p
  | p :: parts' => p ++ sep ++ join sep parts'
  end.

(** A text in which every whitespace character is a single U+0020 between
    two other characters; [prev_space] tells that the text follows a
    whitespace character (or nothing). *)
Fixpoint spaced (is_space : codepoint -> bool) (t : str) (prev_space : bool) : bool :=
  match t with
  | [] => negb prev_space
  | c :: t' =>
      if is_space c then negb prev_space && N.eqb c 32 && spaced is_space t' true
      else spaced is_space t' false
  end.

(** The text ends with [.], [!] or [?]. *)
Definition ends_sentence (p : str) : Prop :=
  exists w c, p = w ++ [c] /\ (c = 46 \/ c = 33 \/ c = 63)%N.

(** The text holds no whitespace character that follows [.], [!] or [?]
    ([prev] is the character before the text). *)
Fixpoint unbroken (is_space : codepoint -> bool) (t : str) (prev : option codepoint) : bool :=
  match t with
  | [] => true
  | c :: t' =>
      negb (is_space c && from_option sentence_end false prev)
      && unbroken is_space t' (Some c)
  end.

(** The lexicon behind each phrase feature. *)
Definition lexicon_features : list (string * (Features -> bool)) :=
  [ ("outcome_verbs", outcome_present); ("speed_words", speed_present);
    ("hedges", hedge_present); ("superlatives", superlative_present);
    ("proof_theater", proof_implied); ("buzzwords", buzzword_present);
    ("mechanism_tokens", mechanism_present); ("values_language", values_present) ].

(** The same analyzer with the lexicon [k] replaced. *)
Definition set_lexicon (self : Analyzer) (k : string) (phrases : list str) : Analyzer :=
  {| lex := <[k := phrases]> (lex self);
     wt := wt self;
     sc := sc self;
     re_number_unit := re_number_unit self;
     re_timeframe := re_timeframe self;
     re_baseline := re_baseline self;
     re_scope := re_scope self;
     re_passive := re_passive self |}.

(** Some phrase of the list occurs in the sentence, both lowercased. *)
Definition phrase_occurs (lower : str -> str) (phrases : list str) (s : str) : Prop :=
  exists p i, p ∈ phrases /\ occurs_at (lower s) (lower p) i.

(** The trigger of each penalty rule, read off a feature map; [process] is
    the outcome of the process-word search. *)
Definition flag_conditions (f : Features) (process : bool) : list (string * bool) :=
  [ ("outcome_without_metric", outcome_present f && negb (metric_present f));
    ("speed_without_timeframe", speed_present f && negb (timeframe_present f));
    ("outcome_without_baseline", outcome_present f && negb (baseline_present f));
    ("outcome_without_scope", outcome_present f && negb (scope_present f));
    ("proof_implied_no_evidence", proof_implied f);
    ("buzzword_no_mechanism", buzzword_present f && negb (mechanism_present f));
    ("outcome_without_mechanism", outcome_present f && negb (mechanism_present f));
    ("process_no_levers", process && negb (mechanism_present f));
    ("passive_voice", passive_present f);
    ("superlative_unbounded", superlative_present f && negb (metric_present f)) ].

(** The thirteen keys of the feature map. *)
Definition feature_names : list string :=
  [ "outcome_present"; "speed_present"; "hedge_present"; "superlative_present";
    "proof_implied"; "buzzword_present"; "mechanism_present"; "values_present";
    "metric_present"; "timeframe_present"; "baseline_present"; "scope_present";
    "passive_present" ].

(** The four labels of a document that has sentences. *)
Definition document_labels : list string :=
  [ "Solid / operational"; "Soft marketing"; "High BS risk"; "Persuasion fog" ].

(** The pattern that [re.compile] makes of the source stored under [k]. *)
Definition compiled (re_compile : str -> option Pattern) (rx : gmap string str)
    (k : string) (p : Pattern) : Prop :=
  exists source, rx !! k = Some source /\ re_compile source = Some p.

(** A class table whose [requires] list misspells a feature name. *)
Definition misspelt_rule : ClassRule :=
  list_to_map [ ("requires", ["values_presnt"]); ("forbids", []) ].

Definition misspelt_classes : list (string * ClassRule) :=
  [ ("values_non_operational", misspelt_rule) ].

(** * Properties *)

(** ** The result monad *)

Lemma bind_Ok {A B} (m : result A) (f : A -> result B) (b : B) :
  m ≫= f = Ok b -> exists a, m = Ok a /\ f a = Ok b.
Proof. destruct m as [a|e]; simpl; [eauto | discriminate]. Qed.

Lemma bind_Ok_l {A B} (m : result A) (f : A -> result B) (a : A) :
  m = Ok a -> m ≫= f = f a.
Proof. intros ->. reflexivity. Qed.

Lemma bind_Err_l {A B} (m : result A) (f : A -> result B) (e : error) :
  m = Err e -> m ≫= f = Err e.
Proof. intros ->. reflexivity. Qed.

Lemma getitem_Ok {V} (d : gmap string V) (k : string) (v : V) :
  getitem d k = Ok v <-> d !! k = Some v.
Proof. unfold getitem. destruct (d !! k); split; congruence. Qed.

Lemma getitem_missing {V} (d : gmap string V) (k : string) :
  d !! k = None -> getitem d k = Err (KeyError k).
Proof. unfold getitem. intros ->. reflexivity. Qed.

(** Peel the binds of a computation that is known to succeed. *)
Ltac invert_binds :=
  repeat match goal with
         | H : _ ≫= _ = Ok _ |- _ =>
             let x := fresh "x" in
             let Hx := fresh "Hx" in
             apply bind_Ok in H; destruct H as (x & Hx & H)
         end.

(** ** [str.find] *)

Lemma starts_with_spec (p t : str) :
  starts_with p t = true <-> (length p <= length t)%nat /\ firstn (length p) t = p.
Proof.
  revert t. induction p as [|a p IH]; intros t; simpl.
  - split; [intros _; split; [lia | reflexivity] | reflexivity].
  - destruct t as [|b t]; simpl.
    + split; [discriminate | intros [Hlen _]; lia].
    + rewrite andb_true_iff, N.eqb_eq, IH. split.
      * intros [-> [Hlen Heq]]. split; [lia | congruence].
      * intros [Hlen Heq]. injection Heq as -> Heq. repeat split; [lia | assumption].
Qed.

Lemma starts_with_occurs (t p : str) (i : nat) :
  (i <= length t)%nat ->
  starts_with p (skipn i t) = true <-> occurs_at t p i.
Proof.
  intros Hi. unfold occurs_at. rewrite starts_with_spec, length_drop.
  split; intros [Hlen Heq]; (split; [lia | assumption]).
Qed.

Lemma find_in_Some (p t : str) (pos i : nat) :
  find_in p t pos = Some i ->
  exists k, i = (pos + k)%nat /\ (k <= length t)%nat
            /\ starts_with p (skipn k t) = true
            /\ forall j, (j < k)%nat -> starts_with p (skipn j t) = false.
Proof.
  revert pos. induction t as [|c t IH]; intros pos; simpl.
  - destruct (starts_with p []) eqn:Hs; [|discriminate].
    intros [= <-]. exists 0%nat. repeat split; [lia | lia | assumption | lia].
  - destruct (starts_with p (c :: t)) eqn:Hs.
    + intros [= <-]. exists 0%nat. repeat split; [lia | lia | assumption | lia].
    + intros H. apply IH in H as (k & -> & Hk & Hm & Hbefore).
      exists (S k). repeat split; [lia | lia | assumption |].
      intros [|j] Hj; [assumption | apply Hbefore; lia].
Qed.

Lemma find_in_None (p t : str) (pos : nat) :
  find_in p t pos = None ->
  forall k, (k <= length t)%nat -> starts_with p (skipn k t) = false.
Proof.
  revert pos. induction t as [|c t IH]; intros pos; simpl.
  - destruct (starts_with p []) eqn:Hs; [discriminate|].
    intros _ k Hk. assert (k = 0)%nat as -> by lia. assumption.
  - destruct (starts_with p (c :: t)) eqn:Hs; [discriminate|].
    intros H [|k] Hk; [assumption|]. simpl. apply (IH _ H). lia.
Qed.

(** A found index is the leftmost occurrence at or after [start]. *)
Lemma find_Some (t p : str) (start i : nat) :
  find t p start = Some i ->
  (start <= i)%nat /\ occurs_at t p i
  /\ forall j, (start <= j < i)%nat -> ~ occurs_at t p j.
Proof.
  unfold find. destruct (start <=? length t)%nat eqn:Hle; [|discriminate].
  apply Nat.leb_le in Hle. intros H.
  apply find_in_Some in H as (k & -> & Hk & Hm & Hbefore).
  rewrite length_drop in Hk. rewrite drop_drop in Hm.
  split; [lia|]. split.
  - apply starts_with_occurs; [lia | assumption].
  - intros j Hj Hocc. apply starts_with_occurs in Hocc; [|lia].
    specialize (Hbefore (j - start)%nat). rewrite drop_drop in Hbefore.
    replace (start + (j - start))%nat with j in Hbefore by lia.
    rewrite Hbefore in Hocc; [discriminate | lia].
Qed.

(** The result [-1]: there is no occurrence at or after [start]. *)
Lemma find_None (t p : str) (start : nat) :
  find t p start = None -> forall i, (start <= i)%nat -> ~ occurs_at t p i.
Proof.
  unfold find. intros H i Hi Hocc.
  assert (i <= length t)%nat as Hlen by (destruct Hocc; lia).
  destruct (start <=? length t)%nat eqn:Hle.
  - apply starts_with_occurs in Hocc; [|assumption].
    pose proof (find_in_None _ _ _ H (i - start)%nat) as Hn.
    rewrite length_drop, drop_drop in Hn.
    replace (start + (i - start))%nat with i in Hn by lia.
    rewrite Hn in Hocc; [discriminate | lia].
  - apply Nat.leb_gt in Hle. lia.
Qed.

(** ** The scan of one phrase and of a phrase list *)

Lemma scan_occurrences_unique (t p : str) (start : nat) (l1 l2 : list nat) :
  scan_occurrences t p start l1 -> scan_occurrences t p start l2 -> l1 = l2.
Proof.
  intros H1. revert l2. induction H1 as [start Hno|start i rest Hle Hocc Hfirst Hrest IH];
    intros l2 H2; inversion H2 as [? Hno2|? i2 rest2 Hle2 Hocc2 Hfirst2 Hrest2]; subst.
  - reflexivity.
  - exfalso. exact (Hno i2 Hle2 Hocc2).
  - exfalso. exact (Hno2 i Hle Hocc).
  - assert (i = i2) as <-.
    { destruct (Nat.lt_trichotomy i i2) as [Hlt | [Heq | Hgt]]; [|assumption|].
      - exfalso. apply (Hfirst2 i); [lia | assumption].
      - exfalso. apply (Hfirst i2); [lia | assumption]. }
    f_equal. apply IH. assumption.
Qed.

Section ScanProperties.
Variable lower : str -> str.

(** With a non-empty phrase the loop ends within [len(text_l) + 1]
    iterations, and what it appends are the spans of the scan. *)
Lemma scan_phrase_spec (fuel : nat) (text_l p_l original : str) (start : nat)
    (spans : list Span) :
  p_l <> [] ->
  (length text_l - start < fuel)%nat ->
  exists occs,
    scan_occurrences text_l p_l start occs
    /\ scan_phrase fuel text_l p_l original start spans
       = Ok (spans ++ map (span_at original (length p_l)) occs).
Proof.
  intros Hne. revert start spans.
  induction fuel as [|fuel IH]; intros start spans Hfuel; simpl.
  - lia.
  - destruct (find text_l p_l start) as [idx|] eqn:Hfind.
    + apply find_Some in Hfind as (Hle & Hocc & Hfirst).
      assert (0 < length p_l)%nat by (destruct p_l; [congruence | simpl; lia]).
      assert (idx + length p_l <= length text_l)%nat by (destruct Hocc; assumption).
      destruct (IH (idx + length p_l)%nat
                  (spans ++ [mkSpan idx (idx + length p_l)
                               (slice original idx (idx + length p_l))]))
        as (occs & Hocc' & Heq); [lia|].
      exists (idx :: occs). split.
      * econstructor; eassumption.
      * rewrite Heq. simpl. rewrite <- app_assoc. reflexivity.
    + exists []. split.
      * constructor. exact (find_None _ _ _ Hfind).
      * simpl. rewrite app_nil_r. reflexivity.
Qed.

(** With the empty phrase the loop never ends. *)
Lemma scan_phrase_empty (fuel : nat) (text_l original : str) (start : nat)
    (spans : list Span) :
  (start <= length text_l)%nat ->
  scan_phrase fuel text_l [] original start spans = Err OutOfFuel.
Proof.
  revert spans. induction fuel as [|fuel IH]; intros spans Hstart; simpl.
  - reflexivity.
  - unfold find. apply Nat.leb_le in Hstart as Hle. rewrite Hle.
    destruct (skipn start text_l); simpl; rewrite Nat.add_0_r; apply IH; assumption.
Qed.

Lemma phrases_loop_spec (fuel : nat) (text_l : str) (phrases : list str)
    (original : str) (spans : list Span) :
  Forall (fun p => lower p <> []) phrases ->
  (length text_l < fuel)%nat ->
  exists occs,
    Forall2 (fun p o => scan_occurrences text_l (lower p) 0 o) phrases occs
    /\ phrases_loop lower fuel text_l phrases original spans
       = Ok (spans ++ concat (zip_with
               (fun p o => map (span_at original (length (lower p))) o)
               phrases occs)).
Proof.
  intros Hphr Hfuel. revert spans.
  induction Hphr as [|p phrases Hp Hphr IH]; intros spans; simpl.
  - exists []. split; [constructor | rewrite app_nil_r; reflexivity].
  - destruct (scan_phrase_spec fuel text_l (lower p) original 0 spans Hp)
      as (o & Ho & Heq); [lia|].
    rewrite Heq. simpl.
    destruct (IH (spans ++ map (span_at original (length (lower p))) o))
      as (occs & Hoccs & Heq').
    exists (o :: occs). split; [constructor; assumption|].
    rewrite Heq'. simpl. rewrite <- app_assoc. reflexivity.
Qed.
End ScanProperties.

(** ** Penalty and bonus accumulation *)

Lemma fired_cons (r : Rule) (rules : list Rule) :
  fired (r :: rules) = if r_trigger r then r :: fired rules else fired rules.
Proof.
  unfold fired. destruct (r_trigger r) eqn:Hr.
  - rewrite filter_cons_True; [reflexivity | rewrite Hr; exact I].
  - rewrite filter_cons_False; [reflexivity | rewrite Hr; exact id].
Qed.

Lemma granted_cons (b : bool) (k : string) (rules : list (bool * string)) :
  granted ((b, k) :: rules) = if b then k :: granted rules else granted rules.
Proof.
  unfold granted. destruct b.
  - rewrite filter_cons_True; [reflexivity | exact I].
  - rewrite filter_cons_False; [reflexivity | exact id].
Qed.

Lemma sum_app (l1 l2 : list Z) : sum (l1 ++ l2) = sum l1 + sum l2.
Proof. unfold sum. induction l1 as [|x l1 IH]; simpl; [reflexivity | lia]. Qed.

(** When every triggered rule has a weight, the blocks add those weights and
    append one flag per triggered rule, in order. *)
Lemma apply_rules_fired (P : gmap string Z) (rules : list Rule) (pen : Z) (fl : list Flag) :
  Forall (fun r => is_Some (P !! r_type r)) (fired rules) ->
  apply_rules P rules pen fl
  = Ok (pen + sum (map (fun r => weight P (r_type r)) (fired rules)),
        fl ++ map flag_of (fired rules)).
Proof.
  revert pen fl. induction rules as [|r rules IH]; intros pen fl; simpl.
  - intros _. rewrite Z.add_0_r, app_nil_r. reflexivity.
  - rewrite fired_cons. destruct (r_trigger r).
    + intros Hall. apply Forall_cons in Hall as [[w Hw] Hall].
      unfold getitem. rewrite Hw. simpl. rewrite IH by assumption.
      unfold weight at 2. rewrite Hw. simpl. rewrite <- app_assoc. do 2 f_equal. lia.
    + apply IH.
Qed.

(** Otherwise the first triggered rule without a weight raises [KeyError]. *)
Lemma apply_rules_Ok_inv (P : gmap string Z) (rules : list Rule) (pen : Z) (fl : list Flag)
    (res : Z * list Flag) :
  apply_rules P rules pen fl = Ok res ->
  Forall (fun r => is_Some (P !! r_type r)) (fired rules).
Proof.
  revert pen fl. induction rules as [|r rules IH]; intros pen fl; simpl.
  - intros _. constructor.
  - rewrite fired_cons. destruct (r_trigger r); [|apply IH].
    unfold getitem. destruct (P !! r_type r) as [w|] eqn:Hw; simpl; [|discriminate].
    intros H. constructor; [eauto | eapply IH; eassumption].
Qed.

Lemma apply_rules_Err (P : gmap string Z) (rules : list Rule) (pen : Z) (fl : list Flag)
    (e : error) :
  apply_rules P rules pen fl = Err e ->
  exists r, r ∈ fired rules /\ P !! r_type r = None /\ e = KeyError (r_type r).
Proof.
  revert pen fl. induction rules as [|r rules IH]; intros pen fl; simpl.
  - discriminate.
  - rewrite fired_cons. destruct (r_trigger r).
    + unfold getitem. destruct (P !! r_type r) as [w|] eqn:Hw; simpl.
      * intros H. apply IH in H as (r' & Hin & Hr'). exists r'.
        split; [right; assumption | assumption].
      * intros [= <-]. exists r. split; [left | split; [assumption | reflexivity]].
    + apply IH.
Qed.

Lemma apply_bonuses_granted (B : gmap string Z) (rules : list (bool * string)) (bon : Z) :
  Forall (fun k => is_Some (B !! k)) (granted rules) ->
  apply_bonuses B rules bon = Ok (bon + sum (map (weight B) (granted rules))).
Proof.
  revert bon. induction rules as [|[b k] rules IH]; intros bon; simpl.
  - intros _. rewrite Z.add_0_r. reflexivity.
  - rewrite granted_cons. destruct b.
    + intros Hall. apply Forall_cons in Hall as [[w Hw] Hall].
      unfold getitem. rewrite Hw. simpl. rewrite IH by assumption.
      unfold weight at 2. rewrite Hw. simpl. f_equal. lia.
    + apply IH.
Qed.

Lemma apply_bonuses_Ok_inv (B : gmap string Z) (rules : list (bool * string)) (bon res : Z) :
  apply_bonuses B rules bon = Ok res ->
  Forall (fun k => is_Some (B !! k)) (granted rules).
Proof.
  revert bon. induction rules as [|[b k] rules IH]; intros bon; simpl.
  - intros _. constructor.
  - rewrite granted_cons. destruct b; [|apply IH].
    unfold getitem. destruct (B !! k) as [w|] eqn:Hw; simpl; [|discriminate].
    intros H. constructor; [eauto | eapply IH; eassumption].
Qed.

Lemma filter_ext_elem {A} (P Q : A -> Prop) `{forall x, Decision (P x)}
    `{forall x, Decision (Q x)} (l : list A) :
  (forall x, x ∈ l -> P x <-> Q x) -> filter P l = filter Q l.
Proof.
  induction l as [|x l IH]; intros Hext; [reflexivity|].
  assert (filter P l = filter Q l) as IH'.
  { apply IH. intros y Hy. apply Hext. right. assumption. }
  destruct (decide (P x)) as [HP|HP].
  - rewrite !filter_cons_True; [congruence | apply Hext; [left | assumption] | assumption].
  - rewrite !filter_cons_False; [assumption | | assumption].
    intros HQ. apply HP. apply Hext; [left | assumption].
Qed.

(** The rules that fired are told by the flag types, as the rule names are
    pairwise distinct. *)
Lemma fired_types_filter (rules : list Rule) :
  NoDup (map r_type rules) ->
  filter (fun k => k ∈ map r_type (fired rules)) (map r_type rules)
  = map r_type (fired rules).
Proof.
  induction rules as [|r rules IH]; simpl; [reflexivity|].
  intros Hnd. apply NoDup_cons in Hnd as [Hnotin Hnd].
  assert (forall keys : list string,
             filter (fun k => k ∈ keys) (map r_type rules)
             = filter (fun k => k ∈ r_type r :: keys) (map r_type rules)) as Hext.
  { intros keys. apply filter_ext_elem. intros k Hk. split.
    - intros Hin. right. assumption.
    - intros Hin. apply elem_of_cons in Hin as [-> | Hin]; [contradiction | assumption]. }
  rewrite fired_cons. destruct (r_trigger r); simpl.
  - rewrite filter_cons_True by left. f_equal. rewrite <- Hext. apply IH. assumption.
  - rewrite filter_cons_False.
    + apply IH. assumption.
    + intros Hin. apply Hnotin. apply list_elem_of_fmap in Hin as (r' & -> & Hin).
      apply list_elem_of_fmap. exists r'. split; [reflexivity|].
      unfold fired in Hin. apply list_elem_of_filter in Hin as [_ Hin]. assumption.
Qed.

(** ** One sentence *)

Lemma penalty_rule_types (is_word : codepoint -> bool) (f : Features) (sp : SpanSets)
    (s s_l : str) :
  map r_type (penalty_rules is_word f sp s s_l) = penalty_keys.
Proof. reflexivity. Qed.

Lemma bonus_rule_names (f : Features) : map snd (bonus_rules f) = bonus_keys.
Proof. reflexivity. Qed.

Lemma penalty_keys_NoDup : NoDup penalty_keys.
Proof. apply (bool_decide_unpack (NoDup penalty_keys)). vm_compute. exact I. Qed.

Lemma fired_types_sublist (rules : list Rule) (k : string) :
  k ∈ map r_type (fired rules) -> k ∈ map r_type rules.
Proof.
  intros Hin. apply list_elem_of_fmap in Hin as (r & -> & Hin).
  apply list_elem_of_fmap. exists r. split; [reflexivity|].
  unfold fired in Hin. apply list_elem_of_filter in Hin as [_ Hin]. assumption.
Qed.

Lemma granted_sublist (rules : list (bool * string)) (k : string) :
  k ∈ granted rules -> k ∈ map snd rules.
Proof.
  unfold granted. intros Hin. apply list_elem_of_fmap in Hin as (r & -> & Hin).
  apply list_elem_of_fmap. exists r. split; [reflexivity|].
  apply list_elem_of_filter in Hin as [_ Hin]. assumption.
Qed.

Section SentenceProperties.
Variable lower : str -> str.
Variable is_word : codepoint -> bool.

Lemma valid_lexicons_lookup (lex : gmap string (list str)) (k : string) :
  valid_lexicons lower lex = true ->
  In k lexicon_keys ->
  exists phrases, lex !! k = Some phrases /\ Forall (fun p => lower p <> []) phrases.
Proof.
  unfold valid_lexicons. rewrite forallb_forall. intros Hall Hk.
  specialize (Hall k Hk). destruct (lex !! k) as [phrases|]; [|discriminate].
  exists phrases. split; [reflexivity|].
  rewrite forallb_forall in Hall. apply List.Forall_forall.
  intros p Hp Hempty. specialize (Hall p Hp). rewrite Hempty in Hall. discriminate.
Qed.

Lemma lexicon_spans_total (self : Analyzer) (fuel : nat) (s_l s : str) (k : string) :
  valid_lexicons lower (lex self) = true ->
  In k lexicon_keys ->
  (length s_l < fuel)%nat ->
  exists spans, lexicon_spans lower self fuel s_l k s = Ok spans.
Proof.
  intros Hvalid Hk Hfuel.
  destruct (valid_lexicons_lookup _ _ Hvalid Hk) as (phrases & Hlook & Hphr).
  unfold lexicon_spans, getitem. rewrite Hlook. simpl.
  destruct (phrases_loop_spec lower fuel s_l phrases s [] Hphr Hfuel) as (occs & _ & Heq).
  unfold find_phrase_spans. rewrite Heq. eauto.
Qed.

Lemma match_spans_total (self : Analyzer) (fuel : nat) (s_l s : str) :
  valid_lexicons lower (lex self) = true ->
  (length s_l < fuel)%nat ->
  exists sp, match_spans lower self fuel s_l s = Ok sp.
Proof.
  intros Hvalid Hfuel. unfold match_spans.
  repeat match goal with
         | |- context [lexicon_spans lower self fuel s_l ?k s] =>
             let spans := fresh "spans" in
             let H := fresh "H" in
             destruct (lexicon_spans_total self fuel s_l s k Hvalid) as [spans H];
             [simpl; tauto | assumption | rewrite H; simpl]
         end.
  eauto.
Qed.

Lemma classify_total (sc : list (string * ClassRule)) (f : Features) :
  valid_classes sc = true -> exists cls, classify sc f = Ok cls.
Proof.
  unfold valid_classes, classify.
  destruct (assoc_get sc "values_non_operational") as [rule|]; [|eauto].
  destruct (bool_decide (rule = ∅)); simpl; [eauto|].
  rewrite andb_true_iff. intros [Hreq Hforb].
  apply bool_decide_eq_true in Hreq as [req Hreq].
  apply bool_decide_eq_true in Hforb as [forb Hforb].
  unfold getitem. rewrite Hreq, Hforb. simpl.
  destruct (forallb _ req); [|eauto]. destruct (forallb _ forb); eauto.
Qed.

(** The class is decided by the entry [values_non_operational] alone. *)
Lemma classify_Ok (sc : list (string * ClassRule)) (f : Features) (cls : string) :
  classify sc f = Ok cls ->
  cls = if values_class_applies sc f then "values_non_operational"
        else "operational_or_mixed".
Proof.
  unfold classify, values_class_applies, class_matches.
  destruct (assoc_get sc "values_non_operational") as [rule|]; [|congruence].
  destruct (bool_decide (rule = ∅)); simpl; [congruence|].
  unfold getitem. destruct (rule !! "requires") as [req|]; simpl; [|discriminate].
  destruct (forallb _ req); simpl; [|congruence].
  destruct (rule !! "forbids") as [forb|]; simpl; [|discriminate].
  destruct (forallb _ forb); congruence.
Qed.

Lemma valid_weights_tables (wt : gmap string (gmap string Z)) :
  valid_weights wt = true ->
  exists P B, wt !! "penalties" = Some P /\ wt !! "bonuses" = Some B
              /\ (forall k, k ∈ penalty_keys -> is_Some (P !! k))
              /\ (forall k, k ∈ bonus_keys -> is_Some (B !! k)).
Proof.
  unfold valid_weights.
  destruct (wt !! "penalties") as [P|]; [|discriminate].
  destruct (wt !! "bonuses") as [B|]; [|discriminate].
  rewrite andb_true_iff, !forallb_forall. intros [HP HB].
  exists P, B. repeat split.
  - intros k Hk. apply list_elem_of_In in Hk. apply HP in Hk.
    apply bool_decide_eq_true in Hk. assumption.
  - intros k Hk. apply list_elem_of_In in Hk. apply HB in Hk.
    apply bool_decide_eq_true in Hk. assumption.
Qed.

(** What a successful call went through, and what it returns. *)
Lemma analyze_sentence_Ok_inv (self : Analyzer) (fuel : nat) (s : str)
    (r : SentenceAnalysis) :
  analyze_sentence lower is_word self fuel s = Ok r ->
  exists sp cls P B,
    match_spans lower self fuel (lower s) s = Ok sp
    /\ classify (sc self) (features_of sp) = Ok cls
    /\ wt self !! "penalties" = Some P
    /\ wt self !! "bonuses" = Some B
    /\ Forall (fun r => is_Some (P !! r_type r))
              (fired (penalty_rules is_word (features_of sp) sp s (lower s)))
    /\ Forall (fun k => is_Some (B !! k)) (granted (bonus_rules (features_of sp)))
    /\ r = analysis_of is_word s (lower s) sp cls P B.
Proof.
  unfold analyze_sentence. intros H. invert_binds.
  rename x into sp, x0 into cls, x1 into P, x2 into B, x3 into scored, x4 into bon.
  apply getitem_Ok in Hx1, Hx2.
  pose proof (apply_rules_Ok_inv _ _ _ _ _ Hx3) as Hfired.
  pose proof (apply_bonuses_Ok_inv _ _ _ _ Hx4) as Hgranted.
  rewrite apply_rules_fired in Hx3 by assumption.
  rewrite apply_bonuses_granted in Hx4 by assumption.
  injection Hx3 as <-. injection Hx4 as <-. injection H as <-.
  exists sp, cls, P, B. repeat split; try assumption.
Qed.

Lemma analyze_sentence_run (self : Analyzer) (fuel : nat) (s : str)
    (sp : SpanSets) (cls : string) (P B : gmap string Z) :
  match_spans lower self fuel (lower s) s = Ok sp ->
  classify (sc self) (features_of sp) = Ok cls ->
  wt self !! "penalties" = Some P ->
  wt self !! "bonuses" = Some B ->
  Forall (fun r => is_Some (P !! r_type r))
         (fired (penalty_rules is_word (features_of sp) sp s (lower s))) ->
  Forall (fun k => is_Some (B !! k)) (granted (bonus_rules (features_of sp))) ->
  analyze_sentence lower is_word self fuel s
  = Ok (analysis_of is_word s (lower s) sp cls P B).
Proof.
  intros Hsp Hcls HP HB Hfired Hgranted. unfold analyze_sentence.
  apply getitem_Ok in HP, HB.
  rewrite (bind_Ok_l _ _ _ Hsp), (bind_Ok_l _ _ _ Hcls).
  rewrite (bind_Ok_l _ _ _ HP), (bind_Ok_l _ _ _ HB).
  rewrite (bind_Ok_l _ _ _ (apply_rules_fired _ _ _ _ Hfired)).
  rewrite (bind_Ok_l _ _ _ (apply_bonuses_granted _ _ _ Hgranted)).
  reflexivity.
Qed.

(** On a valid configuration every sentence is analysed. *)
Lemma analyze_sentence_total (self : Analyzer) (fuel : nat) (s : str) :
  valid_config lower self = true ->
  (length (lower s) < fuel)%nat ->
  exists sp cls P B,
    wt self !! "penalties" = Some P /\ wt self !! "bonuses" = Some B
    /\ analyze_sentence lower is_word self fuel s
       = Ok (analysis_of is_word s (lower s) sp cls P B).
Proof.
  unfold valid_config. rewrite !andb_true_iff. intros [[Hlex Hwt] Hsc] Hfuel.
  destruct (match_spans_total self fuel (lower s) s Hlex Hfuel) as [sp Hsp].
  destruct (classify_total (sc self) (features_of sp) Hsc) as [cls Hcls].
  destruct (valid_weights_tables _ Hwt) as (P & B & HP & HB & HPk & HBk).
  exists sp, cls, P, B. split; [assumption|]. split; [assumption|].
  apply analyze_sentence_run; try assumption.
  - apply Forall_forall. intros r Hr. apply HPk.
    rewrite <- (penalty_rule_types is_word (features_of sp) sp s (lower s)).
    apply fired_types_sublist. apply list_elem_of_fmap. eauto.
  - apply Forall_forall. intros k Hk. apply HBk.
    rewrite <- (bonus_rule_names (features_of sp)). apply granted_sublist. assumption.
Qed.
End SentenceProperties.

(** ** Score and class of one sentence *)

Lemma max_min_clamp (x : Z) : Z.max 0 (Z.min 100 x) = clamp x 0 100.
Proof.
  unfold clamp. destruct (x <? 0) eqn:Hlo; [apply Z.ltb_lt in Hlo; lia|].
  apply Z.ltb_ge in Hlo. destruct (100 <? x) eqn:Hhi.
  - apply Z.ltb_lt in Hhi. lia.
  - apply Z.ltb_ge in Hhi. lia.
Qed.

(** Whatever the configuration, a returned analysis has its total score
    clamped. *)
Lemma total_score_of_result (lower : str -> str) (is_word : codepoint -> bool)
    (self : Analyzer) (fuel : nat) (s : str) (r : SentenceAnalysis) :
  analyze_sentence lower is_word self fuel s = Ok r ->
  0 <= total_score r <= 100
  /\ total_score r
     = clamp (penalties (score_breakdown r) - bonus (score_breakdown r)) 0 100.
Proof.
  intros H. apply analyze_sentence_Ok_inv in H
    as (sp & cls & P & B & _ & _ & _ & _ & _ & _ & ->).
  simpl. split; [lia | apply max_min_clamp].
Qed.

(** C1: on a valid rule configuration every sentence is analysed, and the
    [total_score] of the result lies between 0 and 100 and is
    [clamp(penalties - bonus, 0, 100)] for the [penalties] and [bonus] of its
    [score_breakdown]. *)
Theorem total_score_clamped (lower : str -> str) (is_word : codepoint -> bool)
    (self : Analyzer) (fuel : nat) (s : str) :
  valid_config lower self = true ->
  (length (lower s) < fuel)%nat ->
  exists r,
    analyze_sentence lower is_word self fuel s = Ok r
    /\ 0 <= total_score r <= 100
    /\ total_score r
       = clamp (penalties (score_breakdown r) - bonus (score_breakdown r)) 0 100.
Proof.
  intros Hvalid Hfuel.
  destruct (analyze_sentence_total lower is_word self fuel s Hvalid Hfuel)
    as (sp & cls & P & B & _ & _ & Hrun).
  eexists. split; [exact Hrun|].
  exact (total_score_of_result lower is_word self fuel s _ Hrun).
Qed.

Lemma total_score_clamped_witness :
  exists r,
    py_analyze_sentence demo_analyzer 64 (u "We improve results with proven methods.") = Ok r
    /\ 0 <= total_score r <= 100
    /\ total_score r
       = clamp (penalties (score_breakdown r) - bonus (score_breakdown r)) 0 100.
Proof.
  apply (total_score_clamped py_lower py_is_word demo_analyzer 64
           (u "We improve results with proven methods.")).
  - vm_compute. reflexivity.
  - vm_compute. lia.
Defined.

(** Whatever the configuration, a returned analysis has the sums of the
    weights of its flags and of its true bonus features. *)
Lemma score_breakdown_of_result (lower : str -> str) (is_word : codepoint -> bool)
    (self : Analyzer) (fuel : nat) (s : str) (r : SentenceAnalysis) :
  analyze_sentence lower is_word self fuel s = Ok r ->
  exists P B,
    wt self !! "penalties" = Some P
    /\ wt self !! "bonuses" = Some B
    /\ (forall k, k ∈ map fl_type (flags r) -> k ∈ penalty_keys /\ is_Some (P !! k))
    /\ NoDup (map fl_type (flags r))
    /\ penalties (score_breakdown r)
       = sum (map (weight P)
                (filter (fun k => k ∈ map fl_type (flags r)) penalty_keys))
    /\ (forall k, k ∈ granted (bonus_rules (features r)) -> is_Some (B !! k))
    /\ bonus (score_breakdown r)
       = sum (map (weight B)
                (granted [ (metric_present (features r), "metric_present");
                           (timeframe_present (features r), "timeframe_present");
                           (baseline_present (features r), "baseline_present");
                           (mechanism_present (features r), "mechanism_present");
                           (scope_present (features r), "scope_present") ])).
Proof.
  intros H. apply analyze_sentence_Ok_inv in H
    as (sp & cls & P & B & _ & _ & HP & HB & Hfired & Hgranted & ->).
  exists P, B. split; [assumption|]. split; [assumption|].
  unfold analysis_of. cbn [flags features score_breakdown penalties bonus].
  set (rules := penalty_rules is_word (features_of sp) sp s (lower s)) in *.
  assert (map fl_type (map flag_of (fired rules)) = map r_type (fired rules)) as Htypes.
  { rewrite map_map. reflexivity. }
  assert (map r_type rules = penalty_keys) as Hkeys by reflexivity.
  rewrite Htypes. split; [|split; [|split; [|split]]].
  - intros k Hk. split.
    + rewrite <- Hkeys. apply fired_types_sublist. assumption.
    + apply list_elem_of_fmap in Hk as (rule & -> & Hrule).
      rewrite Forall_forall in Hfired. apply Hfired. assumption.
  - rewrite <- fired_types_filter by (rewrite Hkeys; apply penalty_keys_NoDup).
    apply NoDup_filter. rewrite Hkeys. apply penalty_keys_NoDup.
  - rewrite <- Hkeys. rewrite fired_types_filter.
    + rewrite map_map. reflexivity.
    + rewrite Hkeys. apply penalty_keys_NoDup.
  - intros k Hk. rewrite Forall_forall in Hgranted. apply Hgranted. assumption.
  - reflexivity.
Qed.

(** C9: on a valid rule configuration every sentence is analysed, and in the
    result [penalties] is the sum of the configured penalty weights of exactly
    the rules whose type appears in the flag list (no type appears twice),
    and [bonus] the sum of the configured bonus weights of exactly those of
    [metric_present], [timeframe_present], [baseline_present],
    [mechanism_present] and [scope_present] that are true in the feature
    map. *)
Theorem score_breakdown_sums (lower : str -> str) (is_word : codepoint -> bool)
    (self : Analyzer) (fuel : nat) (s : str) :
  valid_config lower self = true ->
  (length (lower s) < fuel)%nat ->
  exists r P B,
    analyze_sentence lower is_word self fuel s = Ok r
    /\ wt self !! "penalties" = Some P
    /\ wt self !! "bonuses" = Some B
    /\ (forall k, k ∈ map fl_type (flags r) -> k ∈ penalty_keys /\ is_Some (P !! k))
    /\ NoDup (map fl_type (flags r))
    /\ penalties (score_breakdown r)
       = sum (map (weight P)
                (filter (fun k => k ∈ map fl_type (flags r)) penalty_keys))
    /\ (forall k, k ∈ granted (bonus_rules (features r)) -> is_Some (B !! k))
    /\ bonus (score_breakdown r)
       = sum (map (weight B)
                (granted [ (metric_present (features r), "metric_present");
                           (timeframe_present (features r), "timeframe_present");
                           (baseline_present (features r), "baseline_present");
                           (mechanism_present (features r), "mechanism_present");
                           (scope_present (features r), "scope_present") ])).
Proof.
  intros Hvalid Hfuel.
  destruct (analyze_sentence_total lower is_word self fuel s Hvalid Hfuel)
    as (sp & cls & P0 & B0 & _ & _ & Hrun).
  destruct (score_breakdown_of_result lower is_word self fuel s _ Hrun)
    as (P & B & Hsums).
  eexists. exists P, B. split; [exact Hrun | exact Hsums].
Qed.

Lemma score_breakdown_sums_witness :
  exists r P B,
    py_analyze_sentence demo_analyzer 64
      (u "We boost sales 30% in 90 days using proven playbooks.") = Ok r
    /\ wt demo_analyzer !! "penalties" = Some P
    /\ wt demo_analyzer !! "bonuses" = Some B
    /\ (forall k, k ∈ map fl_type (flags r) -> k ∈ penalty_keys /\ is_Some (P !! k))
    /\ NoDup (map fl_type (flags r))
    /\ penalties (score_breakdown r)
       = sum (map (weight P)
                (filter (fun k => k ∈ map fl_type (flags r)) penalty_keys))
    /\ (forall k, k ∈ granted (bonus_rules (features r)) -> is_Some (B !! k))
    /\ bonus (score_breakdown r)
       = sum (map (weight B)
                (granted [ (metric_present (features r), "metric_present");
                           (timeframe_present (features r), "timeframe_present");
                           (baseline_present (features r), "baseline_present");
                           (mechanism_present (features r), "mechanism_present");
                           (scope_present (features r), "scope_present") ])).
Proof.
  apply (score_breakdown_sums py_lower py_is_word demo_analyzer 64
           (u "We boost sales 30% in 90 days using proven playbooks.")).
  - vm_compute. reflexivity.
  - vm_compute. lia.
Defined.

(** C10: whatever the rule configuration, also one whose class table defines
    further class names, the [semantic_class] of a returned analysis is
    ["operational_or_mixed"] or ["values_non_operational"]. *)
Theorem semantic_class_two_values (lower : str -> str) (is_word : codepoint -> bool)
    (self : Analyzer) (fuel : nat) (s : str) (r : SentenceAnalysis) :
  analyze_sentence lower is_word self fuel s = Ok r ->
  semantic_class r = "operational_or_mixed"
  \/ semantic_class r = "values_non_operational".
Proof.
  intros H. apply analyze_sentence_Ok_inv in H
    as (sp & cls & P & B & _ & Hcls & _ & _ & _ & _ & ->).
  simpl. apply classify_Ok in Hcls. destruct (values_class_applies _ _); auto.
Qed.

Lemma semantic_class_two_values_witness :
  exists r,
    py_analyze_sentence two_class_analyzer 64 (u "We believe in our strategy.") = Ok r
    /\ (semantic_class r = "operational_or_mixed"
        \/ semantic_class r = "values_non_operational").
Proof.
  destruct (py_analyze_sentence two_class_analyzer 64 (u "We believe in our strategy."))
    as [r|e] eqn:H; [|vm_compute in H; discriminate].
  exists r. split; [reflexivity|].
  exact (semantic_class_two_values py_lower py_is_word two_class_analyzer 64 _ r H).
Defined.

(** C6, as stated, fails: with a class [hype] declared first and matching,
    first-match evaluation would assign [hype], while the analyzer leaves the
    default. *)
Lemma first_match_not_implemented :
  exists r,
    py_analyze_sentence two_class_analyzer 64 (u "We are the best team.") = Ok r
    /\ (1 < length (sc two_class_analyzer))%nat
    /\ semantic_class r = "operational_or_mixed"
    /\ classify_first_match (sc two_class_analyzer) (features r) = "hype".
Proof.
  eexists. split; [vm_compute; reflexivity|].
  split; [simpl; lia|]. split; reflexivity.
Qed.

(** C6, amended: for a class table whose entry [values_non_operational], when
    present and not empty, has both keys [requires] and [forbids],
    classification reads only the class named [values_non_operational],
    whatever other classes the table declares and in whatever order; that
    class is assigned when its entry is present, not empty, and matches (all
    [requires] true, all [forbids] false), and the default
    ["operational_or_mixed"] otherwise. *)
Theorem classify_values_class_only (sc : list (string * ClassRule)) (f : Features) :
  valid_classes sc = true ->
  classify sc f
  = Ok (if values_class_applies sc f then "values_non_operational"
        else "operational_or_mixed").
Proof.
  intros Hvalid. destruct (classify_total sc f Hvalid) as [cls Hcls].
  rewrite Hcls. f_equal. apply classify_Ok. assumption.
Qed.

Lemma classify_values_class_only_witness :
  classify two_classes
    (mkFeatures false false false true false false false true false false false false false)
  = Ok "values_non_operational".
Proof.
  apply (classify_values_class_only two_classes
           (mkFeatures false false false true false false false true
                       false false false false false)).
  vm_compute. reflexivity.
Defined.

(** ** Flags of an outcome claim *)

(** C8, as stated, fails: a sentence with an outcome verb and none of metric,
    baseline, scope and mechanism gets a fifth flag when it also contains a
    proof-theater phrase. *)
Lemma four_flags_not_exact :
  exists r,
    py_analyze_sentence demo_analyzer 64 (u "We improve results with proven methods.") = Ok r
    /\ outcome_present (features r) = true
    /\ metric_present (features r) = false
    /\ baseline_present (features r) = false
    /\ scope_present (features r) = false
    /\ mechanism_present (features r) = false
    /\ map fl_type (flags r)
       = [ "outcome_without_metric"; "outcome_without_baseline"; "outcome_without_scope";
           "proof_implied_no_evidence"; "outcome_without_mechanism" ].
Proof.
  eexists. split; [vm_compute; reflexivity|]. repeat split.
Qed.

(** C8, amended: for a sentence whose features have [outcome_present] true and
    [metric_present], [baseline_present], [scope_present] and
    [mechanism_present] false, the flag list contains the four flags
    [outcome_without_metric], [outcome_without_baseline],
    [outcome_without_scope] and [outcome_without_mechanism], each once and in
    this order; they are all the flags exactly when no other rule triggers,
    that is when the sentence has no speed word without a timeframe, no
    proof-theater phrase, no buzzword, no passive match, no superlative and no
    process word. *)
Theorem outcome_claim_flags (lower : str -> str) (is_word : codepoint -> bool)
    (self : Analyzer) (fuel : nat) (s : str) (r : SentenceAnalysis) :
  analyze_sentence lower is_word self fuel s = Ok r ->
  outcome_present (features r) = true ->
  metric_present (features r) = false ->
  baseline_present (features r) = false ->
  scope_present (features r) = false ->
  mechanism_present (features r) = false ->
  filter (fun k => k ∈ outcome_flag_types) (map fl_type (flags r)) = outcome_flag_types
  /\ (map fl_type (flags r) = outcome_flag_types <->
      speed_present (features r) && negb (timeframe_present (features r)) = false
      /\ proof_implied (features r) = false
      /\ buzzword_present (features r) = false
      /\ passive_present (features r) = false
      /\ superlative_present (features r) = false
      /\ search_process is_word (lower s) = false).
Proof.
  intros H. apply analyze_sentence_Ok_inv in H
    as (sp & cls & P & B & _ & _ & _ & _ & _ & _ & ->).
  unfold analysis_of, penalty_rules. cbn [features flags].
  generalize (features_of sp). intros f.
  intros -> -> -> -> ->.
  destruct (search_process is_word (lower s)), (speed_present f), (timeframe_present f),
    (proof_implied f), (buzzword_present f), (passive_present f), (superlative_present f);
    (split; [vm_compute; reflexivity|]);
    (split;
     [ intros Hflags; vm_compute in Hflags;
       first [discriminate Hflags | repeat split; reflexivity]
     | intros (H1 & H2 & H3 & H4 & H5 & H6);
       first [discriminate | vm_compute; reflexivity] ]).
Qed.

Lemma outcome_claim_flags_witness :
  exists r,
    py_analyze_sentence demo_analyzer 64 (u "We boost revenue.") = Ok r
    /\ filter (fun k => k ∈ outcome_flag_types) (map fl_type (flags r)) = outcome_flag_types
    /\ map fl_type (flags r) = outcome_flag_types.
Proof.
  destruct (py_analyze_sentence demo_analyzer 64 (u "We boost revenue."))
    as [r|e] eqn:H; [|vm_compute in H; discriminate].
  exists r. split; [reflexivity|].
  assert (r = match py_analyze_sentence demo_analyzer 64 (u "We boost revenue.") with
              | Ok a => a
              | Err _ => r
              end) as Hr by (rewrite H; reflexivity).
  vm_compute in Hr.
  destruct (outcome_claim_flags py_lower py_is_word demo_analyzer 64 _ r H) as [Hfour Hall];
    try (rewrite Hr; reflexivity).
  split; [exact Hfour|]. apply Hall. rewrite Hr. repeat split.
Defined.

(** ** Changing one penalty weight *)

Lemma fired_weights_insert (P : gmap string Z) (k : string) (w1 w2 : Z) (rules : list Rule) :
  NoDup (map r_type rules) ->
  P !! k = Some w1 ->
  sum (map (fun r => weight (<[k := w2]> P) (r_type r)) (fired rules))
  = sum (map (fun r => weight P (r_type r)) (fired rules))
    + (if bool_decide (k ∈ map r_type (fired rules)) then w2 - w1 else 0).
Proof.
  intros Hnd Hk. induction rules as [|r rules IH]; [reflexivity|].
  simpl in Hnd. apply NoDup_cons in Hnd as [Hnotin Hnd]. specialize (IH Hnd).
  rewrite fired_cons. destruct (r_trigger r); [|exact IH].
  cbn [map sum foldr]. fold (sum (map (fun r => weight (<[k := w2]> P) (r_type r)) (fired rules))).
  fold (sum (map (fun r => weight P (r_type r)) (fired rules))). rewrite IH.
  destruct (decide (r_type r = k)) as [Heq|Hne].
  - assert (k ∉ map r_type (fired rules)) as Hnot.
    { intros Hin. apply Hnotin. rewrite Heq. apply fired_types_sublist. assumption. }
    rewrite (bool_decide_eq_false_2 _ Hnot).
    rewrite bool_decide_eq_true_2 by (rewrite Heq; left).
    unfold weight. rewrite Heq, lookup_insert_eq, Hk. simpl. lia.
  - unfold weight at 1. rewrite lookup_insert_ne by congruence.
    fold (weight P (r_type r)).
    destruct (bool_decide (k ∈ map r_type (fired rules))) eqn:Hin.
    + apply bool_decide_eq_true in Hin.
      rewrite bool_decide_eq_true_2 by (right; assumption). lia.
    + apply bool_decide_eq_false in Hin.
      rewrite bool_decide_eq_false_2; [lia|].
      intros Hin'. apply elem_of_cons in Hin' as [Heq | Hin']; congruence.
Qed.

(** C5, as stated, fails: raising the weight of a triggered rule from 26 to 80
    moves the total score from 51 to 100, not by 54, because the score is
    clamped at 100. *)
Lemma weight_delta_clamped :
  exists r1 r2,
    py_analyze_sentence demo_analyzer 64 (u "We improve results with proven methods.") = Ok r1
    /\ py_analyze_sentence (set_penalty demo_analyzer "proof_implied_no_evidence" 80) 64
         (u "We improve results with proven methods.") = Ok r2
    /\ demo_penalties !! "proof_implied_no_evidence" = Some 26
    /\ "proof_implied_no_evidence" ∈ map fl_type (flags r1)
    /\ total_score r1 = 51 /\ total_score r2 = 100
    /\ total_score r2 - total_score r1 <> 80 - 26.
Proof.
  eexists. eexists. split; [vm_compute; reflexivity|].
  split; [vm_compute; reflexivity|]. split; [vm_compute; reflexivity|].
  split; [apply (bool_decide_unpack _); vm_compute; exact I|].
  split; [reflexivity|]. split; [reflexivity|]. simpl. lia.
Qed.

(** C5, amended: when two configurations differ only in the weight of one
    penalty rule, a sentence that triggers the rule has penalties, and raw
    scores [penalties - bonus], that differ by exactly the difference of the
    two weights, each total score being the clamp of its raw score, so that
    the total scores differ by that amount when both raw scores lie in
    [0, 100];
    a sentence that does not trigger the rule has the same analysis, hence the
    same total score, under both. *)
Theorem penalty_weight_delta (lower : str -> str) (is_word : codepoint -> bool)
    (self : Analyzer) (P : gmap string Z) (k : string) (w1 w2 : Z)
    (fuel : nat) (s : str) (r1 : SentenceAnalysis) :
  wt self !! "penalties" = Some P ->
  P !! k = Some w1 ->
  analyze_sentence lower is_word self fuel s = Ok r1 ->
  exists r2,
    analyze_sentence lower is_word (set_penalty self k w2) fuel s = Ok r2
    /\ total_score r1 = clamp (raw_score r1) 0 100
    /\ total_score r2 = clamp (raw_score r2) 0 100
    /\ (k ∈ map fl_type (flags r1) ->
        penalties (score_breakdown r2) - penalties (score_breakdown r1) = w2 - w1
        /\ raw_score r2 - raw_score r1 = w2 - w1
        /\ (0 <= raw_score r1 <= 100 -> 0 <= raw_score r2 <= 100 ->
            total_score r2 - total_score r1 = w2 - w1))
    /\ (k ∉ map fl_type (flags r1) -> r2 = r1).
Proof.
  intros HP Hk H. apply analyze_sentence_Ok_inv in H
    as (sp & cls & P' & B & Hsp & Hcls & HP' & HB & Hfired & Hgranted & ->).
  rewrite HP in HP'. injection HP' as <-.
  set (rules := penalty_rules is_word (features_of sp) sp s (lower s)) in *.
  assert (wt (set_penalty self k w2) !! "penalties" = Some (<[k := w2]> P)) as HP2.
  { unfold set_penalty. cbn [wt]. rewrite HP. apply lookup_insert_eq. }
  assert (wt (set_penalty self k w2) !! "bonuses" = Some B) as HB2.
  { unfold set_penalty. cbn [wt]. rewrite HP. rewrite lookup_insert_ne by discriminate.
    assumption. }
  assert (Forall (fun r => is_Some (<[k := w2]> P !! r_type r)) (fired rules)) as Hfired2.
  { eapply Forall_impl; [exact Hfired|]. intros r Hr. apply lookup_insert_is_Some.
    destruct (decide (k = r_type r)); [left | right]; auto. }
  exists (analysis_of is_word s (lower s) sp cls (<[k := w2]> P) B).
  split; [apply analyze_sentence_run; assumption|].
  assert (map fl_type (map flag_of (fired rules)) = map r_type (fired rules)) as Htypes.
  { rewrite map_map. reflexivity. }
  assert (map r_type rules = penalty_keys) as Hkeys by reflexivity.
  pose proof (fired_weights_insert P k w1 w2 rules) as Hsum.
  rewrite Hkeys in Hsum. specialize (Hsum penalty_keys_NoDup Hk).
  unfold raw_score, analysis_of. cbn [flags score_breakdown penalties bonus total_score].
  fold rules. rewrite Htypes, Hsum, <- !max_min_clamp.
  split; [reflexivity|]. split; [reflexivity|]. split.
  - intros Hin. rewrite (bool_decide_eq_true_2 _ Hin). split; [lia|]. split; lia.
  - intros Hnotin. rewrite (bool_decide_eq_false_2 _ Hnotin), Z.add_0_r. reflexivity.
Qed.

Lemma penalty_weight_delta_witness :
  exists r1 r2,
    py_analyze_sentence demo_analyzer 64 (u "Our proven method.") = Ok r1
    /\ py_analyze_sentence (set_penalty demo_analyzer "proof_implied_no_evidence" 40) 64
         (u "Our proven method.") = Ok r2
    /\ penalties (score_breakdown r2) - penalties (score_breakdown r1) = 40 - 26
    /\ total_score r2 - total_score r1 = 40 - 26.
Proof.
  destruct (py_analyze_sentence demo_analyzer 64 (u "Our proven method."))
    as [r1|e] eqn:H; [|vm_compute in H; discriminate].
  assert (r1 = match py_analyze_sentence demo_analyzer 64 (u "Our proven method.") with
               | Ok a => a
               | Err _ => r1
               end) as Hr by (rewrite H; reflexivity).
  vm_compute in Hr.
  destruct (penalty_weight_delta py_lower py_is_word demo_analyzer demo_penalties
              "proof_implied_no_evidence" 26 40 64 _ r1 eq_refl eq_refl H)
    as (r2 & Hrun & Hc1 & Hc2 & Htrig & _).
  exists r1, r2. split; [reflexivity|]. split; [exact Hrun|].
  destruct Htrig as (Hpen & Hraw & Htotal).
  - rewrite Hr. apply (bool_decide_unpack _). vm_compute. exact I.
  - split; [exact Hpen|]. apply Htotal.
    + rewrite Hr. vm_compute. split; discriminate.
    + assert (raw_score r1 = 26) as Hraw1 by (rewrite Hr; reflexivity). lia.
Defined.

(** ** The document label *)

Lemma Qle_bool_true_div (total n c : Z) :
  0 < n -> Qle_bool (true_div total n) (inject_Z c) = (total <=? c * n).
Proof.
  intros Hn. destruct n as [|p|p]; try lia.
  unfold true_div, Qle_bool, Qdiv, Qmult, Qinv, inject_Z. simpl.
  apply eq_true_iff_eq. rewrite !Z.leb_le. rewrite Pos.mul_1_l. lia.
Qed.

Lemma label_true_div (total n : Z) :
  0 < n -> label (true_div total n) = threshold_label total n.
Proof.
  intros Hn. unfold label, threshold_label.
  change 25%Q with (inject_Z 25). change 50%Q with (inject_Z 50).
  change 75%Q with (inject_Z 75).
  rewrite !Qle_bool_true_div by assumption. reflexivity.
Qed.

(** C4, as stated, fails: on twenty sentences that score 25 and one that
    scores 26 the mean is 526/21, [score_mean] is its rounding 25.0, whose
    threshold label is "Solid / operational", yet the label of the result is
    "Soft marketing". *)
Lemma label_not_from_score_mean :
  exists res,
    py_analyze_text demo_analyzer 64 demo_text = Ok res
    /\ sum (map total_score (sentences res)) = 526
    /\ length (sentences res) = 21%nat
    /\ score_mean (overall res) = (250 # 10)%Q
    /\ label (score_mean (overall res)) = "Solid / operational"
    /\ overall_label (overall res) = "Soft marketing".
Proof.
  eexists. split; [vm_compute; reflexivity|]. repeat split.
Qed.

(** C4, amended: for a non-empty list of sentence analyses the label of the
    overall result is the four-way threshold applied to the arithmetic mean
    of the total scores itself, not to its rounding: at most 25 gives
    "Solid / operational", at most 50 "Soft marketing", at most 75
    "High BS risk", anything above "Persuasion fog". *)
Theorem label_from_exact_mean (a : SentenceAnalysis) (rest : list SentenceAnalysis) :
  let analyses := a :: rest in
  let total := sum (map total_score analyses) in
  let n := Z.of_nat (length analyses) in
  overall_label (overall (aggregate analyses))
  = (if total <=? 25 * n then "Solid / operational"
     else if total <=? 50 * n then "Soft marketing"
     else if total <=? 75 * n then "High BS risk"
     else "Persuasion fog")
  /\ overall_label (overall (aggregate analyses)) = label (true_div total n).
Proof.
  intros analyses total n.
  assert (0 < n) as Hn by (unfold n, analyses; simpl; lia).
  assert (overall_label (overall (aggregate analyses)) = label (true_div total n)) as Hl.
  { unfold aggregate, analyses, total, n. cbn [overall overall_label].
    rewrite length_map. reflexivity. }
  split.
  - rewrite Hl, label_true_div by assumption. reflexivity.
  - exact Hl.
Qed.

(** ** Missing configuration keys *)

Section Construction.
Variable re_compile : str -> option Pattern.

Lemma compile_key_Ok (rx : gmap string str) (k : string) (p : Pattern) :
  compile_key re_compile rx k = Ok p -> is_Some (rx !! k).
Proof.
  unfold compile_key, getitem. destruct (rx !! k); [eauto | discriminate].
Qed.

Lemma compile_key_Err (rx : gmap string str) (k : string) (e : error) :
  compile_key re_compile rx k = Err e ->
  (rx !! k = None /\ e = KeyError k) \/ (exists source, e = ReError source).
Proof.
  unfold compile_key, getitem. destruct (rx !! k) as [source|]; simpl.
  - destruct (re_compile source); [discriminate|]. intros [= <-]. right. eauto.
  - intros [= <-]. left. split; reflexivity.
Qed.

(** [__init__] raises when a pattern key is missing: the [KeyError] of a
    missing key, unless an earlier pattern is malformed. *)
Lemma Analyzer_init_missing_regex (d : RulesDir) (k : string) :
  k ∈ regex_keys -> regex_json d !! k = None ->
  exists e, Analyzer_init re_compile d = Err e
            /\ ((exists k', k' ∈ regex_keys /\ regex_json d !! k' = None /\ e = KeyError k')
                \/ (exists source, e = ReError source)).
Proof.
  intros Hk Hmiss. unfold Analyzer_init.
  repeat match goal with
         | |- context [compile_key re_compile (regex_json d) ?key ≫= _] =>
             let H := fresh "Hc" in
             let e := fresh "e" in
             destruct (compile_key re_compile (regex_json d) key) as [?|e] eqn:H;
             [apply compile_key_Ok in H; cbn [mbind result_bind]
             | exists e; split; [reflexivity|];
               apply compile_key_Err in H as [[H ->] | H]; [left | right; exact H];
               exists key; split; [apply (bool_decide_unpack _); vm_compute; exact I|];
               split; [assumption | reflexivity]]
         end.
  exfalso. unfold regex_keys in Hk.
  repeat (apply elem_of_cons in Hk as [-> | Hk];
          [match goal with
           | H : is_Some (regex_json d !! _) |- _ =>
               rewrite Hmiss in H; destruct H; discriminate
           end|]).
  inversion Hk.
Qed.

(** [__init__] reads the lexicons, weights and classes without looking into
    them. *)
Lemma Analyzer_init_ignores (d : RulesDir) (a : Analyzer)
    (lexicons : gmap string (list str)) (weights : gmap string (gmap string Z)) :
  Analyzer_init re_compile d = Ok a ->
  lex a = lexicons_json d /\ wt a = weights_json d /\ sc a = semantic_classes_json d
  /\ Analyzer_init re_compile (with_lexicons_weights d lexicons weights)
     = Ok (analyzer_with_lexicons_weights a lexicons weights).
Proof.
  unfold Analyzer_init. intros H. invert_binds. injection H as <-.
  cbn [with_lexicons_weights regex_json].
  rewrite Hx, Hx0, Hx1, Hx2, Hx3. repeat split.
Qed.
End Construction.

Section ConfigurationErrors.
Variable lower : str -> str.
Variable is_word : codepoint -> bool.
Variable is_space : codepoint -> bool.

Lemma wellformed_lexicons_lookup (lexicons : gmap string (list str)) (k : string)
    (phrases : list str) :
  wellformed_lexicons lower lexicons = true ->
  In k lexicon_keys ->
  lexicons !! k = Some phrases ->
  Forall (fun p => lower p <> []) phrases.
Proof.
  unfold wellformed_lexicons. rewrite forallb_forall. intros Hall Hk Hlook.
  specialize (Hall k Hk). rewrite Hlook in Hall.
  rewrite forallb_forall in Hall. apply List.Forall_forall.
  intros p Hp Hempty. specialize (Hall p Hp). rewrite Hempty in Hall. discriminate.
Qed.

(** One lexicon lookup and scan either raises [KeyError] or yields spans. *)
Lemma lexicon_spans_cases (self : Analyzer) (fuel : nat) (s_l s : str) (k : string) :
  wellformed_lexicons lower (lex self) = true ->
  In k lexicon_keys ->
  (length s_l < fuel)%nat ->
  (lex self !! k = None /\ lexicon_spans lower self fuel s_l k s = Err (KeyError k))
  \/ (is_Some (lex self !! k) /\ exists spans, lexicon_spans lower self fuel s_l k s = Ok spans).
Proof.
  intros Hwf Hk Hfuel. unfold lexicon_spans.
  destruct (lex self !! k) as [phrases|] eqn:Hlook.
  - right. split; [eauto|].
    pose proof (wellformed_lexicons_lookup _ _ _ Hwf Hk Hlook) as Hphr.
    destruct (phrases_loop_spec lower fuel s_l phrases s [] Hphr Hfuel) as (occs & _ & Heq).
    rewrite (bind_Ok_l _ _ phrases); [|apply getitem_Ok; assumption].
    unfold find_phrase_spans. rewrite Heq. eauto.
  - left. split; [reflexivity|].
    rewrite (bind_Err_l _ _ (KeyError k)); [reflexivity | apply getitem_missing; assumption].
Qed.

(** A missing lexicon is reported by the first lookup that needs it. *)
Lemma match_spans_missing (self : Analyzer) (fuel : nat) (s_l s : str) :
  wellformed_lexicons lower (lex self) = true ->
  (length s_l < fuel)%nat ->
  (exists k, k ∈ lexicon_keys /\ lex self !! k = None) ->
  exists k, k ∈ lexicon_keys /\ lex self !! k = None
            /\ match_spans lower self fuel s_l s = Err (KeyError k).
Proof.
  intros Hwf Hfuel (k0 & Hk0 & Hmiss). unfold match_spans.
  repeat match goal with
         | |- context [lexicon_spans lower self fuel s_l ?k s ≫= _] =>
             let H := fresh "Hl" in
             let Hs := fresh "Hs" in
             let spans := fresh "spans" in
             destruct (lexicon_spans_cases self fuel s_l s k Hwf) as [[H Hs] | [H [spans Hs]]];
             [simpl; tauto | assumption
              | exists k; split;
                [apply (bool_decide_unpack _); vm_compute; exact I
                | split; [assumption | rewrite Hs; reflexivity]]
              | rewrite Hs; cbn [mbind result_bind]]
         end.
  exfalso. unfold lexicon_keys in Hk0.
  repeat (apply elem_of_cons in Hk0 as [-> | Hk0];
          [match goal with
           | H : is_Some (lex self !! _) |- _ =>
               rewrite Hmiss in H; destruct H; discriminate
           end|]).
  inversion Hk0.
Qed.

Lemma analyze_sentence_missing_lexicon (self : Analyzer) (fuel : nat) (s : str) :
  wellformed_lexicons lower (lex self) = true ->
  (length (lower s) < fuel)%nat ->
  (exists k, k ∈ lexicon_keys /\ lex self !! k = None) ->
  exists k, k ∈ lexicon_keys /\ lex self !! k = None
            /\ analyze_sentence lower is_word self fuel s = Err (KeyError k).
Proof.
  intros Hwf Hfuel Hmiss.
  destruct (match_spans_missing self fuel (lower s) s Hwf Hfuel Hmiss)
    as (k & Hk & Hnone & Herr).
  exists k. split; [assumption|]. split; [assumption|].
  unfold analyze_sentence. rewrite Herr. reflexivity.
Qed.

(** A missing weight table is reported once the spans and the class are
    computed. *)
Lemma analyze_sentence_missing_table (self : Analyzer) (fuel : nat) (s : str) :
  valid_lexicons lower (lex self) = true ->
  valid_classes (sc self) = true ->
  (length (lower s) < fuel)%nat ->
  (wt self !! "penalties" = None ->
   analyze_sentence lower is_word self fuel s = Err (KeyError "penalties"))
  /\ (is_Some (wt self !! "penalties") -> wt self !! "bonuses" = None ->
      analyze_sentence lower is_word self fuel s = Err (KeyError "bonuses")).
Proof.
  intros Hlex Hsc Hfuel.
  destruct (match_spans_total lower self fuel (lower s) s Hlex Hfuel) as [sp Hsp].
  destruct (classify_total (sc self) (features_of sp) Hsc) as [cls Hcls].
  unfold analyze_sentence.
  rewrite (bind_Ok_l _ _ _ Hsp), (bind_Ok_l _ _ _ Hcls). split.
  - intros Hmiss. rewrite (getitem_missing _ _ Hmiss). reflexivity.
  - intros [P HP] Hmiss. apply getitem_Ok in HP.
    rewrite (bind_Ok_l _ _ _ HP), (getitem_missing _ _ Hmiss). reflexivity.
Qed.

(** A missing penalty weight is reported by a sentence that triggers its
    rule. *)
Lemma analyze_sentence_missing_penalty (self : Analyzer) (fuel : nat) (s : str)
    (sp : SpanSets) (P B : gmap string Z) (k : string) :
  match_spans lower self fuel (lower s) s = Ok sp ->
  valid_classes (sc self) = true ->
  wt self !! "penalties" = Some P ->
  wt self !! "bonuses" = Some B ->
  k ∈ map r_type (fired (penalty_rules is_word (features_of sp) sp s (lower s))) ->
  P !! k = None ->
  exists k', P !! k' = None
             /\ analyze_sentence lower is_word self fuel s = Err (KeyError k').
Proof.
  intros Hsp Hsc HP HB Hk Hmiss.
  destruct (classify_total (sc self) (features_of sp) Hsc) as [cls Hcls].
  apply getitem_Ok in HP, HB. unfold analyze_sentence.
  rewrite (bind_Ok_l _ _ _ Hsp), (bind_Ok_l _ _ _ Hcls).
  rewrite (bind_Ok_l _ _ _ HP), (bind_Ok_l _ _ _ HB).
  destruct (apply_rules P (penalty_rules is_word (features_of sp) sp s (lower s)) 0 [])
    as [res|e] eqn:Hrules.
  - exfalso. apply apply_rules_Ok_inv in Hrules. rewrite Forall_forall in Hrules.
    apply list_elem_of_fmap in Hk as (r & -> & Hr).
    destruct (Hrules r Hr) as [w Hw]. congruence.
  - apply apply_rules_Err in Hrules as (r & _ & Hnone & ->).
    exists (r_type r). split; [assumption | reflexivity].
Qed.

(** [analyze_text] raises what the analysis of its first failing sentence
    raises. *)
Lemma analyze_text_first_sentence (self : Analyzer) (fuel : nat) (text s : str)
    (rest : list str) (e : error) :
  split_sentences is_space text = s :: rest ->
  analyze_sentence lower is_word self fuel s = Err e ->
  analyze_text lower is_word is_space self fuel text = Err e.
Proof.
  intros Hsplit Herr. unfold analyze_text. rewrite Hsplit.
  cbn [analyze_all]. rewrite Herr. reflexivity.
Qed.
End ConfigurationErrors.

Example demo_rules_load : Analyzer_init literal_compile demo_rules = Ok demo_analyzer.
Proof. reflexivity. Qed.

(** C3, as stated, fails: a configuration without the lexicon [speed_words]
    passes construction, and the missing key is first raised as a [KeyError]
    by [analyze_sentence] and [analyze_text]. *)
Lemma lexicon_key_error_at_analysis :
  exists a,
    Analyzer_init literal_compile rules_without_lexicon = Ok a
    /\ "speed_words" ∈ lexicon_keys
    /\ lexicons_json rules_without_lexicon !! "speed_words" = None
    /\ py_analyze_sentence a 64 (u "We ship fast.") = Err (KeyError "speed_words")
    /\ py_analyze_text a 64 (u "We ship fast. Customers stay.") = Err (KeyError "speed_words").
Proof.
  eexists. split; [vm_compute; reflexivity|].
  split; [apply (bool_decide_unpack _); vm_compute; exact I|].
  split; [vm_compute; reflexivity|]. split; vm_compute; reflexivity.
Qed.

(** C3, amended: a rule configuration that misses a required regex key fails
    at load time, in the constructor.  The constructor does not look into the
    lexicons and weights: when construction succeeds it succeeds with any
    other lexicons and weights, and the other missing keys are raised as a
    [KeyError] during [analyze_sentence]: a missing lexicon key when no
    phrase of the lexicons that are present lowercases to the empty string
    (and so during [analyze_text] on a text that begins with that sentence);
    and, when the eight lexicons are present without such a phrase and the
    entry [values_non_operational] of the class table, if present and not
    empty, has both its keys, the missing table [penalties], the missing
    table [bonuses] when [penalties] is present, and, when both tables are
    present, a missing weight of a penalty rule that the sentence
    triggers. *)
Theorem missing_key_errors (lower : str -> str) (is_word is_space : codepoint -> bool)
    (re_compile : str -> option Pattern) (d : RulesDir) :
  ((exists k, k ∈ regex_keys /\ regex_json d !! k = None) ->
   exists e, Analyzer_init re_compile d = Err e
             /\ ((exists k, k ∈ regex_keys /\ regex_json d !! k = None /\ e = KeyError k)
                 \/ (exists source, e = ReError source)))
  /\ forall a, Analyzer_init re_compile d = Ok a ->
     (forall lexicons weights,
         Analyzer_init re_compile (with_lexicons_weights d lexicons weights)
         = Ok (analyzer_with_lexicons_weights a lexicons weights))
     /\ forall fuel s, (length (lower s) < fuel)%nat ->
        (wellformed_lexicons lower (lexicons_json d) = true ->
         (exists k, k ∈ lexicon_keys /\ lexicons_json d !! k = None) ->
         exists k, k ∈ lexicon_keys /\ lexicons_json d !! k = None
                   /\ analyze_sentence lower is_word a fuel s = Err (KeyError k)
                   /\ forall text rest,
                        split_sentences is_space text = s :: rest ->
                        analyze_text lower is_word is_space a fuel text = Err (KeyError k))
        /\ (valid_lexicons lower (lexicons_json d) = true ->
            valid_classes (semantic_classes_json d) = true ->
            (weights_json d !! "penalties" = None ->
             analyze_sentence lower is_word a fuel s = Err (KeyError "penalties"))
            /\ (is_Some (weights_json d !! "penalties") ->
                weights_json d !! "bonuses" = None ->
                analyze_sentence lower is_word a fuel s = Err (KeyError "bonuses"))
            /\ (forall sp P B k,
                   match_spans lower a fuel (lower s) s = Ok sp ->
                   weights_json d !! "penalties" = Some P ->
                   weights_json d !! "bonuses" = Some B ->
                   k ∈ map r_type (fired (penalty_rules is_word (features_of sp) sp s (lower s))) ->
                   P !! k = None ->
                   exists k', P !! k' = None
                              /\ analyze_sentence lower is_word a fuel s = Err (KeyError k'))).
Proof.
  split.
  - intros (k & Hk & Hmiss). eapply Analyzer_init_missing_regex; eassumption.
  - intros a Hinit.
    destruct (Analyzer_init_ignores re_compile d a ∅ ∅ Hinit) as (Hlex & Hwt & Hsc & _).
    split.
    + intros lexicons weights.
      apply (Analyzer_init_ignores re_compile d a lexicons weights Hinit).
    + intros fuel s Hfuel. rewrite <- Hlex, <- Hwt, <- Hsc. split.
      * intros Hwf Hmiss.
        destruct (analyze_sentence_missing_lexicon lower is_word a fuel s Hwf Hfuel Hmiss)
          as (k & Hk & Hnone & Herr).
        exists k. repeat split; try assumption.
        intros text rest Hsplit. eapply analyze_text_first_sentence; eassumption.
      * intros Hvalid Hclasses.
        destruct (analyze_sentence_missing_table lower is_word a fuel s Hvalid Hclasses Hfuel)
          as [Hpen Hbon].
        split; [assumption|]. split; [assumption|].
        intros sp P B k Hsp HP HB Hk Hnone.
        eapply analyze_sentence_missing_penalty; eassumption.
Qed.

Lemma missing_key_errors_witness :
  (exists e, Analyzer_init literal_compile rules_without_pattern = Err e
             /\ ((exists k, k ∈ regex_keys /\ regex_json rules_without_pattern !! k = None
                            /\ e = KeyError k)
                 \/ (exists source, e = ReError source)))
  /\ (forall a, Analyzer_init literal_compile rules_without_lexicon = Ok a ->
      exists k, k ∈ lexicon_keys /\ lexicons_json rules_without_lexicon !! k = None
                /\ py_analyze_sentence a 64 (u "We ship fast.") = Err (KeyError k))
  /\ (forall a, Analyzer_init literal_compile rules_without_table = Ok a ->
      py_analyze_sentence a 64 (u "We ship fast.") = Err (KeyError "bonuses")).
Proof.
  split; [|split].
  - apply (proj1 (missing_key_errors py_lower py_is_word py_is_space literal_compile
                    rules_without_pattern)).
    exists "scope". split; [apply (bool_decide_unpack _); vm_compute; exact I|].
    vm_compute. reflexivity.
  - intros a Hinit.
    destruct (proj2 (missing_key_errors py_lower py_is_word py_is_space literal_compile
                       rules_without_lexicon) a Hinit) as [_ Hrun].
    destruct (Hrun 64%nat (u "We ship fast.")) as [Hlex _]; [vm_compute; lia|].
    destruct Hlex as (k & Hk & Hnone & Herr & _).
    + vm_compute. reflexivity.
    + exists "speed_words". split; [apply (bool_decide_unpack _); vm_compute; exact I|].
      vm_compute. reflexivity.
    + exists k. repeat split; assumption.
  - intros a Hinit.
    destruct (proj2 (missing_key_errors py_lower py_is_word py_is_space literal_compile
                       rules_without_table) a Hinit) as [_ Hrun].
    destruct (Hrun 64%nat (u "We ship fast.")) as [_ Htab]; [vm_compute; lia|].
    destruct Htab as (_ & Hbon & _); [vm_compute; reflexivity | vm_compute; reflexivity|].
    apply Hbon; [|vm_compute; reflexivity].
    exists demo_penalties. vm_compute. reflexivity.
Defined.

(** ** Phrase-mode matching *)

Example find_adjacent : find (u "aaaa") (u "aa") 2 = Some 2%nat.
Proof. reflexivity. Qed.

Example find_absent : find (u "abc") (u "x") 0 = None.
Proof. reflexivity. Qed.

Example find_empty_at_end :
  find (u "abc") [] 3 = Some 3%nat /\ find (u "abc") [] 4 = None.
Proof. split; reflexivity. Qed.

(** Two adjacent occurrences both match; of two overlapping ones only the
    first does; the spans follow the phrase list, not the sentence. *)
Example adjacent_both_match :
  find_phrase_spans py_lower 10 (py_lower (u "AAaa")) [u "aa"] (u "AAaa")
  = Ok [mkSpan 0 2 (u "AA"); mkSpan 2 4 (u "aa")].
Proof. reflexivity. Qed.

Example overlapping_match_once :
  find_phrase_spans py_lower 10 (py_lower (u "aaa")) [u "aa"] (u "aaa")
  = Ok [mkSpan 0 2 (u "aa")].
Proof. reflexivity. Qed.

Example phrase_list_order :
  find_phrase_spans py_lower 10 (py_lower (u "ab ba")) [u "b"; u "a"] (u "ab ba")
  = Ok [mkSpan 1 2 (u "b"); mkSpan 3 4 (u "b"); mkSpan 0 1 (u "a"); mkSpan 4 5 (u "a")].
Proof. reflexivity. Qed.

(** C7, as stated, fails: for a phrase list that holds the empty phrase the
    scan finds the empty phrase at position 0 again and again and no span
    list results, however many iterations are allowed. *)
Lemma empty_phrase_never_returns :
  ~ exists fuel spans,
      find_phrase_spans py_lower fuel (py_lower (u "abc")) [[]] (u "abc") = Ok spans.
Proof.
  intros (fuel & spans & H). unfold find_phrase_spans in H. cbn [phrases_loop] in H.
  change (py_lower []) with (@nil codepoint) in H.
  rewrite scan_phrase_empty in H by (simpl; lia). discriminate.
Qed.

(** C7, amended: for every sentence and every phrase list without an empty
    phrase, phrase-mode matching returns, for each phrase in list order, the
    occurrences of the lowercased phrase in the lowercased sentence that a
    left-to-right scan keeps when the search resumes at the end of each match
    (the leftmost occurrence, then the leftmost one at or after its end, and
    so on), and the span list is the concatenation of the matches of each
    phrase in phrase-list order, with the text taken from the original
    sentence. *)
Theorem phrase_mode_matching (lower : str -> str) (s : str) (phrases : list str)
    (fuel : nat) :
  Forall (fun p => lower p <> []) phrases ->
  (length (lower s) < fuel)%nat ->
  exists occs,
    Forall2 (fun p o => scan_occurrences (lower s) (lower p) 0 o) phrases occs
    /\ find_phrase_spans lower fuel (lower s) phrases s
       = Ok (concat (zip_with (fun p o => map (span_at s (length (lower p))) o)
                       phrases occs)).
Proof.
  intros Hphr Hfuel. unfold find_phrase_spans.
  destruct (phrases_loop_spec lower fuel (lower s) phrases s [] Hphr Hfuel)
    as (occs & Hoccs & Heq).
  exists occs. split; assumption.
Qed.

Lemma phrase_mode_matching_witness :
  exists occs,
    Forall2 (fun p o => scan_occurrences (py_lower (u "Fast, FAST and faster"))
                          (py_lower p) 0 o)
            [u "fast"; u "And"] occs
    /\ find_phrase_spans py_lower 32 (py_lower (u "Fast, FAST and faster"))
         [u "fast"; u "And"] (u "Fast, FAST and faster")
       = Ok (concat (zip_with (fun p o => map (span_at (u "Fast, FAST and faster")
                                                   (length (py_lower p))) o)
                       [u "fast"; u "And"] occs)).
Proof.
  apply (phrase_mode_matching py_lower (u "Fast, FAST and faster") [u "fast"; u "And"] 32).
  - repeat constructor; discriminate.
  - vm_compute. lia.
Defined.

(** ** Span offsets *)

Lemma whole_sentence_span_ok (s : str) : span_ok s (mkSpan 0 (length s) s).
Proof.
  unfold span_ok, slice. simpl. repeat split; [lia | lia |].
  rewrite Nat.sub_0_r, firstn_all. reflexivity.
Qed.

Lemma span_in_lowered_ok (text_l s : str) (sp : Span) :
  (length text_l <= length s)%nat -> span_in_lowered text_l s sp -> span_ok s sp.
Proof.
  unfold span_in_lowered, span_ok. intros Hlen (H1 & H2 & H3).
  repeat split; [assumption | lia | assumption].
Qed.

(** Pattern-mode spans lie in the text they were matched on. *)
Lemma find_spans_regex_ok (p : Pattern) (text : str) :
  pattern_sound p -> Forall (span_ok text) (find_spans_regex p text).
Proof.
  intros Hsound. unfold find_spans_regex. apply Forall_fmap, Forall_forall.
  intros m Hm. destruct (Hsound text m Hm) as [H1 H2].
  unfold span_ok. simpl. repeat split; assumption.
Qed.

(** Phrase-mode spans lie in the lowercased text, which is where they were
    found. *)
Lemma scan_phrase_in_lowered (fuel : nat) (text_l p_l original : str) (start : nat)
    (spans spans' : list Span) :
  scan_phrase fuel text_l p_l original start spans = Ok spans' ->
  Forall (span_in_lowered text_l original) spans ->
  Forall (span_in_lowered text_l original) spans'.
Proof.
  revert start spans. induction fuel as [|fuel IH]; intros start spans; simpl; [discriminate|].
  destruct (find text_l p_l start) as [idx|] eqn:Hfind.
  - intros H Hall. apply (IH _ _ H). apply Forall_app. split; [assumption|].
    apply find_Some in Hfind as (_ & [Hlen _] & _).
    constructor; [|constructor]. unfold span_in_lowered. simpl.
    repeat split; [lia | assumption].
  - intros [= <-] Hall. assumption.
Qed.

Lemma find_phrase_spans_in_lowered (lower : str -> str) (fuel : nat) (text_l : str)
    (phrases : list str) (original : str) (spans : list Span) :
  find_phrase_spans lower fuel text_l phrases original = Ok spans ->
  Forall (span_in_lowered text_l original) spans.
Proof.
  unfold find_phrase_spans.
  assert (forall acc, Forall (span_in_lowered text_l original) acc ->
                      phrases_loop lower fuel text_l phrases original acc = Ok spans ->
                      Forall (span_in_lowered text_l original) spans) as Hloop.
  { induction phrases as [|p phrases IH]; intros acc Hacc; simpl.
    - intros [= <-]. assumption.
    - intros H. apply bind_Ok in H as (acc' & Hscan & H).
      apply (IH acc'); [|assumption].
      eapply scan_phrase_in_lowered; eassumption. }
  intros H. apply (Hloop []); [constructor | assumption].
Qed.

Section SpanProperties.
Variable lower : str -> str.
Variable is_word : codepoint -> bool.

Lemma lexicon_spans_in_lowered (self : Analyzer) (fuel : nat) (s_l : str)
    (name : string) (s : str) (spans : list Span) :
  lexicon_spans lower self fuel s_l name s = Ok spans ->
  Forall (span_in_lowered s_l s) spans.
Proof.
  unfold lexicon_spans. intros H. apply bind_Ok in H as (phrases & _ & H).
  eapply find_phrase_spans_in_lowered; eassumption.
Qed.

(** X15: when lowercasing does not lengthen the sentence, every span of every
    flag satisfies the span invariant (of the patterns only [passive]
    contributes spans to flags). *)
Lemma spans_ok_if_lower_keeps_length (self : Analyzer) (fuel : nat) (s : str)
    (r : SentenceAnalysis) :
  analyze_sentence lower is_word self fuel s = Ok r ->
  (length (lower s) <= length s)%nat ->
  pattern_sound (re_passive self) ->
  forall fl sp, fl ∈ flags r -> sp ∈ fl_spans fl -> span_ok s sp.
Proof.
  intros H Hlen Hpass.
  apply analyze_sentence_Ok_inv in H
    as (sps & cls & P & B & Hsp & _ & _ & _ & _ & _ & ->).
  unfold match_spans in Hsp. invert_binds. injection Hsp as <-.
  repeat match goal with
         | H : lexicon_spans _ _ _ _ _ _ = Ok _ |- _ =>
             apply lexicon_spans_in_lowered in H;
             eapply Forall_impl in H; [|intros ?; apply (span_in_lowered_ok _ _ _ Hlen)]
         end.
  apply (find_spans_regex_ok _ s) in Hpass.
  pose proof (whole_sentence_span_ok s) as Hwhole.
  unfold analysis_of. cbn [flags].
  match goal with
  | |- context [fired ?rules] =>
      assert (Forall (fun rule => Forall (span_ok s) (r_spans rule)) rules) as Hrules
  end.
  { unfold penalty_rules.
    repeat (apply List.Forall_cons;
            [cbn [r_spans];
             first [assumption | apply List.Forall_cons; [exact Hwhole | apply List.Forall_nil]]|]).
    apply List.Forall_nil. }
  intros fl sp Hfl Hin. apply list_elem_of_fmap in Hfl as (rule & -> & Hrule).
  unfold fired in Hrule. apply list_elem_of_filter in Hrule as [_ Hrule].
  rewrite Forall_forall in Hrules. specialize (Hrules rule Hrule).
  rewrite Forall_forall in Hrules. apply Hrules. exact Hin.
Qed.
End SpanProperties.

(** C2, on the code: the span invariant [0 <= start <= end <= len(sentence)]
    is broken.  Phrase-mode offsets are those of the lowercased sentence, and
    lowercasing U+0130 yields two code points: on a sentence of 22 code
    points that begins with U+0130 and ends with the outcome verb, the span of
    the verb in the flag [outcome_without_metric] runs from 16 to 23, past the
    end of the sentence, and its text is cut off the original one position
    late. *)
Theorem phrase_span_past_end :
  exists r fl sp,
    py_analyze_sentence demo_analyzer 64 dotted_sentence = Ok r
    /\ fl ∈ flags r /\ fl_type fl = "outcome_without_metric" /\ sp ∈ fl_spans fl
    /\ length dotted_sentence = 22%nat
    /\ length (py_lower dotted_sentence) = 23%nat
    /\ sp_start sp = 16%nat /\ sp_end sp = 23%nat
    /\ sp_text sp = u "mprove"
    /\ ~ span_ok dotted_sentence sp.
Proof.
  eexists. eexists. eexists. split; [vm_compute; reflexivity|].
  split; [left|]. split; [reflexivity|]. split; [left|].
  repeat split. unfold span_ok. simpl. lia.
Qed.


(** ** Sentence splitting and the empty document *)

Example split_three :
  split_sentences py_is_space (u "A. B! C?") = [u "A."; u "B!"; u "C?"].
Proof. reflexivity. Qed.

Example split_collapses_whitespace :
  split_sentences py_is_space ([32; 65; 46; 10; 9; 66; 32; 32; 98; 63; 10]%N)
  = [u "A."; u "B b?"].
Proof. reflexivity. Qed.

Example split_keeps_abbreviation : split_sentences py_is_space (u "Dr. Who") = [u "Dr."; u "Who"].
Proof. reflexivity. Qed.

Example analyze_empty_text :
  py_analyze_text demo_analyzer 8 [] = Ok (aggregate [])
  /\ overall_label (overall (aggregate [])) = "Empty"
  /\ n_sentences (overall (aggregate [])) = 0%nat.
Proof. repeat split. Qed.

Example label_boundaries :
  label 25 = "Solid / operational" /\ label (251 # 10) = "Soft marketing"
  /\ label 75 = "High BS risk" /\ label (751 # 10) = "Persuasion fog".
Proof. repeat split. Qed.

(** ** Sentence splitting *)

Section SplitProperties.
Variable is_space : codepoint -> bool.

Lemma lstrip_nil_iff (t : str) :
  lstrip is_space t = [] <-> forallb is_space t = true.
Proof.
  induction t as [|c t IH]; simpl; [tauto|].
  destruct (is_space c); simpl; [exact IH|]. split; discriminate.
Qed.

Lemma lstrip_head (t : str) (c : codepoint) (m : str) :
  lstrip is_space t = c :: m -> is_space c = false.
Proof.
  induction t as [|x t IH]; simpl; [discriminate|].
  destruct (is_space x) eqn:Hx; [exact IH|]. intros [= <- _]. exact Hx.
Qed.

Lemma lstrip_snoc (t : str) (c : codepoint) :
  is_space c = false -> lstrip is_space (t ++ [c]) = lstrip is_space t ++ [c].
Proof.
  intros Hc. induction t as [|x t IH]; simpl; [rewrite Hc; reflexivity|].
  destruct (is_space x); [exact IH | reflexivity].
Qed.

Lemma forallb_rev {A} (f : A -> bool) (l : list A) : forallb f (rev l) = forallb f l.
Proof.
  induction l as [|x l IH]; simpl; [reflexivity|].
  rewrite forallb_app, IH. simpl. rewrite andb_true_r. apply andb_comm.
Qed.

(** What [strip] leaves: nothing, or a text between two non-whitespace
    characters (which may be the same one). *)
Lemma strip_shape (t : str) :
  (forallb is_space t = true /\ strip is_space t = [])
  \/ (forallb is_space t = false
      /\ exists c m w c', strip is_space t = c :: m /\ is_space c = false
                          /\ strip is_space t = w ++ [c'] /\ is_space c' = false).
Proof.
  unfold strip. destruct (lstrip is_space t) as [|c a] eqn:Ha.
  - left. split; [apply lstrip_nil_iff; assumption | reflexivity].
  - right. pose proof (lstrip_head _ _ _ Ha) as Hc. split.
    { destruct (forallb is_space t) eqn:Hall; [|reflexivity].
      apply lstrip_nil_iff in Hall. congruence. }
    change (rev (c :: a)) with (rev a ++ [c]).
    rewrite (lstrip_snoc _ _ Hc), rev_app_distr. simpl.
    exists c, (rev (lstrip is_space (rev a))).
    destruct (lstrip is_space (rev a)) as [|c' b] eqn:Hb.
    + exists [], c. simpl. repeat split; first [reflexivity | assumption].
    + exists (c :: rev b), c'. simpl. repeat split; try first [reflexivity | assumption].
      eapply lstrip_head; eassumption.
Qed.

Lemma spaced_head (t : str) :
  spaced is_space t true = true ->
  exists c m, t = c :: m /\ is_space c = false /\ spaced is_space m false = true.
Proof.
  destruct t as [|c m]; simpl; [discriminate|].
  destruct (is_space c) eqn:Hc; simpl; [discriminate|]. eauto.
Qed.

Lemma spaced_last (t : str) (ps : bool) :
  spaced is_space t ps = true ->
  (t = [] /\ ps = false) \/ exists w c, t = w ++ [c] /\ is_space c = false.
Proof.
  revert ps. induction t as [|c t IH]; intros ps; simpl.
  - intros H. left. split; [reflexivity | destruct ps; [discriminate | reflexivity]].
  - intros H. right.
    assert (exists ps', spaced is_space t ps' = true
                        /\ (ps' = true <-> is_space c = true)) as (ps' & Ht & Hps').
    { destruct (is_space c).
      - apply andb_true_iff in H as [_ H]. exists true. tauto.
      - exists false. split; [assumption | split; discriminate]. }
    destruct (IH ps' Ht) as [[-> Hf] | (w & c' & -> & Hc')].
    + exists [], c. split; [reflexivity|].
      destruct (is_space c); [|reflexivity]. destruct Hps' as [_ Hps']. 
      rewrite Hps' in Hf by reflexivity. discriminate.
    + exists (c :: w), c'. split; [reflexivity | assumption].
Qed.

(** A spaced text is left as it is by [strip] and by the whitespace
    collapse. *)
Lemma spaced_strip (t : str) :
  spaced is_space t true = true -> strip is_space t = t.
Proof.
  intros H. destruct (spaced_head t H) as (c & m & -> & Hc & _).
  destruct (spaced_last _ _ H) as [[Hnil _] | (w & c' & Heq & Hc')]; [discriminate|].
  unfold strip. simpl lstrip. rewrite Hc. rewrite Heq, rev_app_distr. simpl.
  rewrite Hc'. change (c' :: rev w) with (rev [c'] ++ rev w).
  rewrite <- rev_app_distr, rev_involutive. reflexivity.
Qed.

Lemma spaced_collapse (t : str) (ps : bool) :
  spaced is_space t ps = true -> collapse_whitespace is_space t ps = t.
Proof.
  revert ps. induction t as [|c t IH]; intros ps; simpl; [reflexivity|].
  destruct (is_space c) eqn:Hc.
  - intros H. apply andb_true_iff in H as [H Ht]. apply andb_true_iff in H as [Hps H32].
    destruct ps; [discriminate|]. apply N.eqb_eq in H32. subst c.
    rewrite (IH true Ht). reflexivity.
  - intros Ht. rewrite (IH false Ht). reflexivity.
Qed.

(** The collapse of a text that ends with a non-whitespace character. *)
Lemma collapse_spaced (w : str) (c' : codepoint) (in_run : bool) :
  is_space c' = false ->
  spaced is_space (collapse_whitespace is_space (w ++ [c']) in_run)
         (in_run && is_space 32%N) = true.
Proof.
  intros Hc'. revert in_run. induction w as [|x w IH]; intros in_run; simpl.
  - rewrite Hc'. simpl. rewrite Hc'. reflexivity.
  - destruct (is_space x) eqn:Hx.
    + destruct in_run.
      * apply IH.
      * simpl. specialize (IH true). simpl in IH.
        destruct (is_space 32%N); simpl; exact IH.
    + simpl. rewrite Hx. specialize (IH false). simpl in IH. exact IH.
Qed.

(** The text that [split_sentences] splits is empty or spaced. *)
Lemma normalized_shape (text : str) :
  (forallb is_space text = true
   /\ collapse_whitespace is_space (strip is_space text) false = [])
  \/ (forallb is_space text = false
      /\ spaced is_space (collapse_whitespace is_space (strip is_space text) false) true
         = true).
Proof.
  destruct (strip_shape text) as [[Hall ->] | (Hall & c & m & w & c' & Hhead & Hc & Hlast & Hc')].
  - left. split; [assumption | reflexivity].
  - right. split; [assumption|].
    pose proof (collapse_spaced w c' false Hc') as H. rewrite <- Hlast in H.
    rewrite Hhead in H. rewrite Hhead. simpl in H |- *. rewrite Hc in H |- *.
    simpl in H |- *. rewrite Hc in H |- *. exact H.
Qed.

Lemma split_loop_nonempty (t : str) (prev : option codepoint) (part : str) (in_sep : bool) :
  split_loop is_space t prev part in_sep <> [].
Proof.
  revert prev part in_sep. induction t as [|c t IH]; intros prev part in_sep; simpl.
  - discriminate.
  - destruct (is_space c && in_sep); [apply IH|].
    destruct (is_space c && from_option sentence_end false prev); [discriminate | apply IH].
Qed.

Lemma join_cons (sep p : str) (parts : list str) :
  parts <> [] -> join sep (p :: parts) = p ++ sep ++ join sep parts.
Proof. destruct parts; [congruence | reflexivity]. Qed.

Lemma sentence_end_spec (c : codepoint) :
  sentence_end c = true <-> (c = 46 \/ c = 33 \/ c = 63)%N.
Proof.
  unfold sentence_end. rewrite !orb_true_iff, !N.eqb_eq. tauto.
Qed.

(** The split of a spaced remainder [t], when the piece [part] has been
    collected: the pieces are spaced, joined by single spaces they give back
    [part ++ t], and every piece but the last ends a sentence. *)
Lemma split_loop_spaced (t : str) (prev : option codepoint) (part : str)
    (in_sep ps : bool) :
  spaced is_space t ps = true ->
  (forall rest, spaced is_space rest ps = true -> spaced is_space (part ++ rest) true = true) ->
  (in_sep = true -> ps = true) ->
  (ps = false -> last part = prev) ->
  join [32%N] (split_loop is_space t prev part in_sep) = part ++ t
  /\ Forall (fun p => spaced is_space p true = true) (split_loop is_space t prev part in_sep)
  /\ Forall ends_sentence (removelast (split_loop is_space t prev part in_sep)).
Proof.
  revert prev part in_sep ps.
  induction t as [|c t IH]; intros prev part in_sep ps Ht Hpart Hsep Hlast;
    cbn [split_loop].
  - rewrite app_nil_r. split; [reflexivity|]. split; [|constructor].
    constructor; [|constructor]. specialize (Hpart [] Ht). rewrite app_nil_r in Hpart.
    exact Hpart.
  - simpl in Ht. destruct (is_space c) eqn:Hc; cbn [andb].
    + apply andb_true_iff in Ht as [Ht Ht']. apply andb_true_iff in Ht as [Hps H32].
      destruct ps; [discriminate|]. apply N.eqb_eq in H32. subst c.
      destruct in_sep; [specialize (Hsep eq_refl); discriminate|].
      destruct (from_option sentence_end false prev) eqn:Hprev; cbv beta iota.
      * (* a boundary: [part] is emitted *)
        match goal with
        | |- context [split_loop is_space t ?p ?a ?b] =>
            destruct (IH p a b true Ht') as (Hjoin & Hall & Hends)
        end.
        { intros rest Hrest. exact Hrest. }
        { reflexivity. }
        { discriminate. }
        split; [|split].
        -- rewrite join_cons by apply split_loop_nonempty. rewrite Hjoin. reflexivity.
        -- constructor; [|assumption]. specialize (Hpart [] eq_refl).
           rewrite app_nil_r in Hpart. exact Hpart.
        -- match goal with
           | |- context [split_loop is_space t ?p ?a ?b] =>
               destruct (split_loop is_space t p a b) eqn:Hsplit;
               [exfalso; eapply split_loop_nonempty; eassumption|]
           end.
           cbn [removelast]. constructor; [|assumption].
           specialize (Hlast eq_refl). destruct prev as [p|]; [|discriminate].
           simpl in Hprev. apply last_Some in Hlast as [w ->].
           exists w, p. split; [reflexivity | apply sentence_end_spec; exact Hprev].
      * (* a space inside a sentence *)
        match goal with
        | |- context [split_loop is_space t ?p ?a ?b] =>
            destruct (IH p a b true Ht') as (Hjoin & Hall & Hends)
        end.
        { intros rest Hrest. rewrite <- app_assoc. apply Hpart. simpl.
          rewrite Hc. simpl. exact Hrest. }
        { discriminate. }
        { discriminate. }
        rewrite <- app_assoc in Hjoin. auto.
    + cbv beta iota.
      match goal with
      | |- context [split_loop is_space t ?p ?a ?b] =>
          destruct (IH p a b false Ht) as (Hjoin & Hall & Hends)
      end.
      { intros rest Hrest. rewrite <- app_assoc. apply Hpart. simpl.
        rewrite Hc. exact Hrest. }
      { discriminate. }
      { intros _. apply last_snoc. }
      rewrite <- app_assoc in Hjoin. auto.
Qed.

Lemma strip_pieces_id (parts : list str) :
  Forall (fun p => spaced is_space p true = true) parts ->
  map (strip is_space) (filter (fun p => truthy (strip is_space p) = true) parts) = parts.
Proof.
  induction 1 as [|p parts Hp Hsp IH]; [reflexivity|].
  pose proof (spaced_strip p Hp) as Hstrip.
  destruct (spaced_head p Hp) as (x & y & Hpx & _ & _).
  rewrite filter_cons_True by (rewrite Hstrip, Hpx; reflexivity).
  simpl. rewrite Hstrip, IH. reflexivity.
Qed.

(** On a spaced text [split_sentences] is the split itself. *)
Lemma split_sentences_of_spaced (t : str) :
  spaced is_space t true = true ->
  split_sentences is_space t = split_loop is_space t None [] false.
Proof.
  intros Ht.
  destruct (split_loop_spaced t None [] false true Ht) as (_ & Hsp & _);
    try discriminate; [intros rest Hrest; exact Hrest|].
  unfold split_sentences. rewrite (spaced_strip t Ht).
  destruct (spaced_head t Ht) as (c & m & Heq & Hc & Hm).
  assert (collapse_whitespace is_space t false = t) as ->.
  { rewrite Heq. cbn [collapse_whitespace]. rewrite Hc.
    rewrite (spaced_collapse m false Hm). reflexivity. }
  rewrite Heq at 1. apply strip_pieces_id. exact Hsp.
Qed.

(** On a text that is not all whitespace, [split_sentences] returns the
    pieces of the split of the normalised text as they are. *)
Lemma split_sentences_spaced (text : str) :
  forallb is_space text = false ->
  let t := collapse_whitespace is_space (strip is_space text) false in
  spaced is_space t true = true
  /\ split_sentences is_space text = split_loop is_space t None [] false
  /\ split_sentences is_space text <> []
  /\ join [32%N] (split_sentences is_space text) = t
  /\ Forall (fun p => spaced is_space p true = true) (split_sentences is_space text)
  /\ Forall ends_sentence (removelast (split_sentences is_space text)).
Proof.
  intros Hall t.
  destruct (normalized_shape text) as [[Hall' _] | [_ Ht]]; [congruence|].
  fold t in Ht.
  destruct (split_loop_spaced t None [] false true Ht) as (Hjoin & Hsp & Hends);
    try discriminate; [intros rest Hrest; exact Hrest|].
  assert (split_sentences is_space text = split_loop is_space t None [] false) as Heq.
  { unfold split_sentences. fold t.
    destruct (spaced_head t Ht) as (c & m & Ht' & _ & _). rewrite Ht' at 1.
    apply strip_pieces_id. exact Hsp. }
  rewrite Heq. repeat split; try assumption. apply split_loop_nonempty.
Qed.

Lemma split_sentences_whitespace (text : str) :
  forallb is_space text = true -> split_sentences is_space text = [].
Proof.
  intros Hall. destruct (normalized_shape text) as [[_ Hn] | [Hall' _]]; [|congruence].
  unfold split_sentences. rewrite Hn. reflexivity.
Qed.

(** A text without a sentence boundary, that is without a whitespace
    character after [.], [!] or [?], is one piece. *)
Lemma split_loop_unbroken (t : str) (prev : option codepoint) (part : str) :
  unbroken is_space t prev = true ->
  split_loop is_space t prev part false = [part ++ t].
Proof.
  revert prev part. induction t as [|c t IH]; intros prev part; cbn [split_loop unbroken].
  - rewrite app_nil_r. reflexivity.
  - rewrite andb_false_r. intros H. apply andb_true_iff in H as [Hc Ht].
    apply negb_true_iff in Hc. rewrite Hc. rewrite (IH _ _ Ht), <- app_assoc. reflexivity.
Qed.

(** The pieces of the split of a spaced text hold no boundary. *)
Lemma split_loop_pieces_unbroken (t : str) (prev : option codepoint) (part : str)
    (in_sep ps : bool) :
  spaced is_space t ps = true ->
  (forall rest, unbroken is_space rest prev = true ->
                unbroken is_space (part ++ rest) None = true) ->
  (in_sep = true -> ps = true) ->
  Forall (fun p => unbroken is_space p None = true) (split_loop is_space t prev part in_sep).
Proof.
  revert prev part in_sep ps.
  induction t as [|c t IH]; intros prev part in_sep ps Ht Hpart Hsep; cbn [split_loop].
  - constructor; [|constructor]. specialize (Hpart [] eq_refl).
    rewrite app_nil_r in Hpart. exact Hpart.
  - simpl in Ht. destruct (is_space c) eqn:Hc; cbn [andb].
    + apply andb_true_iff in Ht as [Ht Ht']. apply andb_true_iff in Ht as [Hps H32].
      destruct ps; [discriminate|]. apply N.eqb_eq in H32. subst c.
      destruct in_sep; [specialize (Hsep eq_refl); discriminate|].
      destruct (from_option sentence_end false prev) eqn:Hprev; cbv beta iota.
      * constructor.
        -- specialize (Hpart [] eq_refl). rewrite app_nil_r in Hpart. exact Hpart.
        -- apply (IH _ _ _ true Ht'); [|reflexivity].
           intros rest Hrest. destruct rest as [|x rest]; [reflexivity|].
           cbn [app unbroken] in Hrest |- *. cbn in Hrest. rewrite andb_false_r in Hrest |- *.
           exact Hrest.
      * apply (IH _ _ _ true Ht'); [|discriminate].
        intros rest Hrest. rewrite <- app_assoc. apply Hpart.
        cbn [app unbroken]. rewrite Hprev, andb_false_r. exact Hrest.
    + cbv beta iota. apply (IH _ _ _ false Ht); [|discriminate].
      intros rest Hrest. rewrite <- app_assoc. apply Hpart.
      cbn [app unbroken]. rewrite Hc. exact Hrest.
Qed.
End SplitProperties.

(** X1: [split_sentences] returns no sentence exactly for a text that consists
    of whitespace only (the empty text included). *)
Theorem split_sentences_nil_iff (is_space : codepoint -> bool) (text : str) :
  split_sentences is_space text = [] <-> forallb is_space text = true.
Proof.
  split.
  - intros Hnil. destruct (forallb is_space text) eqn:Hall; [reflexivity|].
    destruct (split_sentences_spaced is_space text Hall) as (_ & _ & Hne & _). contradiction.
  - apply split_sentences_whitespace.
Qed.

(** X2: every sentence that [split_sentences] returns is non-empty and in
    normal form: stripping it and collapsing its whitespace change nothing
    (no whitespace at either end, and inside only single U+0020). *)
Theorem split_sentences_normal_form (is_space : codepoint -> bool) (text : str) :
  Forall (fun s => s <> []
                   /\ strip is_space s = s
                   /\ collapse_whitespace is_space s false = s)
         (split_sentences is_space text).
Proof.
  destruct (forallb is_space text) eqn:Hall.
  - rewrite (split_sentences_whitespace is_space text Hall). constructor.
  - destruct (split_sentences_spaced is_space text Hall) as (_ & _ & _ & _ & Hsp & _).
    eapply Forall_impl; [exact Hsp|]. intros s Hs. cbv beta in Hs.
    destruct (spaced_head is_space s Hs) as (c & m & Heq & Hc & Hm).
    split; [rewrite Heq; discriminate|]. split; [apply spaced_strip; assumption|].
    rewrite Heq. simpl. rewrite Hc. f_equal. apply spaced_collapse. assumption.
Qed.

(** X3: every sentence but the last one ends with [.], [!] or [?]. *)
Theorem split_sentences_boundaries (is_space : codepoint -> bool) (text : str) :
  Forall ends_sentence (removelast (split_sentences is_space text)).
Proof.
  destruct (forallb is_space text) eqn:Hall.
  - rewrite (split_sentences_whitespace is_space text Hall). constructor.
  - apply (split_sentences_spaced is_space text Hall).
Qed.

(** X4: joined by single spaces, the sentences give back the text with its
    ends stripped and its whitespace runs collapsed: splitting drops nothing
    else. *)
Theorem split_sentences_join (is_space : codepoint -> bool) (text : str) :
  join [32%N] (split_sentences is_space text)
  = collapse_whitespace is_space (strip is_space text) false.
Proof.
  destruct (forallb is_space text) eqn:Hall.
  - destruct (normalized_shape is_space text) as [[_ Hn] | [Hall' _]]; [|congruence].
    rewrite (split_sentences_whitespace is_space text Hall), Hn. reflexivity.
  - apply (split_sentences_spaced is_space text Hall).
Qed.

Example split_join_demo :
  join [32%N] (split_sentences py_is_space (u "  Dr. Who?   Yes!  "))
  = u "Dr. Who? Yes!".
Proof. reflexivity. Qed.

(** X5: splitting is stable: every sentence that [split_sentences] returns is
    split into itself alone, and the text put together again from the
    sentences is split into the same sentences. *)
Theorem split_sentences_stable (is_space : codepoint -> bool) (text : str) :
  Forall (fun s => split_sentences is_space s = [s]) (split_sentences is_space text)
  /\ split_sentences is_space (join [32%N] (split_sentences is_space text))
     = split_sentences is_space text.
Proof.
  destruct (forallb is_space text) eqn:Hall.
  - rewrite (split_sentences_whitespace is_space text Hall). split; [constructor|].
    reflexivity.
  - destruct (split_sentences_spaced is_space text Hall)
      as (Ht & Heq & _ & Hjoin & Hsp & _).
    split.
    + pose proof (split_loop_pieces_unbroken is_space _ None [] false true Ht) as Hunb.
      rewrite <- Heq in Hunb.
      assert (Forall (fun p => unbroken is_space p None = true)
                     (split_sentences is_space text)) as Hpieces.
      { apply Hunb; [|discriminate]. intros rest Hrest. exact Hrest. }
      clear Hunb Heq Hjoin.
      induction Hsp as [|s sents Hs Hsp IH]; [constructor|].
      apply Forall_cons in Hpieces as [Hu Hpieces].
      constructor; [|apply IH; assumption].
      rewrite (split_sentences_of_spaced is_space s Hs).
      apply (split_loop_unbroken is_space s None [] Hu).
    + rewrite Hjoin. rewrite (split_sentences_of_spaced is_space _ Ht). symmetry. exact Heq.
Qed.

(** ** Phrase features *)

Section PhraseFeatureProperties.
Variable lower : str -> str.

(** A scan that returns has appended the spans of the kept occurrences,
    whatever the number of iterations it was allowed. *)
Lemma scan_phrase_Ok (fuel : nat) (text_l p_l original : str) (start : nat)
    (spans spans' : list Span) :
  scan_phrase fuel text_l p_l original start spans = Ok spans' ->
  exists occs,
    scan_occurrences text_l p_l start occs
    /\ spans' = spans ++ map (span_at original (length p_l)) occs.
Proof.
  revert start spans. induction fuel as [|fuel IH]; intros start spans; simpl; [discriminate|].
  destruct (find text_l p_l start) as [idx|] eqn:Hfind.
  - intros H. apply IH in H as (occs & Hoccs & ->).
    apply find_Some in Hfind as (Hle & Hocc & Hfirst).
    exists (idx :: occs). split; [econstructor; eassumption|].
    rewrite <- app_assoc. reflexivity.
  - intros [= <-]. exists []. split.
    + constructor. exact (find_None _ _ _ Hfind).
    + simpl. rewrite app_nil_r. reflexivity.
Qed.

Lemma phrases_loop_Ok (fuel : nat) (text_l : str) (phrases : list str) (original : str)
    (spans spans' : list Span) :
  phrases_loop lower fuel text_l phrases original spans = Ok spans' ->
  Forall (fun p => lower p <> []) phrases
  /\ exists occs,
       Forall2 (fun p o => scan_occurrences text_l (lower p) 0 o) phrases occs
       /\ spans' = spans ++ concat (zip_with
                     (fun p o => map (span_at original (length (lower p))) o)
                     phrases occs).
Proof.
  revert spans. induction phrases as [|p phrases IH]; intros spans; simpl.
  - intros [= <-]. split; [constructor|]. exists []. split; [constructor|].
    simpl. rewrite app_nil_r. reflexivity.
  - intros H. apply bind_Ok in H as (mid & Hscan & H).
    assert (lower p <> []) as Hp.
    { intros Hnil. rewrite Hnil, scan_phrase_empty in Hscan by lia. discriminate. }
    apply scan_phrase_Ok in Hscan as (o & Ho & ->).
    apply IH in H as (Hphr & occs & Hoccs & ->).
    split; [constructor; assumption|].
    exists (o :: occs). split; [constructor; assumption|].
    simpl. rewrite <- app_assoc. reflexivity.
Qed.

Lemma scan_occurrences_nil_iff (t p : str) (occs : list nat) :
  scan_occurrences t p 0 occs ->
  occs <> [] <-> exists i, occurs_at t p i.
Proof.
  intros H. split.
  - intros Hne. inversion H as [? Hno|? i rest Hle Hocc _ _]; subst; [congruence|]. eauto.
  - intros [i Hi] ->. inversion H as [? Hno|]; subst. apply (Hno i); [lia | assumption].
Qed.

(** The span list of a lexicon is non-empty exactly when one of its phrases
    occurs in the lowercased text. *)
Lemma find_phrase_spans_truthy (fuel : nat) (s : str) (phrases : list str)
    (spans : list Span) :
  find_phrase_spans lower fuel (lower s) phrases s = Ok spans ->
  truthy spans = true <-> phrase_occurs lower phrases s.
Proof.
  unfold find_phrase_spans, phrase_occurs. intros H.
  apply phrases_loop_Ok in H as (_ & occs & Hoccs & ->). simpl.
  induction Hoccs as [|p o phrases occs Ho Hoccs IH]; simpl.
  - split; [discriminate|]. intros (p & i & Hp & _). inversion Hp.
  - pose proof (scan_occurrences_nil_iff _ _ _ Ho) as Hiff.
    destruct o as [|i o]; simpl.
    + rewrite IH. split.
      * intros (q & j & Hq & Hj). exists q, j. split; [right|]; assumption.
      * intros (q & j & Hq & Hj). apply elem_of_cons in Hq as [-> | Hq].
        -- exfalso. destruct Hiff as [_ Hiff]. apply Hiff; eauto.
        -- eauto.
    + split; [|reflexivity]. intros _.
      destruct Hiff as [Hiff _]. destruct Hiff as [j Hj]; [discriminate|].
      exists p, j. split; [left | assumption].
Qed.
End PhraseFeatureProperties.

(** What a returned analysis went through for each phrase feature. *)
Lemma lexicon_feature_run (lower : str -> str) (is_word : codepoint -> bool)
    (self : Analyzer) (fuel : nat) (s : str) (r : SentenceAnalysis)
    (k : string) (feature : Features -> bool) :
  analyze_sentence lower is_word self fuel s = Ok r ->
  (k, feature) ∈ lexicon_features ->
  exists phrases spans,
    lex self !! k = Some phrases
    /\ find_phrase_spans lower fuel (lower s) phrases s = Ok spans
    /\ feature (features r) = truthy spans.
Proof.
  intros H Hk. apply analyze_sentence_Ok_inv in H
    as (sp & cls & P & B & Hsp & _ & _ & _ & _ & _ & ->).
  unfold match_spans in Hsp. invert_binds. injection Hsp as <-.
  cbn [features analysis_of features_of].
  unfold lexicon_features in Hk.
  repeat (apply elem_of_cons in Hk as [Hk | Hk];
          [injection Hk as -> ->;
           match goal with
           | H : lexicon_spans lower self fuel (lower s) ?key s = Ok ?spans
             |- context [lex self !! ?key] =>
               unfold lexicon_spans in H; apply bind_Ok in H as (phrases & Hget & H);
               apply getitem_Ok in Hget; exists phrases, spans; split; [exact Hget|];
               split; [exact H | reflexivity]
           end|]).
  inversion Hk.
Qed.

(** X6: when an analysis is returned, each of the eight lexicons is present
    and has no phrase that lowercases to the empty string, and its feature is
    true exactly when some phrase of it occurs in the sentence, both
    lowercased. *)
Theorem phrase_feature_iff_occurs (lower : str -> str) (is_word : codepoint -> bool)
    (self : Analyzer) (fuel : nat) (s : str) (r : SentenceAnalysis)
    (k : string) (feature : Features -> bool) :
  analyze_sentence lower is_word self fuel s = Ok r ->
  (k, feature) ∈ lexicon_features ->
  exists phrases,
    lex self !! k = Some phrases
    /\ Forall (fun p => lower p <> []) phrases
    /\ (feature (features r) = true <-> phrase_occurs lower phrases s).
Proof.
  intros H Hk.
  destruct (lexicon_feature_run lower is_word self fuel s r k feature H Hk)
    as (phrases & spans & Hget & Hrun & ->).
  exists phrases. split; [exact Hget|]. split.
  - unfold find_phrase_spans in Hrun. apply phrases_loop_Ok in Hrun as [Hne _]. exact Hne.
  - eapply find_phrase_spans_truthy. exact Hrun.
Qed.

(** ** Phrase lists put together *)

Lemma scan_phrase_acc (fuel : nat) (text_l p_l original : str) (start : nat)
    (acc : list Span) :
  scan_phrase fuel text_l p_l original start acc
  = scan_phrase fuel text_l p_l original start [] ≫= fun x => Ok (acc ++ x).
Proof.
  revert start acc. induction fuel as [|fuel IH]; intros start acc; [reflexivity|].
  cbn [scan_phrase]. destruct (find text_l p_l start) as [idx|].
  - rewrite (IH _ (acc ++ _)), (IH _ ([] ++ _)).
    destruct (scan_phrase fuel text_l p_l original (idx + length p_l) []); simpl;
      [rewrite <- app_assoc|]; reflexivity.
  - simpl. rewrite app_nil_r. reflexivity.
Qed.

Lemma phrases_loop_acc (lower : str -> str) (fuel : nat) (text_l : str)
    (phrases : list str) (original : str) (acc : list Span) :
  phrases_loop lower fuel text_l phrases original acc
  = phrases_loop lower fuel text_l phrases original [] ≫= fun x => Ok (acc ++ x).
Proof.
  revert acc. induction phrases as [|p phrases IH]; intros acc; cbn [phrases_loop].
  - simpl. rewrite app_nil_r. reflexivity.
  - rewrite (scan_phrase_acc _ _ _ _ _ acc).
    destruct (scan_phrase fuel text_l (lower p) original 0 []) as [x|e]; [|reflexivity].
    cbn [mbind result_bind]. rewrite (IH (acc ++ x)), (IH x).
    destruct (phrases_loop lower fuel text_l phrases original []); simpl;
      [rewrite <- app_assoc|]; reflexivity.
Qed.

(** X14: the spans of a phrase list that is put together from two lists are
    the spans of the first list followed by those of the second; an error in
    either is the error of the whole, the first one first. *)
Theorem find_phrase_spans_app (lower : str -> str) (fuel : nat) (text_l : str)
    (phrases1 phrases2 : list str) (original : str) :
  find_phrase_spans lower fuel text_l (phrases1 ++ phrases2) original
  = a ← find_phrase_spans lower fuel text_l phrases1 original;
    b ← find_phrase_spans lower fuel text_l phrases2 original;
    Ok (a ++ b).
Proof.
  unfold find_phrase_spans. generalize (@nil Span) at 1 3. 
  induction phrases1 as [|p phrases1 IH]; intros acc; cbn [app phrases_loop].
  - cbn [mbind result_bind]. apply phrases_loop_acc.
  - destruct (scan_phrase fuel text_l (lower p) original 0 acc) as [x|e]; [|reflexivity].
    cbn [mbind result_bind]. apply IH.
Qed.

(** ** Flags and scores of one sentence *)

Lemma match_spans_set_lexicon (lower : str -> str) (self : Analyzer) (k : string)
    (phrases : list str) (fuel : nat) (s_l s : str) (sp1 sp2 : SpanSets) :
  k = "hedges" \/ k = "values_language" ->
  match_spans lower self fuel s_l s = Ok sp1 ->
  match_spans lower (set_lexicon self k phrases) fuel s_l s = Ok sp2 ->
  outcome_spans sp2 = outcome_spans sp1 /\ speed_spans sp2 = speed_spans sp1
  /\ super_spans sp2 = super_spans sp1 /\ proof_spans sp2 = proof_spans sp1
  /\ buzz_spans sp2 = buzz_spans sp1 /\ mech_spans sp2 = mech_spans sp1
  /\ metric_spans sp2 = metric_spans sp1 /\ timeframe_spans sp2 = timeframe_spans sp1
  /\ baseline_spans sp2 = baseline_spans sp1 /\ scope_spans sp2 = scope_spans sp1
  /\ passive_spans sp2 = passive_spans sp1.
Proof.
  intros Hk H1 H2. unfold match_spans in H1, H2. invert_binds.
  injection H1 as <-. injection H2 as <-. cbn.
  assert (forall key, key <> k ->
            lexicon_spans lower (set_lexicon self k phrases) fuel s_l key s
            = lexicon_spans lower self fuel s_l key s) as Hsame.
  { intros key Hne. unfold lexicon_spans, getitem, set_lexicon. cbn [lex].
    rewrite lookup_insert_ne by congruence. reflexivity. }
  repeat match goal with
         | H : lexicon_spans lower (set_lexicon self k phrases) fuel s_l ?key s = Ok _ |- _ =>
             rewrite (Hsame key) in H by (destruct Hk as [-> | ->]; discriminate)
         end.
  repeat split; congruence.
Qed.

(** X7: the lexicons [hedges] and [values_language] never reach the flags or
    the score: replacing either leaves the flags, the score breakdown and the
    total score of every sentence as they were. *)
Theorem hedges_do_not_score (lower : str -> str) (is_word : codepoint -> bool)
    (self : Analyzer) (k : string) (phrases : list str) (fuel : nat) (s : str)
    (r1 r2 : SentenceAnalysis) :
  k = "hedges" \/ k = "values_language" ->
  analyze_sentence lower is_word self fuel s = Ok r1 ->
  analyze_sentence lower is_word (set_lexicon self k phrases) fuel s = Ok r2 ->
  flags r2 = flags r1
  /\ score_breakdown r2 = score_breakdown r1
  /\ total_score r2 = total_score r1.
Proof.
  intros Hk H1 H2.
  apply analyze_sentence_Ok_inv in H1
    as (sp1 & cls1 & P1 & B1 & Hsp1 & _ & HP1 & HB1 & _ & _ & ->).
  apply analyze_sentence_Ok_inv in H2
    as (sp2 & cls2 & P2 & B2 & Hsp2 & _ & HP2 & HB2 & _ & _ & ->).
  cbn [set_lexicon wt] in HP2, HB2.
  rewrite HP1 in HP2. rewrite HB1 in HB2. injection HP2 as <-. injection HB2 as <-.
  destruct (match_spans_set_lexicon lower self k phrases fuel (lower s) s sp1 sp2 Hk Hsp1 Hsp2)
    as (E1 & E2 & E3 & E4 & E5 & E6 & E7 & E8 & E9 & E10 & E11).
  unfold analysis_of, penalty_rules, bonus_rules, features_of.
  cbn [flags score_breakdown total_score outcome_present speed_present
       superlative_present proof_implied buzzword_present mechanism_present
       metric_present timeframe_present baseline_present scope_present passive_present].
  rewrite E1, E2, E3, E4, E5, E6, E7, E8, E9, E10, E11. repeat split.
Qed.

Lemma fired_elem (rules : list Rule) (r : Rule) :
  r ∈ fired rules <-> r ∈ rules /\ r_trigger r = true.
Proof.
  unfold fired. rewrite list_elem_of_filter. split.
  - intros [Ht Hin]. split; [assumption | apply Is_true_true; assumption].
  - intros [Hin Ht]. split; [apply Is_true_true; assumption | assumption].
Qed.

Lemma fired_conditions (rules : list Rule) :
  map r_type (fired rules)
  = map fst (filter (fun c : string * bool => snd c)
               (map (fun r => (r_type r, r_trigger r)) rules)).
Proof.
  induction rules as [|r rules IH]; [reflexivity|].
  rewrite fired_cons. cbn [map]. destruct (r_trigger r) eqn:Hr.
  - rewrite filter_cons_True by exact I. simpl. f_equal. exact IH.
  - rewrite filter_cons_False by exact id. exact IH.
Qed.

Lemma flag_types_of_result (lower : str -> str) (is_word : codepoint -> bool)
    (self : Analyzer) (fuel : nat) (s : str) (r : SentenceAnalysis) :
  analyze_sentence lower is_word self fuel s = Ok r ->
  map fl_type (flags r)
  = map fst (filter (fun c : string * bool => snd c)
               (flag_conditions (features r) (search_process is_word (lower s)))).
Proof.
  intros H. apply analyze_sentence_Ok_inv in H
    as (sp & cls & P & B & _ & _ & _ & _ & _ & _ & ->).
  unfold analysis_of. cbn [flags features]. rewrite map_map.
  change (fun x => fl_type (flag_of x)) with r_type.
  rewrite fired_conditions. reflexivity.
Qed.

(** X8: the flags of a returned analysis can be read off its feature map and
    the process-word search: their types are those of the rules whose trigger
    holds, in the fixed order of the ten rules, each at most once. *)
Theorem flags_from_features (lower : str -> str) (is_word : codepoint -> bool)
    (self : Analyzer) (fuel : nat) (s : str) (r : SentenceAnalysis) :
  analyze_sentence lower is_word self fuel s = Ok r ->
  map fl_type (flags r)
  = map fst (filter (fun c : string * bool => snd c)
               (flag_conditions (features r) (search_process is_word (lower s))))
  /\ sublist (map fl_type (flags r)) penalty_keys
  /\ NoDup (map fl_type (flags r)).
Proof.
  intros H. pose proof (flag_types_of_result lower is_word self fuel s r H) as Htypes.
  assert (sublist (map fl_type (flags r)) penalty_keys) as Hsub.
  { rewrite Htypes.
    change penalty_keys
      with (map fst (flag_conditions (features r) (search_process is_word (lower s)))).
    apply (fmap_sublist fst). apply sublist_filter. }
  split; [exact Htypes|]. split; [exact Hsub|].
  eapply sublist_NoDup; [apply penalty_keys_NoDup | exact Hsub].
Qed.

(** X9: evidence switches rules off: a returned analysis has no flag
    [outcome_without_metric] or [superlative_unbounded] when [metric_present]
    is true, no [speed_without_timeframe] with [timeframe_present], no
    [outcome_without_baseline] with [baseline_present], no
    [outcome_without_scope] with [scope_present], and none of
    [buzzword_no_mechanism], [outcome_without_mechanism] and
    [process_no_levers] with [mechanism_present]. *)
Theorem evidence_suppresses_flags (lower : str -> str) (is_word : codepoint -> bool)
    (self : Analyzer) (fuel : nat) (s : str) (r : SentenceAnalysis) (fl : Flag) :
  analyze_sentence lower is_word self fuel s = Ok r ->
  fl ∈ flags r ->
  (metric_present (features r) = true ->
   fl_type fl <> "outcome_without_metric" /\ fl_type fl <> "superlative_unbounded")
  /\ (timeframe_present (features r) = true -> fl_type fl <> "speed_without_timeframe")
  /\ (baseline_present (features r) = true -> fl_type fl <> "outcome_without_baseline")
  /\ (scope_present (features r) = true -> fl_type fl <> "outcome_without_scope")
  /\ (mechanism_present (features r) = true ->
      fl_type fl <> "buzzword_no_mechanism" /\ fl_type fl <> "outcome_without_mechanism"
      /\ fl_type fl <> "process_no_levers").
Proof.
  intros H Hfl. apply analyze_sentence_Ok_inv in H
    as (sp & cls & P & B & _ & _ & _ & _ & _ & _ & ->).
  unfold analysis_of in Hfl |- *. cbn [flags features] in Hfl |- *.
  apply list_elem_of_fmap in Hfl as (rule & -> & Hrule).
  apply fired_elem in Hrule as [Hin Htrig].
  unfold penalty_rules in Hin.
  repeat (apply elem_of_cons in Hin as [-> | Hin];
          [cbn in Htrig |- *;
           repeat match goal with
                  | H : _ && _ = true |- _ => apply andb_true_iff in H as [H ?]
                  end;
           repeat match goal with
                  | H : negb _ = true |- _ => apply negb_true_iff in H
                  end;
           repeat split; intros; congruence|]).
  inversion Hin.
Qed.

(** X10: every flag of a returned analysis carries at least one span. *)
Theorem flags_have_spans (lower : str -> str) (is_word : codepoint -> bool)
    (self : Analyzer) (fuel : nat) (s : str) (r : SentenceAnalysis) :
  analyze_sentence lower is_word self fuel s = Ok r ->
  Forall (fun fl => fl_spans fl <> []) (flags r).
Proof.
  intros H. apply analyze_sentence_Ok_inv in H
    as (sp & cls & P & B & _ & _ & _ & _ & _ & _ & ->).
  unfold analysis_of. cbn [flags]. apply Forall_fmap, Forall_forall.
  intros rule Hrule. apply fired_elem in Hrule as [Hin Htrig].
  unfold penalty_rules, features_of in Hin. cbn in Hin.
  repeat (apply elem_of_cons in Hin as [-> | Hin];
          [cbn in Htrig |- *;
           repeat match goal with
                  | H : _ && _ = true |- _ => apply andb_true_iff in H as [H ?]
                  end;
           first [discriminate
                 | match goal with
                   | H : truthy ?l = true |- ?l <> [] => intros Hnil; rewrite Hnil in H; discriminate
                   end]|]).
  inversion Hin.
Qed.

(** X11: the flag [process_no_levers] carries exactly one span, the whole
    sentence with its own text, whatever lowercasing does to the length. *)
Theorem process_flag_spans_sentence (lower : str -> str) (is_word : codepoint -> bool)
    (self : Analyzer) (fuel : nat) (s : str) (r : SentenceAnalysis) (fl : Flag) :
  analyze_sentence lower is_word self fuel s = Ok r ->
  fl ∈ flags r ->
  fl_type fl = "process_no_levers" ->
  fl_spans fl = [mkSpan 0 (length s) s]
  /\ Forall (span_ok s) (fl_spans fl)
  /\ search_process is_word (lower s) = true
  /\ mechanism_present (features r) = false.
Proof.
  intros H Hfl Htype. apply analyze_sentence_Ok_inv in H
    as (sp & cls & P & B & _ & _ & _ & _ & _ & _ & ->).
  unfold analysis_of in Hfl |- *. cbn [flags features] in Hfl |- *.
  apply list_elem_of_fmap in Hfl as (rule & -> & Hrule).
  apply fired_elem in Hrule as [Hin Htrig].
  unfold penalty_rules in Hin.
  repeat (apply elem_of_cons in Hin as [-> | Hin]; [try discriminate Htype|]).
  - cbn in Htrig |- *. apply andb_true_iff in Htrig as [Hproc Hmech].
    apply negb_true_iff in Hmech.
    repeat split; try assumption.
    constructor; [apply whole_sentence_span_ok | constructor].
  - inversion Hin.
Qed.

Lemma sum_weights_nonneg (B : gmap string Z) (ks : list string) :
  (forall k w, B !! k = Some w -> 0 <= w) -> 0 <= sum (map (weight B) ks).
Proof.
  intros Hpos. induction ks as [|k ks IH]; [simpl; lia|].
  change (sum (map (weight B) (k :: ks))) with (weight B k + sum (map (weight B) ks)).
  unfold weight at 1. destruct (B !! k) as [w|] eqn:Hw; simpl; [|lia].
  specialize (Hpos k w Hw). lia.
Qed.

(** X12: evidence never raises a score: when no bonus weight is negative the
    total score is at most the clamped penalties, and a sentence that triggers
    no rule scores 0. *)
Theorem bonus_only_lowers (lower : str -> str) (is_word : codepoint -> bool)
    (self : Analyzer) (fuel : nat) (s : str) (r : SentenceAnalysis)
    (B : gmap string Z) :
  analyze_sentence lower is_word self fuel s = Ok r ->
  wt self !! "bonuses" = Some B ->
  (forall k w, B !! k = Some w -> 0 <= w) ->
  0 <= bonus (score_breakdown r)
  /\ total_score r <= clamp (penalties (score_breakdown r)) 0 100
  /\ (flags r = [] -> penalties (score_breakdown r) = 0 /\ total_score r = 0).
Proof.
  intros H HB Hpos. apply analyze_sentence_Ok_inv in H
    as (sp & cls & P & B' & _ & _ & _ & HB' & _ & Hgranted & ->).
  rewrite HB in HB'. injection HB' as <-.
  unfold analysis_of. cbn [flags score_breakdown penalties bonus total_score].
  pose proof (sum_weights_nonneg B (granted (bonus_rules (features_of sp))) Hpos) as Hbon.
  rewrite <- max_min_clamp.
  split; [assumption|]. split; [lia|].
  intros Hnil. apply fmap_nil_inv in Hnil. rewrite Hnil. cbn [map sum foldr].
  split; [reflexivity | lia].
Qed.

(** X13: the empty sentence.  When lowercasing the empty string gives the
    empty string, a returned analysis of it has no phrase feature set, finds
    no process word, and can carry no flag but [passive_voice] (which a
    pattern that matches the empty string triggers). *)
Theorem empty_sentence (lower : str -> str) (is_word : codepoint -> bool)
    (self : Analyzer) (fuel : nat) (r : SentenceAnalysis) :
  lower [] = [] ->
  analyze_sentence lower is_word self fuel [] = Ok r ->
  Forall (fun kf : string * (Features -> bool) => snd kf (features r) = false)
         lexicon_features
  /\ search_process is_word (lower []) = false
  /\ Forall (fun fl => fl_type fl = "passive_voice") (flags r).
Proof.
  intros Hlower H.
  assert (Forall (fun kf : string * (Features -> bool) => snd kf (features r) = false)
                 lexicon_features) as Hfeat.
  { apply Forall_forall. intros [k feature] Hk. simpl.
    destruct (lexicon_feature_run lower is_word self fuel [] r k feature H Hk)
      as (phrases & spans & Hget & Hrun & ->).
    destruct (truthy spans) eqn:Hf; [|reflexivity]. exfalso.
    apply (find_phrase_spans_truthy lower fuel [] phrases spans Hrun) in Hf
      as (p & i & Hp & Hlen & _).
    unfold find_phrase_spans in Hrun. apply phrases_loop_Ok in Hrun as [Hne _].
    rewrite Forall_forall in Hne. specialize (Hne p Hp).
    rewrite Hlower in Hlen. simpl in Hlen.
    destruct (lower p); [congruence | simpl in Hlen; lia]. }
  assert (search_process is_word (lower []) = false) as Hproc
    by (rewrite Hlower; reflexivity).
  split; [exact Hfeat|]. split; [exact Hproc|].
  pose proof (flag_types_of_result lower is_word self fuel [] r H) as Htypes.
  rewrite Hproc in Htypes. apply (Forall_fmap fl_type (fun t => t = "passive_voice")).
  change (fl_type <$> flags r) with (map fl_type (flags r)). rewrite Htypes.
  unfold lexicon_features in Hfeat. repeat (apply Forall_cons in Hfeat as [? Hfeat]).
  cbn [snd] in *.
  destruct (features r) as [fo fsp fh fsu fpr fbz fme fva fmt ftf fbl fsc fpa].
  cbn in *. subst. destruct fpa; vm_compute; repeat constructor.
Qed.

(** ** Whole texts *)

Section TextProperties.
Variable lower : str -> str.
Variable is_word : codepoint -> bool.
Variable is_space : codepoint -> bool.

Lemma analyze_all_Ok (self : Analyzer) (fuel : nat) (sents : list str)
    (analyses : list SentenceAnalysis) :
  analyze_all lower is_word self fuel sents = Ok analyses <->
  Forall2 (fun s a => analyze_sentence lower is_word self fuel s = Ok a) sents analyses.
Proof.
  revert analyses. induction sents as [|s sents IH]; intros analyses; simpl.
  - split.
    + intros [= <-]. constructor.
    + intros H. inversion H. reflexivity.
  - split.
    + intros H. apply bind_Ok in H as (a & Ha & H). apply bind_Ok in H as (rest & Hrest & H).
      injection H as <-. constructor; [assumption | apply IH; assumption].
    + intros H. inversion H as [|? a ? rest Ha Hrest]; subst.
      apply IH in Hrest. rewrite Ha. simpl. rewrite Hrest. reflexivity.
Qed.

Lemma analyze_all_Err (self : Analyzer) (fuel : nat) (sents : list str) (e : error) :
  analyze_all lower is_word self fuel sents = Err e <->
  exists before s after,
    sents = before ++ s :: after
    /\ Forall (fun s' => exists a, analyze_sentence lower is_word self fuel s' = Ok a) before
    /\ analyze_sentence lower is_word self fuel s = Err e.
Proof.
  induction sents as [|s sents IH]; cbn [analyze_all].
  - split; [discriminate|]. intros (before & s & after & Heq & _). destruct before; discriminate.
  - destruct (analyze_sentence lower is_word self fuel s) as [a|e'] eqn:Ha;
      cbn [mbind result_bind].
    + assert (forall m : result (list SentenceAnalysis),
                 (m ≫= fun rest => Ok (a :: rest)) = Err e <-> m = Err e) as Hbind.
      { intros [rest|e'']; simpl; split; congruence. }
      rewrite Hbind, IH. split.
      * intros (before & s' & after & -> & Hbefore & Herr).
        exists (s :: before), s', after. split; [reflexivity|]. split; [|assumption].
        constructor; eauto.
      * intros (before & s' & after & Heq & Hbefore & Herr).
        destruct before as [|b before]; simpl in Heq; injection Heq as -> ->.
        -- congruence.
        -- apply Forall_cons in Hbefore as [_ Hbefore]. eauto 6.
    + split.
      * intros [= ->]. exists [], s, sents. repeat split; [constructor | assumption].
      * intros (before & s' & after & Heq & Hbefore & Herr).
        destruct before as [|b before]; simpl in Heq; injection Heq as -> ->.
        -- congruence.
        -- apply Forall_cons in Hbefore as [[a Ha'] _]. congruence.
Qed.

Lemma aggregate_sentences (analyses : list SentenceAnalysis) :
  sentences (aggregate analyses) = analyses
  /\ n_sentences (overall (aggregate analyses)) = length analyses.
Proof. destruct analyses; split; reflexivity. Qed.

Lemma analyze_sentence_echo (self : Analyzer) (fuel : nat) (s : str) (a : SentenceAnalysis) :
  analyze_sentence lower is_word self fuel s = Ok a -> sentence a = s.
Proof.
  intros H. apply analyze_sentence_Ok_inv in H
    as (sp & cls & P & B & _ & _ & _ & _ & _ & _ & ->). reflexivity.
Qed.

(** A returned document is the summary of the analyses of its sentences. *)
Lemma analyze_text_Ok_inv (self : Analyzer) (fuel : nat) (text : str)
    (res : AnalysisResult) :
  analyze_text lower is_word is_space self fuel text = Ok res ->
  exists analyses,
    res = aggregate analyses
    /\ Forall2 (fun s a => analyze_sentence lower is_word self fuel s = Ok a)
               (split_sentences is_space text) analyses.
Proof.
  unfold analyze_text. intros H. apply bind_Ok in H as (analyses & Hall & H).
  injection H as <-. apply analyze_all_Ok in Hall. eauto.
Qed.
End TextProperties.

(** X16: a returned document analysis has one sentence analysis per sentence
    of [split_sentences], in order: each is what [analyze_sentence] returns
    for that sentence and echoes it, and [n_sentences] counts them. *)
Theorem analyze_text_sentences (lower : str -> str) (is_word is_space : codepoint -> bool)
    (self : Analyzer) (fuel : nat) (text : str) (res : AnalysisResult) :
  analyze_text lower is_word is_space self fuel text = Ok res ->
  Forall2 (fun s a => analyze_sentence lower is_word self fuel s = Ok a)
          (split_sentences is_space text) (sentences res)
  /\ map sentence (sentences res) = split_sentences is_space text
  /\ n_sentences (overall res) = length (split_sentences is_space text).
Proof.
  intros H. apply analyze_text_Ok_inv in H as (analyses & -> & Hall).
  destruct (aggregate_sentences analyses) as [-> ->].
  split; [assumption|]. split.
  - induction Hall as [|s a sents analyses Ha Hall IH]; [reflexivity|].
    simpl. rewrite IH. f_equal. eapply analyze_sentence_echo; eassumption.
  - symmetry. eapply Forall2_length; eassumption.
Qed.

(** X17: [analyze_text] raises exactly when the analysis of some sentence
    does, and then it raises the error of the first such sentence. *)
Theorem analyze_text_error (lower : str -> str) (is_word is_space : codepoint -> bool)
    (self : Analyzer) (fuel : nat) (text : str) (e : error) :
  analyze_text lower is_word is_space self fuel text = Err e <->
  exists before s after,
    split_sentences is_space text = before ++ s :: after
    /\ Forall (fun s' => exists a, analyze_sentence lower is_word self fuel s' = Ok a) before
    /\ analyze_sentence lower is_word self fuel s = Err e.
Proof.
  rewrite <- analyze_all_Err. unfold analyze_text.
  destruct (analyze_all lower is_word self fuel (split_sentences is_space text));
    simpl; split; congruence.
Qed.

Lemma label_values (x : Q) : label x ∈ document_labels.
Proof.
  unfold label, document_labels.
  destruct (Qle_bool x 25); [left|].
  destruct (Qle_bool x 50); [right; left|].
  destruct (Qle_bool x 75); [right; right; left | right; right; right; left].
Qed.

(** X18: a text of whitespace only is never analysed: whatever the analyzer,
    also one with missing keys, the result is the fixed empty document.  The
    label "Empty" and the count 0 occur for such texts only; any other
    returned document has one of the four threshold labels. *)
Theorem empty_document (lower : str -> str) (is_word is_space : codepoint -> bool)
    (self : Analyzer) (fuel : nat) (text : str) :
  (forallb is_space text = true ->
   analyze_text lower is_word is_space self fuel text = Ok (aggregate []))
  /\ forall res,
       analyze_text lower is_word is_space self fuel text = Ok res ->
       (overall_label (overall res) = "Empty" <-> forallb is_space text = true)
       /\ (n_sentences (overall res) = 0%nat <-> forallb is_space text = true)
       /\ (forallb is_space text = false -> overall_label (overall res) ∈ document_labels).
Proof.
  split.
  - intros Hall. unfold analyze_text.
    rewrite (split_sentences_whitespace is_space text Hall). reflexivity.
  - intros res H. apply analyze_text_Ok_inv in H as (analyses & -> & Hall).
    destruct analyses as [|a analyses].
    + inversion Hall as [Hnil|]. symmetry in Hnil.
      assert (forallb is_space text = true) as Ht.
      { destruct (forallb is_space text) eqn:Hf; [reflexivity|].
        destruct (split_sentences_spaced is_space text Hf) as (_ & _ & Hne & _).
        contradiction. }
      split; [tauto|]. split; [tauto|]. congruence.
    + inversion Hall as [|s ? sents ? _ _ Hsplit]; subst.
      assert (forallb is_space text = true -> False) as Hnot.
      { intros Ht. apply (split_sentences_whitespace is_space) in Ht. congruence. }
      assert (overall_label (overall (aggregate (a :: analyses))) ∈ document_labels) as Hlab
        by apply label_values.
      split; [|split].
      * split; [|tauto]. intros Heq. rewrite Heq in Hlab.
        apply (bool_decide_pack _) in Hlab. vm_compute in Hlab. contradiction.
      * split; [discriminate | tauto].
      * intros _. exact Hlab.
Qed.

(** ** The document summary *)

Lemma max_list_spec (x : Z) (rest : list Z) :
  max_list (x :: rest) ∈ x :: rest /\ Forall (fun y => y <= max_list (x :: rest)) (x :: rest).
Proof.
  unfold max_list. revert x. induction rest as [|y rest IH]; intros x.
  - simpl. split; [left | constructor; [lia | constructor]].
  - cbn [foldl]. destruct (IH (Z.max x y)) as [Hin Hall]. split.
    + apply elem_of_cons in Hin as [Heq | Hin].
      * rewrite Heq. destruct (Z.max_spec x y) as [[_ ->] | [_ ->]]; [right; left | left].
      * right. right. assumption.
    + apply Forall_cons in Hall as [Hmax Hall].
      constructor; [lia|]. constructor; [lia | assumption].
Qed.

Lemma sum_bounds (lo hi : Z) (scores : list Z) :
  Forall (fun x => lo <= x <= hi) scores ->
  lo * Z.of_nat (length scores) <= sum scores <= hi * Z.of_nat (length scores).
Proof.
  induction 1 as [|x scores Hx _ IH]; [simpl; lia|].
  change (sum (x :: scores)) with (x + sum scores).
  rewrite length_cons, Nat2Z.inj_succ. lia.
Qed.

Lemma round_half_even_bounds (num : Z) (den : positive) (a b : Z) :
  a * Z.pos den <= num <= b * Z.pos den ->
  a <= round_half_even (num # den) <= b.
Proof.
  intros Hb. unfold round_half_even. cbn [Qnum Qden].
  pose proof (Z.div_mod num (Z.pos den) ltac:(lia)) as Hdm.
  pose proof (Z.mod_pos_bound num (Z.pos den) ltac:(lia)) as Hr.
  set (q := num / Z.pos den) in *. set (m := num mod Z.pos den) in *.
  assert (a <= q) by nia. assert (q <= b) by nia.
  assert (q = b -> m = 0) by nia.
  destruct (Z.compare_spec (2 * m) (Z.pos den)) as [Heq | Hlt | Hgt].
  - destruct (Z.even q); [lia|]. assert (q <> b) by lia. lia.
  - lia.
  - assert (q <> b) by lia. lia.
Qed.

(** The nearest integer is at most one half away. *)
Lemma round_half_even_near (num : Z) (den : positive) :
  2 * num - Z.pos den <= 2 * Z.pos den * round_half_even (num # den) <= 2 * num + Z.pos den.
Proof.
  unfold round_half_even. cbn [Qnum Qden].
  pose proof (Z.div_mod num (Z.pos den) ltac:(lia)) as Hdm.
  pose proof (Z.mod_pos_bound num (Z.pos den) ltac:(lia)) as Hr.
  set (q := num / Z.pos den) in *. set (m := num mod Z.pos den) in *.
  destruct (Z.compare_spec (2 * m) (Z.pos den)); [destruct (Z.even q)|..]; nia.
Qed.

(** Below 128 the last bit of a double is worth at most [2^-46]. *)
Lemma exponent64_small (x : Q) :
  0 < Qnum x -> Qnum x < 128 * Z.pos (Qden x) -> exponent64 x <= -46.
Proof.
  intros Hpos Hlt. unfold exponent64. rewrite Z.abs_eq by lia.
  assert (Z.log2 (Qnum x) <= Z.log2 (Z.pos (Qden x)) + 7) as Hlog.
  { transitivity (Z.log2 (Z.pos (Qden x) * 2 ^ 7)).
    - apply Z.log2_le_mono. lia.
    - rewrite Z.log2_mul_pow2 by lia. lia. }
  set (e0 := Z.log2 (Qnum x) - Z.log2 (Z.pos (Qden x)) - 52) in *.
  destruct (Qle_bool _ _) eqn:Htest; [|lia].
  destruct (decide (e0 = -45)) as [He|He]; [|lia].
  exfalso. rewrite He in Htest. apply Qle_bool_iff in Htest.
  unfold scale2, Qle, Qmult, inject_Z in Htest. cbn in Htest. lia.
Qed.

(** A double below 128, written over the power of two of its last bit. *)
Lemma binary64_small (x : Q) :
  0 < Qnum x -> Qnum x < 128 * Z.pos (Qden x) ->
  exists E, 2 ^ 46 <= E
    /\ binary64 x = (inject_Z (round_half_even (Qnum x * E # Qden x)) / inject_Z E)%Q.
Proof.
  intros Hpos Hlt. pose proof (exponent64_small x Hpos Hlt) as He.
  exists (2 ^ (- exponent64 x)). split; [apply Z.pow_le_mono_r; lia|].
  unfold binary64. destruct (Z.eqb_spec (Qnum x) 0) as [|_]; [lia|].
  cbv zeta. unfold scale2.
  destruct (Z.leb_spec 0 (exponent64 x)); [lia|].
  destruct (Z.leb_spec 0 (- exponent64 x)); [|lia].
  unfold Qmult at 1, inject_Z at 2. cbn [Qnum Qden]. rewrite Pos.mul_1_r. reflexivity.
Qed.

Lemma Qle_div_l (m c E : Z) :
  0 < E -> (inject_Z m / inject_Z E <= inject_Z c)%Q <-> m <= c * E.
Proof.
  intros HE. destruct E as [|pe|pe]; try lia.
  unfold Qle, Qdiv, Qmult, Qinv, inject_Z. cbn [Qnum Qden]. lia.
Qed.

Lemma Qle_div_r (m c E : Z) :
  0 < E -> (inject_Z c <= inject_Z m / inject_Z E)%Q <-> c * E <= m.
Proof.
  intros HE. destruct E as [|pe|pe]; try lia.
  unfold Qle, Qdiv, Qmult, Qinv, inject_Z. cbn [Qnum Qden]. lia.
Qed.

Lemma true_div_num_den (t : Z) (n : positive) :
  Qnum (true_div t (Z.pos n)) = t /\ Qden (true_div t (Z.pos n)) = n.
Proof.
  unfold true_div, Qdiv, Qmult, Qinv, inject_Z. cbn [Qnum Qden].
  split; [lia | reflexivity].
Qed.

(** A quotient in a range of small integers has its double in that range. *)
Lemma binary64_bounds (total n lo hi : Z) :
  0 < n -> 0 <= lo -> hi <= 100 -> lo * n <= total <= hi * n ->
  (inject_Z lo <= binary64 (true_div total n) <= inject_Z hi)%Q.
Proof.
  intros Hn Hlo Hhi Hb. destruct n as [|pn|pn]; try lia.
  destruct (true_div_num_den total pn) as [Hnum Hden].
  destruct (decide (total = 0)) as [->|Hne].
  - unfold binary64. rewrite Hnum. cbn [Z.eqb].
    unfold Qle, inject_Z. cbn [Qnum Qden]. lia.
  - destruct (binary64_small (true_div total (Z.pos pn))) as (E & HE & ->);
      rewrite ?Hnum, ?Hden; try nia.
    rewrite Qle_div_l, Qle_div_r by lia.
    pose proof (round_half_even_bounds (total * E) pn (lo * E) (hi * E)) as H.
    apply and_comm. apply and_comm in H; [exact H|]. nia.
Qed.

(** For fewer than [2^47] scores between 0 and 100 the double nearest to the
    mean compares with a whole number as the mean itself does. *)
Lemma Qle_bool_binary64 (total n c : Z) :
  0 < n < 2 ^ 47 -> 0 <= total <= 100 * n -> 0 <= c ->
  Qle_bool (binary64 (true_div total n)) (inject_Z c)
  = Qle_bool (true_div total n) (inject_Z c).
Proof.
  intros Hn Hb Hc. destruct n as [|pn|pn]; try lia.
  destruct (true_div_num_den total pn) as [Hnum Hden].
  apply eq_true_iff_eq. rewrite !Qle_bool_iff.
  destruct (decide (total = 0)) as [->|Hne].
  - unfold binary64. rewrite Hnum. cbn [Z.eqb].
    unfold Qle. rewrite Hnum, Hden. cbn [Qnum Qden inject_Z]. lia.
  - destruct (binary64_small (true_div total (Z.pos pn))) as (E & HE & ->);
      rewrite ?Hnum, ?Hden; try nia.
    rewrite Qle_div_l by lia.
    unfold Qle. rewrite Hnum, Hden. cbn [Qnum Qden inject_Z].
    pose proof (round_half_even_bounds (total * E) pn 0 (c * E)) as Hup.
    pose proof (round_half_even_near (total * E) pn) as Hnear.
    split.
    + intros Hm. destruct (Z.le_gt_cases (total * 1) (c * Z.pos pn)) as [|Hgt]; [assumption|].
      exfalso. nia.
    + intros Hle. apply Hup. nia.
Qed.

Lemma label_binary64 (total n : Z) :
  0 < n < 2 ^ 47 -> 0 <= total <= 100 * n ->
  label (binary64 (true_div total n)) = label (true_div total n).
Proof.
  intros Hn Hb. unfold label.
  change 25%Q with (inject_Z 25). change 50%Q with (inject_Z 50).
  change 75%Q with (inject_Z 75).
  rewrite !Qle_bool_binary64 by lia. reflexivity.
Qed.

Lemma round1_bounds (x : Q) (lo hi : Z) :
  (inject_Z lo <= x <= inject_Z hi)%Q -> (inject_Z lo <= round1 x <= inject_Z hi)%Q.
Proof.
  destruct x as [num den]. unfold Qle, inject_Z. cbn [Qnum Qden]. intros Hb.
  unfold round1, Qmult. cbn [Qnum Qden].
  pose proof (round_half_even_bounds (num * 10) (den * 1) (lo * 10) (hi * 10)) as H.
  destruct H as [H1 H2]; [rewrite Pos.mul_1_r; lia | lia].
Qed.

(** The double nearest to 7/20 lies below it, so that [round] gives 0.3 where
    the exact quotient would give 0.4; 1/4 is a double and a tie, which goes
    to the even tenth. *)
Example score_mean_of_double :
  round1 (binary64 (true_div 7 20)) = (3 # 10)%Q
  /\ round1 (true_div 7 20) = (4 # 10)%Q
  /\ round1 (binary64 (true_div 1 4)) = (2 # 10)%Q.
Proof. repeat split. Qed.

Lemma label_inject_Z (z : Z) : label (inject_Z z) = threshold_label z 1.
Proof.
  unfold label, threshold_label, Qle_bool, inject_Z. cbn [Qnum Qden].
  rewrite !Z.mul_1_r. reflexivity.
Qed.

(** X19: for a document with sentences, [score_worst_sentence] is the total
    score of one of its sentences and no sentence scores higher. *)
Theorem worst_sentence_is_max (a : SentenceAnalysis) (rest : list SentenceAnalysis) :
  exists w,
    score_worst_sentence (overall (aggregate (a :: rest))) = Some w
    /\ (exists b, b ∈ a :: rest /\ total_score b = w)
    /\ Forall (fun b => total_score b <= w) (a :: rest).
Proof.
  exists (max_list (map total_score (a :: rest))). split; [reflexivity|].
  destruct (max_list_spec (total_score a) (map total_score rest)) as [Hin Hall].
  change (total_score a :: map total_score rest) with (map total_score (a :: rest)) in *.
  split.
  - apply list_elem_of_fmap in Hin as (b & Hb & Hin). eauto.
  - rewrite Forall_forall in Hall. apply Forall_forall. intros b Hb.
    apply Hall. apply list_elem_of_fmap. eauto.
Qed.

(** X20: the summary of a returned document keeps to the score range:
    [score_mean] and [pct_sentences_high_bs] lie between 0 and 100, and so
    does [score_worst_sentence]. *)
Theorem summary_in_range (lower : str -> str) (is_word is_space : codepoint -> bool)
    (self : Analyzer) (fuel : nat) (text : str) (res : AnalysisResult) :
  analyze_text lower is_word is_space self fuel text = Ok res ->
  (0 <= score_mean (overall res) <= 100)%Q
  /\ (forall p, pct_sentences_high_bs (overall res) = Some p -> (0 <= p <= 100)%Q)
  /\ (forall w, score_worst_sentence (overall res) = Some w -> 0 <= w <= 100).
Proof.
  intros H. apply analyze_text_Ok_inv in H as (analyses & -> & Hall).
  assert (Forall (fun b => 0 <= total_score b <= 100) analyses) as Hrange.
  { induction Hall as [|s b sents analyses Hb _ IH]; constructor; [|assumption].
    apply (total_score_of_result lower is_word self fuel s b Hb). }
  destruct analyses as [|a rest].
  - simpl. split; [split; discriminate|]. split; intros ? [=].
  - set (analyses := a :: rest) in *.
    assert (0 < Z.of_nat (length (map total_score analyses))) as Hn
      by (unfold analyses; simpl; lia).
    split; [|split].
    + change 0%Q with (inject_Z 0). change 100%Q with (inject_Z 100).
      apply round1_bounds. apply binary64_bounds; [exact Hn | lia | lia |].
      apply sum_bounds. apply Forall_forall. intros x Hx.
      apply list_elem_of_fmap in Hx as (b & -> & Hb).
      rewrite Forall_forall in Hrange. apply Hrange. exact Hb.
    + intros p [= <-]. change 0%Q with (inject_Z 0). change 100%Q with (inject_Z 100).
      apply round1_bounds. apply binary64_bounds; [exact Hn | lia | lia |].
      match goal with
      | |- context [length (filter ?P ?l)] =>
          pose proof (length_filter P l) as Hle; cbn [length] in Hle
      end.
      lia.
    + intros w Hw.
      change (Some (max_list (total_score a :: map total_score rest)) = Some w) in Hw.
      destruct (max_list_spec (total_score a) (map total_score rest)) as [Hin _].
      injection Hw as Hw. unfold max_list in Hin. rewrite Hw in Hin.
      change (total_score a :: map total_score rest)
        with (map total_score (a :: rest)) in Hin.
      apply list_elem_of_fmap in Hin as (b & -> & Hb).
      rewrite Forall_forall in Hrange. apply Hrange. exact Hb.
Qed.

(** X21: when every sentence of a document scores within a range whose two
    ends get the same label, the document gets that label: sentences that all
    fall in one band give that band. *)
Theorem label_of_band (a : SentenceAnalysis) (rest : list SentenceAnalysis) (lo hi : Z) :
  Forall (fun b => lo <= total_score b <= hi) (a :: rest) ->
  label (inject_Z lo) = label (inject_Z hi) ->
  overall_label (overall (aggregate (a :: rest))) = label (inject_Z hi).
Proof.
  intros Hrange Hsame.
  set (scores := map total_score (a :: rest)).
  assert (overall_label (overall (aggregate (a :: rest)))
          = label (true_div (sum scores) (Z.of_nat (length scores)))) as -> by reflexivity.
  assert (0 < Z.of_nat (length scores)) as Hn by (unfold scores; simpl; lia).
  assert (Forall (fun x => lo <= x <= hi) scores) as Hscores.
  { apply Forall_forall. intros x Hx. apply list_elem_of_fmap in Hx as (b & -> & Hb).
    rewrite Forall_forall in Hrange. apply Hrange. exact Hb. }
  pose proof (sum_bounds lo hi scores Hscores) as Hsum.
  rewrite label_true_div by exact Hn. rewrite !label_inject_Z in *.
  generalize dependent (sum scores). generalize dependent (Z.of_nat (length scores)).
  intros n Hn total Hsum. unfold threshold_label in *.
  change (25 * 1) with 25 in *. change (50 * 1) with 50 in *. change (75 * 1) with 75 in *.
  repeat match goal with
         | H : context [?x <=? ?y] |- _ => destruct (Z.leb_spec x y)
         | |- context [?x <=? ?y] => destruct (Z.leb_spec x y)
         end; try reflexivity; try discriminate; exfalso; nia.
Qed.

(** ** Construction *)

Lemma compile_key_compiled (re_compile : str -> option Pattern) (rx : gmap string str)
    (k : string) (p : Pattern) :
  compile_key re_compile rx k = Ok p <-> compiled re_compile rx k p.
Proof.
  unfold compile_key, compiled, getitem. destruct (rx !! k) as [source|]; simpl.
  - destruct (re_compile source) as [q|] eqn:Hq.
    + split; [intros [= <-]; eauto | intros (src & [= <-] & Hc); congruence].
    + split; [discriminate | intros (src & [= <-] & Hc); congruence].
  - split; [discriminate | intros (src & Hs & _); discriminate].
Qed.

(** X22: construction succeeds exactly when the five pattern sources are
    present and compile; the analyzer then holds the five compiled patterns
    and the lexicon, weight and class documents as they were loaded, none of
    which is looked into. *)
Theorem Analyzer_init_Ok_iff (re_compile : str -> option Pattern) (d : RulesDir)
    (a : Analyzer) :
  Analyzer_init re_compile d = Ok a <->
  compiled re_compile (regex_json d) "number_unit" (re_number_unit a)
  /\ compiled re_compile (regex_json d) "timeframe" (re_timeframe a)
  /\ compiled re_compile (regex_json d) "baseline" (re_baseline a)
  /\ compiled re_compile (regex_json d) "scope" (re_scope a)
  /\ compiled re_compile (regex_json d) "passive" (re_passive a)
  /\ lex a = lexicons_json d /\ wt a = weights_json d /\ sc a = semantic_classes_json d.
Proof.
  unfold Analyzer_init. split.
  - intros H. invert_binds. injection H as <-. cbn.
    repeat match goal with
           | H : compile_key _ _ _ = Ok _ |- _ => apply compile_key_compiled in H
           end.
    repeat split; assumption.
  - intros (H1 & H2 & H3 & H4 & H5 & Hlex & Hwt & Hsc).
    apply compile_key_compiled in H1, H2, H3, H4, H5.
    rewrite H1, H2, H3, H4, H5. cbn [mbind result_bind].
    destruct a. cbn in *. subst. reflexivity.
Qed.

(** ** The class rule *)

Lemma features_get_unknown (f : Features) (k : string) :
  k ∉ feature_names -> features_get f k false = false.
Proof.
  intros Hk. unfold features_get, features_items. cbn [assoc_get].
  repeat match goal with
         | |- context [String.eqb ?n k] =>
             destruct (String.eqb_spec n k) as [Heq|_];
             [exfalso; apply Hk; rewrite <- Heq; apply (bool_decide_unpack _); vm_compute; exact I|]
         end.
  reflexivity.
Qed.

(** X23: the class rule raises only for an entry with a missing key: an entry
    [values_non_operational] that is not empty and lacks [requires] raises
    for every sentence; one that lacks [forbids] raises only for a sentence
    that has all the required features. *)
Theorem classify_error_iff (sc : list (string * ClassRule)) (f : Features) (e : error) :
  classify sc f = Err e <->
  exists rule,
    assoc_get sc "values_non_operational" = Some rule /\ rule <> ∅
    /\ ((rule !! "requires" = None /\ e = KeyError "requires")
        \/ (exists requires,
              rule !! "requires" = Some requires
              /\ forallb (fun k => features_get f k false) requires = true
              /\ rule !! "forbids" = None /\ e = KeyError "forbids")).
Proof.
  unfold classify. destruct (assoc_get sc "values_non_operational") as [rule|].
  2: { split; [discriminate | intros (rule & [=] & _)]. }
  destruct (bool_decide (rule = ∅)) eqn:Hempty.
  { apply bool_decide_eq_true in Hempty.
    split; [discriminate | intros (rule' & [= <-] & Hne & _); contradiction]. }
  apply bool_decide_eq_false in Hempty. unfold getitem.
  destruct (rule !! "requires") as [requires|] eqn:Hreq; cbn [mbind result_bind].
  - destruct (forallb (fun k => features_get f k false) requires) eqn:Hall.
    + destruct (rule !! "forbids") as [forbids|] eqn:Hforb; cbn [mbind result_bind].
      * split.
        -- destruct (forallb _ forbids); discriminate.
        -- intros (rule' & [= <-] & _ & [[Hn _] | (req & _ & _ & Hn & _)]); congruence.
      * split.
        -- intros [= <-]. exists rule. split; [reflexivity|]. split; [assumption|].
           right. exists requires. repeat split; assumption.
        -- intros (rule' & [= <-] & _ & [[Hn _] | (req & _ & _ & _ & ->)]);
             [congruence | reflexivity].
    + split; [discriminate|].
      intros (rule' & [= <-] & _ & [[Hn _] | (req & Hr & Ht & _)]); [congruence|].
      rewrite Hreq in Hr. injection Hr as <-. congruence.
  - split.
    + intros [= <-]. exists rule. split; [reflexivity|]. split; [assumption|]. left. auto.
    + intros (rule' & [= <-] & _ & [[_ ->] | (req & Hr & _)]); [reflexivity | congruence].
Qed.

(** X24: a name in [requires] that is not one of the thirteen feature names
    switches the class off: the sentence gets the default class, without an
    error, whatever its features and whatever [forbids] holds or lacks. *)
Theorem unknown_required_feature (sc : list (string * ClassRule)) (f : Features)
    (rule : ClassRule) (requires : list string) (k : string) :
  assoc_get sc "values_non_operational" = Some rule ->
  rule !! "requires" = Some requires ->
  k ∈ requires ->
  k ∉ feature_names ->
  classify sc f = Ok "operational_or_mixed".
Proof.
  intros Hrule Hreq Hk Hunknown. unfold classify. rewrite Hrule.
  destruct (bool_decide (rule = ∅)); [reflexivity|].
  unfold getitem. rewrite Hreq. cbn [mbind result_bind].
  assert (forallb (fun k => features_get f k false) requires = false) as ->; [|reflexivity].
  apply not_true_is_false. intros Hall. rewrite forallb_forall in Hall.
  apply list_elem_of_In in Hk. specialize (Hall k Hk).
  rewrite features_get_unknown in Hall by assumption. discriminate.
Qed.

(** ** The properties on the small rule set *)

(** A literal pattern reports matches that lie within the text. *)
Lemma literal_scan_sound (p t : str) (pos skip : nat) (m : nat * nat) :
  m ∈ literal_scan p t pos skip ->
  (fst m <= snd m)%nat /\ (snd m <= pos + length t)%nat.
Proof.
  revert pos skip. induction t as [|c t IH]; intros pos skip Hm.
  - cbn [literal_scan] in Hm. destruct skip, p; try solve [inversion Hm].
    apply list_elem_of_singleton in Hm as ->. simpl. lia.
  - cbn [literal_scan] in Hm. destruct skip as [|k].
    + destruct (starts_with (map re_fold p) (map re_fold (c :: t))) eqn:Hsw.
      * apply elem_of_cons in Hm as [-> | Hm].
        -- apply starts_with_spec in Hsw as [Hlen _].
           rewrite !length_map in Hlen. cbn [fst snd]. lia.
        -- apply IH in Hm. cbn [length]. lia.
      * apply IH in Hm. cbn [length]. lia.
    + apply IH in Hm. cbn [length]. lia.
Qed.

Lemma literal_pattern_sound (source : str) : pattern_sound (literal_pattern source).
Proof.
  intros text m Hm. apply literal_scan_sound in Hm. simpl in Hm. exact Hm.
Qed.

Lemma spans_ok_if_lower_keeps_length_witness :
  exists r,
    py_analyze_sentence demo_analyzer 64 (u "It was done to improve sales.") = Ok r
    /\ forall fl sp, fl ∈ flags r -> sp ∈ fl_spans fl ->
         span_ok (u "It was done to improve sales.") sp.
Proof.
  destruct (py_analyze_sentence demo_analyzer 64 (u "It was done to improve sales."))
    as [r|e] eqn:H; [|vm_compute in H; discriminate].
  exists r. split; [reflexivity|].
  apply (spans_ok_if_lower_keeps_length py_lower py_is_word demo_analyzer 64 _ r H).
  - vm_compute. lia.
  - apply literal_pattern_sound.
Defined.

Lemma phrase_feature_iff_occurs_witness :
  exists r phrases,
    py_analyze_sentence demo_analyzer 64 (u "We boost revenue.") = Ok r
    /\ lex demo_analyzer !! "outcome_verbs" = Some phrases
    /\ Forall (fun p => py_lower p <> []) phrases
    /\ (outcome_present (features r) = true
        <-> phrase_occurs py_lower phrases (u "We boost revenue.")).
Proof.
  destruct (py_analyze_sentence demo_analyzer 64 (u "We boost revenue."))
    as [r|e] eqn:H; [|vm_compute in H; discriminate].
  destruct (phrase_feature_iff_occurs py_lower py_is_word demo_analyzer 64 _ r
              "outcome_verbs" outcome_present H) as (phrases & Hl & Hne & Hiff).
  { apply list_elem_of_here. }
  exists r, phrases. repeat split; try assumption; apply Hiff.
Defined.

Lemma hedges_do_not_score_witness :
  exists r1 r2,
    py_analyze_sentence demo_analyzer 64 (u "Perhaps we may improve results.") = Ok r1
    /\ py_analyze_sentence (set_lexicon demo_analyzer "hedges" [u "perhaps"]) 64
         (u "Perhaps we may improve results.") = Ok r2
    /\ hedge_present (features r1) = true /\ hedge_present (features r2) = true
    /\ flags r2 = flags r1
    /\ score_breakdown r2 = score_breakdown r1
    /\ total_score r2 = total_score r1.
Proof.
  destruct (py_analyze_sentence demo_analyzer 64 (u "Perhaps we may improve results."))
    as [r1|e] eqn:H1; [|vm_compute in H1; discriminate].
  destruct (py_analyze_sentence (set_lexicon demo_analyzer "hedges" [u "perhaps"]) 64
              (u "Perhaps we may improve results."))
    as [r2|e] eqn:H2; [|vm_compute in H2; discriminate].
  exists r1, r2. split; [reflexivity|]. split; [reflexivity|].
  split; [vm_compute in H1; injection H1 as <-; reflexivity|].
  split; [vm_compute in H2; injection H2 as <-; reflexivity|].
  exact (hedges_do_not_score py_lower py_is_word demo_analyzer "hedges" [u "perhaps"] 64
           _ r1 r2 (or_introl eq_refl) H1 H2).
Defined.

Lemma flags_from_features_witness :
  exists r,
    py_analyze_sentence demo_analyzer 64 (u "Our strategy was done fast.") = Ok r
    /\ map fl_type (flags r)
       = ["speed_without_timeframe"; "process_no_levers"; "passive_voice"]
    /\ map fl_type (flags r)
       = map fst (filter (fun c : string * bool => snd c)
                    (flag_conditions (features r)
                       (search_process py_is_word (py_lower (u "Our strategy was done fast.")))))
    /\ sublist (map fl_type (flags r)) penalty_keys
    /\ NoDup (map fl_type (flags r)).
Proof.
  destruct (py_analyze_sentence demo_analyzer 64 (u "Our strategy was done fast."))
    as [r|e] eqn:H; [|vm_compute in H; discriminate].
  exists r. split; [reflexivity|].
  split; [vm_compute in H; injection H as <-; reflexivity|].
  exact (flags_from_features py_lower py_is_word demo_analyzer 64 _ r H).
Defined.

Lemma evidence_suppresses_flags_witness :
  exists r fl,
    py_analyze_sentence demo_analyzer 64 (u "We boost sales 30% using synergy.") = Ok r
    /\ fl ∈ flags r
    /\ metric_present (features r) = true /\ mechanism_present (features r) = true
    /\ fl_type fl <> "outcome_without_metric"
    /\ fl_type fl <> "buzzword_no_mechanism"
    /\ fl_type fl <> "outcome_without_mechanism".
Proof.
  destruct (py_analyze_sentence demo_analyzer 64 (u "We boost sales 30% using synergy."))
    as [r|e] eqn:H; [|vm_compute in H; discriminate].
  assert (metric_present (features r) = true /\ mechanism_present (features r) = true
          /\ flags r <> []) as (Hmet & Hmech & Hne).
  { pose proof H as H'. vm_compute in H'. injection H' as <-.
    repeat split. discriminate. }
  destruct (flags r) as [|fl fls] eqn:Hfl; [contradiction|].
  assert (fl ∈ flags r) as Hin by (rewrite Hfl; apply list_elem_of_here).
  exists r, fl. split; [reflexivity|]. rewrite Hfl. split; [apply list_elem_of_here|].
  split; [assumption|]. split; [assumption|].
  destruct (evidence_suppresses_flags py_lower py_is_word demo_analyzer 64 _ r fl H Hin)
    as (Hm & _ & _ & _ & Hk).
  destruct (Hm Hmet) as [? _]. destruct (Hk Hmech) as (? & ? & _).
  repeat split; assumption.
Defined.

Lemma flags_have_spans_witness :
  exists r,
    py_analyze_sentence demo_analyzer 64 (u "Our strategy was done fast.") = Ok r
    /\ Forall (fun fl => fl_spans fl <> []) (flags r).
Proof.
  destruct (py_analyze_sentence demo_analyzer 64 (u "Our strategy was done fast."))
    as [r|e] eqn:H; [|vm_compute in H; discriminate].
  exists r. split; [reflexivity|].
  exact (flags_have_spans py_lower py_is_word demo_analyzer 64 _ r H).
Defined.

Lemma process_flag_spans_sentence_witness :
  exists r fl,
    py_analyze_sentence demo_analyzer 64 (u "Our Strategy wins.") = Ok r
    /\ fl ∈ flags r
    /\ fl_type fl = "process_no_levers"
    /\ fl_spans fl = [mkSpan 0 18 (u "Our Strategy wins.")]
    /\ Forall (span_ok (u "Our Strategy wins.")) (fl_spans fl)
    /\ search_process py_is_word (py_lower (u "Our Strategy wins.")) = true
    /\ mechanism_present (features r) = false.
Proof.
  destruct (py_analyze_sentence demo_analyzer 64 (u "Our Strategy wins."))
    as [r|e] eqn:H; [|vm_compute in H; discriminate].
  destruct (flags r) as [|fl fls] eqn:Hfl.
  { exfalso. pose proof H as H'. vm_compute in H'. injection H' as <-. discriminate. }
  assert (fl_type fl = "process_no_levers") as Hty.
  { pose proof H as H'. vm_compute in H'. injection H' as <-.
    injection Hfl as <- _. reflexivity. }
  assert (fl ∈ flags r) as Hin by (rewrite Hfl; apply list_elem_of_here).
  exists r, fl. split; [reflexivity|]. rewrite Hfl. split; [apply list_elem_of_here|].
  split; [assumption|].
  exact (process_flag_spans_sentence py_lower py_is_word demo_analyzer 64 _ r fl H Hin Hty).
Defined.

Lemma bonus_only_lowers_witness :
  exists r,
    py_analyze_sentence demo_analyzer 64 (u "We improve sales 30% in 10 days.") = Ok r
    /\ 0 <= bonus (score_breakdown r)
    /\ total_score r <= clamp (penalties (score_breakdown r)) 0 100
    /\ (flags r = [] -> penalties (score_breakdown r) = 0 /\ total_score r = 0).
Proof.
  destruct (py_analyze_sentence demo_analyzer 64 (u "We improve sales 30% in 10 days."))
    as [r|e] eqn:H; [|vm_compute in H; discriminate].
  exists r. split; [reflexivity|].
  apply (bonus_only_lowers py_lower py_is_word demo_analyzer 64 _ r demo_bonuses H).
  - reflexivity.
  - apply (bool_decide_unpack (map_Forall (fun _ w => 0 <= w) demo_bonuses)).
    vm_compute. exact I.
Defined.

Lemma empty_sentence_witness :
  exists r,
    py_analyze_sentence demo_analyzer 64 [] = Ok r
    /\ Forall (fun kf : string * (Features -> bool) => snd kf (features r) = false)
              lexicon_features
    /\ search_process py_is_word (py_lower []) = false
    /\ Forall (fun fl => fl_type fl = "passive_voice") (flags r).
Proof.
  destruct (py_analyze_sentence demo_analyzer 64 []) as [r|e] eqn:H;
    [|vm_compute in H; discriminate].
  exists r. split; [reflexivity|].
  exact (empty_sentence py_lower py_is_word demo_analyzer 64 r eq_refl H).
Defined.

Lemma analyze_text_sentences_witness :
  exists res,
    py_analyze_text demo_analyzer 64 (u " We improve results.  It is proven. ") = Ok res
    /\ Forall2 (fun s a => py_analyze_sentence demo_analyzer 64 s = Ok a)
         (split_sentences py_is_space (u " We improve results.  It is proven. "))
         (sentences res)
    /\ map sentence (sentences res) = [u "We improve results."; u "It is proven."]
    /\ n_sentences (overall res) = 2%nat.
Proof.
  destruct (py_analyze_text demo_analyzer 64 (u " We improve results.  It is proven. "))
    as [res|e] eqn:H; [|vm_compute in H; discriminate].
  exists res. split; [reflexivity|].
  exact (analyze_text_sentences py_lower py_is_word py_is_space demo_analyzer 64 _ res H).
Defined.

Lemma summary_in_range_witness :
  exists res,
    py_analyze_text demo_analyzer 64 (u "We improve results. It is proven.") = Ok res
    /\ (0 <= score_mean (overall res) <= 100)%Q
    /\ (forall p, pct_sentences_high_bs (overall res) = Some p -> (0 <= p <= 100)%Q)
    /\ (forall w, score_worst_sentence (overall res) = Some w -> 0 <= w <= 100).
Proof.
  destruct (py_analyze_text demo_analyzer 64 (u "We improve results. It is proven."))
    as [res|e] eqn:H; [|vm_compute in H; discriminate].
  exists res. split; [reflexivity|].
  exact (summary_in_range py_lower py_is_word py_is_space demo_analyzer 64 _ res H).
Defined.

Lemma label_of_band_witness :
  exists a b,
    py_analyze_sentence demo_analyzer 64 (u "It is proven.") = Ok a
    /\ py_analyze_sentence demo_analyzer 64 (u "We improve results quickly.") = Ok b
    /\ total_score a = 26 /\ total_score b = 35
    /\ overall_label (overall (aggregate [a; b])) = "Soft marketing".
Proof.
  destruct (py_analyze_sentence demo_analyzer 64 (u "It is proven."))
    as [a|e] eqn:Ha; [|vm_compute in Ha; discriminate].
  destruct (py_analyze_sentence demo_analyzer 64 (u "We improve results quickly."))
    as [b|e] eqn:Hb; [|vm_compute in Hb; discriminate].
  assert (total_score a = 26) as Hsa
    by (vm_compute in Ha; injection Ha as <-; reflexivity).
  assert (total_score b = 35) as Hsb
    by (vm_compute in Hb; injection Hb as <-; reflexivity).
  exists a, b. repeat (split; [first [reflexivity | assumption]|]).
  apply (label_of_band a [b] 26 50); [|reflexivity].
  repeat constructor; lia.
Defined.

Lemma unknown_required_feature_witness :
  exists r,
    py_analyze_sentence demo_analyzer 64 (u "We believe in people.") = Ok r
    /\ values_present (features r) = true
    /\ classify demo_classes (features r) = Ok "values_non_operational"
    /\ classify misspelt_classes (features r) = Ok "operational_or_mixed".
Proof.
  destruct (py_analyze_sentence demo_analyzer 64 (u "We believe in people."))
    as [r|e] eqn:H; [|vm_compute in H; discriminate].
  exists r. split; [reflexivity|].
  split; [vm_compute in H; injection H as <-; reflexivity|].
  split; [vm_compute in H; injection H as <-; reflexivity|].
  apply (unknown_required_feature misspelt_classes (features r) misspelt_rule
           ["values_presnt"] "values_presnt").
  - reflexivity.
  - reflexivity.
  - apply list_elem_of_here.
  - apply (bool_decide_unpack ("values_presnt" ∉ feature_names)). vm_compute. exact I.
Defined.
